(** * KAISA-Agents: streaming tag filter, turn coordinator, quiz session engine

    A shallow embedding of the parts of the repository that decide the
    behaviour of a chat turn:

    - [agents/general_agent.py], [agents/curriculum_agent.py],
      [agents/quizzer_agent.py]: the [stream_async] generators that strip
      [<thinking>...</thinking>] spans from the model stream;
    - [handlers/main_handler.py]: [stream_to_client_and_persist] and
      [async_handler];
    - [repositories/*.py], [factories/dynamodb_factory.py]: the session and
      chat repositories over one DynamoDB table;
    - [agents/quizzer_agent.py]: [evaluate_answer] and the quiz tables;
    - [agents/curriculum_agent.py]: [get_curriculum_context];
    - [agents/general_agent.py]: the document tools [fetch_document_text]
      and [fetch_document_sections] with their helpers;
    - [chat_context/context_manager.py]: the prompt context.

    Text is modelled as Python has it, as lists of Unicode code points;
    [str.lower], [str.upper] and [str.isspace] follow the Unicode tables of
    the interpreter (Unicode 14.0, CPython 3.11).  The model stream, the
    clock, the random source, the delivery channel and the pages of a
    stored PDF are inputs of the model; DynamoDB is taken to answer every
    call, each query with one page of results. *)

From stdpp Require Import base option list strings gmap pretty.
From Stdlib Require Import Ascii ZArith Lia.

Local Open Scope nat_scope.

(** ** Python text *)

(** A character is a Unicode code point, a string the list of its
    characters. *)
Abbreviation char := N.
Abbreviation str := (list N).

(** A character and a string literal of the source. *)
Coercion N_of_ascii : ascii >-> N.
Notation "'#' s" := (N_of_ascii <$> String.list_ascii_of_string s)
  (at level 1, format "'#' s").

Module Py.

(** The characters of [string.ascii_uppercase], [string.ascii_lowercase]
    and [string.digits]. *)
Definition is_upper (c : char) : bool := ((65 <=? c) && (c <=? 90))%N.

Definition is_lower (c : char) : bool := ((97 <=? c) && (c <=? 122))%N.

Definition is_digit (c : char) : bool := ((48 <=? c) && (c <=? 57))%N.

(** A character of [string.ascii_letters + string.digits]. *)
Definition is_alnum (c : char) : bool := is_upper c || is_lower c || is_digit c.

(** *** The case mappings

    The simple case mappings of Unicode 14.0 as runs [(first, last, step,
    delta)]: every [step]-th code point from [first] to [last] maps to
    itself plus [delta]; a code point in no run maps to itself.  The
    characters whose upper case is more than one character are listed
    apart. *)

Definition run (first last step : N) (delta : Z) : N * N * N * Z :=
  (first, last, step, delta).

Definition lower_runs : list (N * N * N * Z) :=
[ run 65 90 1 32; run 192 214 1 32; run 216 222 1 32; run 256 302 2 1;
  run 306 310 2 1; run 313 327 2 1; run 330 374 2 1; run 376 376 1 (-121);
  run 377 381 2 1; run 385 385 1 210; run 386 388 2 1; run 390 390 1 206;
  run 391 391 1 1; run 393 394 1 205; run 395 395 1 1; run 398 398 1 79;
  run 399 399 1 202; run 400 400 1 203; run 401 401 1 1; run 403 403 1 205;
  run 404 404 1 207; run 406 406 1 211; run 407 407 1 209; run 408 408 1 1;
  run 412 412 1 211; run 413 413 1 213; run 415 415 1 214; run 416 420 2 1;
  run 422 422 1 218; run 423 423 1 1; run 425 425 1 218; run 428 428 1 1;
  run 430 430 1 218; run 431 431 1 1; run 433 434 1 217; run 435 437 2 1;
  run 439 439 1 219; run 440 440 1 1; run 444 444 1 1; run 452 452 1 2;
  run 453 453 1 1; run 455 455 1 2; run 456 456 1 1; run 458 458 1 2;
  run 459 475 2 1; run 478 494 2 1; run 497 497 1 2; run 498 500 2 1;
  run 502 502 1 (-97); run 503 503 1 (-56); run 504 542 2 1;
  run 544 544 1 (-130); run 546 562 2 1; run 570 570 1 10795;
  run 571 571 1 1; run 573 573 1 (-163); run 574 574 1 10792;
  run 577 577 1 1; run 579 579 1 (-195); run 580 580 1 69; run 581 581 1 71;
  run 582 590 2 1; run 880 882 2 1; run 886 886 1 1; run 895 895 1 116;
  run 902 902 1 38; run 904 906 1 37; run 908 908 1 64; run 910 911 1 63;
  run 913 929 1 32; run 931 939 1 32; run 975 975 1 8; run 984 1006 2 1;
  run 1012 1012 1 (-60); run 1015 1015 1 1; run 1017 1017 1 (-7);
  run 1018 1018 1 1; run 1021 1023 1 (-130); run 1024 1039 1 80;
  run 1040 1071 1 32; run 1120 1152 2 1; run 1162 1214 2 1;
  run 1216 1216 1 15; run 1217 1229 2 1; run 1232 1326 2 1;
  run 1329 1366 1 48; run 4256 4293 1 7264; run 4295 4295 1 7264;
  run 4301 4301 1 7264; run 5024 5103 1 38864; run 5104 5109 1 8;
  run 7312 7354 1 (-3008); run 7357 7359 1 (-3008); run 7680 7828 2 1;
  run 7838 7838 1 (-7615); run 7840 7934 2 1; run 7944 7951 1 (-8);
  run 7960 7965 1 (-8); run 7976 7983 1 (-8); run 7992 7999 1 (-8);
  run 8008 8013 1 (-8); run 8025 8031 2 (-8); run 8040 8047 1 (-8);
  run 8072 8079 1 (-8); run 8088 8095 1 (-8); run 8104 8111 1 (-8);
  run 8120 8121 1 (-8); run 8122 8123 1 (-74); run 8124 8124 1 (-9);
  run 8136 8139 1 (-86); run 8140 8140 1 (-9); run 8152 8153 1 (-8);
  run 8154 8155 1 (-100); run 8168 8169 1 (-8); run 8170 8171 1 (-112);
  run 8172 8172 1 (-7); run 8184 8185 1 (-128); run 8186 8187 1 (-126);
  run 8188 8188 1 (-9); run 8486 8486 1 (-7517); run 8490 8490 1 (-8383);
  run 8491 8491 1 (-8262); run 8498 8498 1 28; run 8544 8559 1 16;
  run 8579 8579 1 1; run 9398 9423 1 26; run 11264 11311 1 48;
  run 11360 11360 1 1; run 11362 11362 1 (-10743); run 11363 11363 1 (-3814);
  run 11364 11364 1 (-10727); run 11367 11371 2 1;
  run 11373 11373 1 (-10780); run 11374 11374 1 (-10749);
  run 11375 11375 1 (-10783); run 11376 11376 1 (-10782);
  run 11378 11378 1 1; run 11381 11381 1 1; run 11390 11391 1 (-10815);
  run 11392 11490 2 1; run 11499 11501 2 1; run 11506 11506 1 1;
  run 42560 42604 2 1; run 42624 42650 2 1; run 42786 42798 2 1;
  run 42802 42862 2 1; run 42873 42875 2 1; run 42877 42877 1 (-35332);
  run 42878 42886 2 1; run 42891 42891 1 1; run 42893 42893 1 (-42280);
  run 42896 42898 2 1; run 42902 42920 2 1; run 42922 42922 1 (-42308);
  run 42923 42923 1 (-42319); run 42924 42924 1 (-42315);
  run 42925 42925 1 (-42305); run 42926 42926 1 (-42308);
  run 42928 42928 1 (-42258); run 42929 42929 1 (-42282);
  run 42930 42930 1 (-42261); run 42931 42931 1 928; run 42932 42946 2 1;
  run 42948 42948 1 (-48); run 42949 42949 1 (-42307);
  run 42950 42950 1 (-35384); run 42951 42953 2 1; run 42960 42960 1 1;
  run 42966 42968 2 1; run 42997 42997 1 1; run 65313 65338 1 32;
  run 66560 66599 1 40; run 66736 66771 1 40; run 66928 66938 1 39;
  run 66940 66954 1 39; run 66956 66962 1 39; run 66964 66965 1 39;
  run 68736 68786 1 64; run 71840 71871 1 32; run 93760 93791 1 32;
  run 125184 125217 1 34 ].

Definition upper_runs : list (N * N * N * Z) :=
[ run 97 122 1 (-32); run 181 181 1 743; run 224 246 1 (-32);
  run 248 254 1 (-32); run 255 255 1 121; run 257 303 2 (-1);
  run 305 305 1 (-232); run 307 311 2 (-1); run 314 328 2 (-1);
  run 331 375 2 (-1); run 378 382 2 (-1); run 383 383 1 (-300);
  run 384 384 1 195; run 387 389 2 (-1); run 392 392 1 (-1);
  run 396 396 1 (-1); run 402 402 1 (-1); run 405 405 1 97;
  run 409 409 1 (-1); run 410 410 1 163; run 414 414 1 130;
  run 417 421 2 (-1); run 424 424 1 (-1); run 429 429 1 (-1);
  run 432 432 1 (-1); run 436 438 2 (-1); run 441 441 1 (-1);
  run 445 445 1 (-1); run 447 447 1 56; run 453 453 1 (-1);
  run 454 454 1 (-2); run 456 456 1 (-1); run 457 457 1 (-2);
  run 459 459 1 (-1); run 460 460 1 (-2); run 462 476 2 (-1);
  run 477 477 1 (-79); run 479 495 2 (-1); run 498 498 1 (-1);
  run 499 499 1 (-2); run 501 501 1 (-1); run 505 543 2 (-1);
  run 547 563 2 (-1); run 572 572 1 (-1); run 575 576 1 10815;
  run 578 578 1 (-1); run 583 591 2 (-1); run 592 592 1 10783;
  run 593 593 1 10780; run 594 594 1 10782; run 595 595 1 (-210);
  run 596 596 1 (-206); run 598 599 1 (-205); run 601 601 1 (-202);
  run 603 603 1 (-203); run 604 604 1 42319; run 608 608 1 (-205);
  run 609 609 1 42315; run 611 611 1 (-207); run 613 613 1 42280;
  run 614 614 1 42308; run 616 616 1 (-209); run 617 617 1 (-211);
  run 618 618 1 42308; run 619 619 1 10743; run 620 620 1 42305;
  run 623 623 1 (-211); run 625 625 1 10749; run 626 626 1 (-213);
  run 629 629 1 (-214); run 637 637 1 10727; run 640 640 1 (-218);
  run 642 642 1 42307; run 643 643 1 (-218); run 647 647 1 42282;
  run 648 648 1 (-218); run 649 649 1 (-69); run 650 651 1 (-217);
  run 652 652 1 (-71); run 658 658 1 (-219); run 669 669 1 42261;
  run 670 670 1 42258; run 837 837 1 84; run 881 883 2 (-1);
  run 887 887 1 (-1); run 891 893 1 130; run 940 940 1 (-38);
  run 941 943 1 (-37); run 945 961 1 (-32); run 962 962 1 (-31);
  run 963 971 1 (-32); run 972 972 1 (-64); run 973 974 1 (-63);
  run 976 976 1 (-62); run 977 977 1 (-57); run 981 981 1 (-47);
  run 982 982 1 (-54); run 983 983 1 (-8); run 985 1007 2 (-1);
  run 1008 1008 1 (-86); run 1009 1009 1 (-80); run 1010 1010 1 7;
  run 1011 1011 1 (-116); run 1013 1013 1 (-96); run 1016 1016 1 (-1);
  run 1019 1019 1 (-1); run 1072 1103 1 (-32); run 1104 1119 1 (-80);
  run 1121 1153 2 (-1); run 1163 1215 2 (-1); run 1218 1230 2 (-1);
  run 1231 1231 1 (-15); run 1233 1327 2 (-1); run 1377 1414 1 (-48);
  run 4304 4346 1 3008; run 4349 4351 1 3008; run 5112 5117 1 (-8);
  run 7296 7296 1 (-6254); run 7297 7297 1 (-6253); run 7298 7298 1 (-6244);
  run 7299 7300 1 (-6242); run 7301 7301 1 (-6243); run 7302 7302 1 (-6236);
  run 7303 7303 1 (-6181); run 7304 7304 1 35266; run 7545 7545 1 35332;
  run 7549 7549 1 3814; run 7566 7566 1 35384; run 7681 7829 2 (-1);
  run 7835 7835 1 (-59); run 7841 7935 2 (-1); run 7936 7943 1 8;
  run 7952 7957 1 8; run 7968 7975 1 8; run 7984 7991 1 8; run 8000 8005 1 8;
  run 8017 8023 2 8; run 8032 8039 1 8; run 8048 8049 1 74;
  run 8050 8053 1 86; run 8054 8055 1 100; run 8056 8057 1 128;
  run 8058 8059 1 112; run 8060 8061 1 126; run 8112 8113 1 8;
  run 8126 8126 1 (-7205); run 8144 8145 1 8; run 8160 8161 1 8;
  run 8165 8165 1 7; run 8526 8526 1 (-28); run 8560 8575 1 (-16);
  run 8580 8580 1 (-1); run 9424 9449 1 (-26); run 11312 11359 1 (-48);
  run 11361 11361 1 (-1); run 11365 11365 1 (-10795);
  run 11366 11366 1 (-10792); run 11368 11372 2 (-1); run 11379 11379 1 (-1);
  run 11382 11382 1 (-1); run 11393 11491 2 (-1); run 11500 11502 2 (-1);
  run 11507 11507 1 (-1); run 11520 11557 1 (-7264);
  run 11559 11559 1 (-7264); run 11565 11565 1 (-7264);
  run 42561 42605 2 (-1); run 42625 42651 2 (-1); run 42787 42799 2 (-1);
  run 42803 42863 2 (-1); run 42874 42876 2 (-1); run 42879 42887 2 (-1);
  run 42892 42892 1 (-1); run 42897 42899 2 (-1); run 42900 42900 1 48;
  run 42903 42921 2 (-1); run 42933 42947 2 (-1); run 42952 42954 2 (-1);
  run 42961 42961 1 (-1); run 42967 42969 2 (-1); run 42998 42998 1 (-1);
  run 43859 43859 1 (-928); run 43888 43967 1 (-38864);
  run 65345 65370 1 (-32); run 66600 66639 1 (-40); run 66776 66811 1 (-40);
  run 66967 66977 1 (-39); run 66979 66993 1 (-39); run 66995 67001 1 (-39);
  run 67003 67004 1 (-39); run 68800 68850 1 (-64); run 71872 71903 1 (-32);
  run 93792 93823 1 (-32); run 125218 125251 1 (-34) ].

Definition upper_special : list (N * list N) :=
[ (223, [83; 83]); (329, [700; 78]); (496, [74; 780]);
  (912, [921; 776; 769]); (944, [933; 776; 769]); (1415, [1333; 1362]);
  (7830, [72; 817]); (7831, [84; 776]); (7832, [87; 778]); (7833, [89; 778]);
  (7834, [65; 702]); (8016, [933; 787]); (8018, [933; 787; 768]);
  (8020, [933; 787; 769]); (8022, [933; 787; 834]); (8064, [7944; 921]);
  (8065, [7945; 921]); (8066, [7946; 921]); (8067, [7947; 921]);
  (8068, [7948; 921]); (8069, [7949; 921]); (8070, [7950; 921]);
  (8071, [7951; 921]); (8072, [7944; 921]); (8073, [7945; 921]);
  (8074, [7946; 921]); (8075, [7947; 921]); (8076, [7948; 921]);
  (8077, [7949; 921]); (8078, [7950; 921]); (8079, [7951; 921]);
  (8080, [7976; 921]); (8081, [7977; 921]); (8082, [7978; 921]);
  (8083, [7979; 921]); (8084, [7980; 921]); (8085, [7981; 921]);
  (8086, [7982; 921]); (8087, [7983; 921]); (8088, [7976; 921]);
  (8089, [7977; 921]); (8090, [7978; 921]); (8091, [7979; 921]);
  (8092, [7980; 921]); (8093, [7981; 921]); (8094, [7982; 921]);
  (8095, [7983; 921]); (8096, [8040; 921]); (8097, [8041; 921]);
  (8098, [8042; 921]); (8099, [8043; 921]); (8100, [8044; 921]);
  (8101, [8045; 921]); (8102, [8046; 921]); (8103, [8047; 921]);
  (8104, [8040; 921]); (8105, [8041; 921]); (8106, [8042; 921]);
  (8107, [8043; 921]); (8108, [8044; 921]); (8109, [8045; 921]);
  (8110, [8046; 921]); (8111, [8047; 921]); (8114, [8122; 921]);
  (8115, [913; 921]); (8116, [902; 921]); (8118, [913; 834]);
  (8119, [913; 834; 921]); (8124, [913; 921]); (8130, [8138; 921]);
  (8131, [919; 921]); (8132, [905; 921]); (8134, [919; 834]);
  (8135, [919; 834; 921]); (8140, [919; 921]); (8146, [921; 776; 768]);
  (8147, [921; 776; 769]); (8150, [921; 834]); (8151, [921; 776; 834]);
  (8162, [933; 776; 768]); (8163, [933; 776; 769]); (8164, [929; 787]);
  (8166, [933; 834]); (8167, [933; 776; 834]); (8178, [8186; 921]);
  (8179, [937; 921]); (8180, [911; 921]); (8182, [937; 834]);
  (8183, [937; 834; 921]); (8188, [937; 921]); (64256, [70; 70]);
  (64257, [70; 73]); (64258, [70; 76]); (64259, [70; 70; 73]);
  (64260, [70; 70; 76]); (64261, [83; 84]); (64262, [83; 84]);
  (64275, [1348; 1350]); (64276, [1348; 1333]); (64277, [1348; 1339]);
  (64278, [1358; 1350]); (64279, [1348; 1341]) ]%N.

Fixpoint shift (runs : list (N * N * N * Z)) (c : char) : option char :=
  match runs with
  | [] => None
  | (first, last, step, delta) :: runs' =>
      if ((first <=? c) && (c <=? last) && ((c - first) mod step =? 0))%N
      then Some (Z.to_N (Z.of_N c + delta))
      else shift runs' c
  end.

Fixpoint special (table : list (N * list N)) (c : char) : option (list char) :=
  match table with
  | [] => None
  | (c', cs) :: table' => if (c =? c')%N then Some cs else special table' c
  end.

(** U+0130, LATIN CAPITAL LETTER I WITH DOT ABOVE: the one character whose
    lower case is more than one character (U+0069 U+0307). *)
Definition dotted_I : char := 304%N.

(** The lower case of one character. *)
Definition lower_char (c : char) : list char :=
  if (c <? 128)%N then [if is_upper c then (c + 32)%N else c]
  else if (c =? dotted_I)%N then [105; 775]%N
  else [default c (shift lower_runs c)].

(** The upper case of one character. *)
Definition upper_char (c : char) : list char :=
  if (c <? 128)%N then [if is_lower c then (c - 32)%N else c]
  else match special upper_special c with
       | Some cs => cs
       | None => [default c (shift upper_runs c)]
       end.

(** [s.lower()] and [s.upper()]: the mapping of each character in turn.
    One rule of [str.lower] looks at the neighbours of a character and is
    left out: a capital sigma (U+03A3) at the end of a word becomes U+03C2
    where the table gives U+03C3.  Either way it becomes one character
    outside ASCII, so the places at which a tag is found in the lower-case
    text, all that the code asks of it, are the same. *)
Definition lower (s : str) : str := s ≫= lower_char.
Definition upper (s : str) : str := s ≫= upper_char.

(** The line feed. *)
Definition LF : char := 10%N.

(** [c.isspace()]: the 29 white-space characters of Unicode. *)
Definition is_space (c : char) : bool :=
  (((9 <=? c) && (c <=? 13)) || ((28 <=? c) && (c <=? 32))
   || (c =? 133) || (c =? 160) || (c =? 5760)
   || ((8192 <=? c) && (c <=? 8202)) || (c =? 8232) || (c =? 8233)
   || (c =? 8239) || (c =? 8287) || (c =? 12288))%N.

Fixpoint lstrip (s : str) : str :=
  match s with
  | c :: s' => if is_space c then lstrip s' else s
  | [] => []
  end.

(** [s.strip()] *)
Definition strip (s : str) : str := reverse (lstrip (reverse (lstrip s))).

(** [s.startswith(t)] *)
Fixpoint starts_with (t s : str) : bool :=
  match t, s with
  | [], _ => true
  | _ :: _, [] => false
  | a :: t', b :: s' => bool_decide (a = b) && starts_with t' s'
  end.

(** [s.find(t)]: the lowest index at which [t] occurs in [s]; [None]
    stands for Python's [-1]. *)
Fixpoint find (t s : str) : option nat :=
  if starts_with t s then Some 0
  else match s with
       | [] => None
       | _ :: s' => S <$> find t s'
       end.

(** [s[-i:]] for [1 <= i]. *)
Definition last_n (i : nat) (s : str) : str := drop (length s - i) s.

(** [s.replace(c, r)] for a one-character pattern [c]. *)
Definition replace_char (c : char) (r : str) (s : str) : str :=
  s ≫= (λ x, if bool_decide (x = c) then r else [x]).

(** [join] of the empty separator: the parts put together. *)
Definition join (parts : list str) : str := concat parts.

(** [d.get(key)] for the dict built from [entries], the last entry of a
    key winning. *)
Definition dict_get (key : str) (entries : list (str * str)) : option str :=
  snd <$> last (filter (λ kv, kv.1 = key) entries).

(** [s.split(sep)] for a one-character separator: always at least one
    piece. *)
Fixpoint split (sep : char) (s : str) : list str :=
  match s with
  | [] => [[]]
  | c :: s' =>
      if bool_decide (c = sep) then [] :: split sep s'
      else match split sep s' with
           | piece :: pieces => (c :: piece) :: pieces
           | [] => [[c]]
           end
  end.

(** [sep.join(parts)] *)
Fixpoint join_with (sep : str) (parts : list str) : str :=
  match parts with
  | [] => []
  | [part] => part
  | part :: parts' => part ++ sep ++ join_with sep parts'
  end.

Fixpoint lstrip_char (c : char) (s : str) : str :=
  match s with
  | x :: s' => if bool_decide (x = c) then lstrip_char c s' else s
  | [] => []
  end.

(** [s.strip(c)] for a one-character argument. *)
Definition strip_char (c : char) (s : str) : str :=
  reverse (lstrip_char c (reverse (lstrip_char c s))).

(** [range(0, stop, step)] for [0 < step]. *)
Definition range_step (stop step : nat) : list nat :=
  (λ k, k * step) <$> seq 0 ((stop + step - 1) / step).

(** [str(n)] of a natural number. *)
Definition str_of_nat (n : nat) : str :=
  N_of_ascii <$> String.list_ascii_of_string (pretty n).

(** [t] occurs in [s] at index [p]. *)
Definition occ (t s : str) (p : nat) : Prop := starts_with t (drop p s) = true.

(** Every index at which [t] occurs in [s], in increasing order. *)
Definition occurrences (t s : str) : list nat :=
  filter (λ p, starts_with t (drop p s) = true) (seq 0 (S (length s))).

End Py.

(** Exceptions that reach the handlers. *)
Inductive exn :=
| KeyError (key : str)
| ValueError (msg : str)
| AgentFailure (msg : str)      (* raised inside an agent's generator *)
| PostFailure (attempt : nat).  (* raised by the [attempt]-th [post_to_connection] *)

(** [str(exc)] *)
Definition exn_str (e : exn) : str :=
  match e with
  | KeyError key => #"'" ++ key ++ #"'"
  | ValueError msg => msg
  | AgentFailure msg => msg
  | PostFailure _ => #"An error occurred when calling the PostToConnection operation"
  end.

(** ** The streaming tag filter ([stream_async] of the agents) *)

Module TagFilter.
Import Py.

Definition open_tag : str := #"<thinking>".
Definition close_tag : str := #"</thinking>".

(** One item of the model's event stream: a dict that has a ["data"] key
    or one that has not. *)
Inductive chunk :=
| Data (data : str)
| Event.

(** The two local variables of the generator. *)
Record state := State { buffer : str; inside_thinking : bool }.

Definition initial : state := State [] false.

(** [for i in range(min(n, len(buffer)), 0, -1):
       if buffer[-i:].lower() == tag[:i]: ... break]
    started at [i]; the [i] at which the loop breaks, if it does. *)
Fixpoint partial_tag (tag buffer : str) (i : nat) : option nat :=
  match i with
  | O => None
  | S i' =>
      if bool_decide (lower (last_n i buffer) = take i tag) then Some i
      else partial_tag tag buffer i'
  end.

(** The [while True] loop run on the buffer after a fragment was appended.
    [emit] is what the generator applies to a fragment before yielding it;
    the result is the list of fragments yielded, in order, and the state at
    the [break].  [fuel] bounds the number of iterations. *)
Fixpoint scan (emit : str → str) (fuel : nat) (st : state)
  : option (list str * state) :=
  match fuel with
  | O => None
  | S fuel' =>
      let buffer := st.(buffer) in
      if negb st.(inside_thinking) then
        match find open_tag (lower buffer) with
        | Some start =>
            let out := if 0 <? start then [emit (take start buffer)] else [] in
            '(outs, st') ← scan emit fuel' (State (drop (start + 10) buffer) true);
            Some (out ++ outs, st')
        | None =>
            let safe_end :=
              match partial_tag open_tag buffer (10 `min` length buffer) with
              | Some i => length buffer - i
              | None => length buffer
              end in
            if 0 <? safe_end
            then Some ([emit (take safe_end buffer)],
                       State (drop safe_end buffer) false)
            else Some ([], st)
        end
      else
        match find close_tag (lower buffer) with
        | Some end_ => scan emit fuel' (State (drop (end_ + 11) buffer) false)
        | None =>
            let buffer' :=
              if 11 <? length buffer then
                match partial_tag close_tag buffer (11 `min` length buffer) with
                | Some i => last_n i buffer
                | None => last_n 11 buffer
                end
              else buffer in
            Some ([], State buffer' true)
        end
  end.

(** The [async for chunk in ...] loop: fragments yielded and the state
    when the model stream is exhausted. *)
Fixpoint feed (emit : str → str) (chunks : list chunk) (st : state)
  : option (list str * state) :=
  match chunks with
  | [] => Some ([], st)
  | Data data :: chunks' =>
      let st1 := State (st.(buffer) ++ data) st.(inside_thinking) in
      '(out1, st2) ← scan emit (S (length st1.(buffer))) st1;
      '(out2, st3) ← feed emit chunks' st2;
      Some (out1 ++ out2, st3)
  | Event :: chunks' => feed emit chunks' st
  end.

(** [if buffer and not inside_thinking: yield buffer] *)
Definition flush (emit : str → str) (st : state) : list str :=
  if negb (bool_decide (st.(buffer) = [])) && negb st.(inside_thinking)
  then [emit st.(buffer)] else [].

(** The whole generator: every fragment it yields. *)
Definition stream_filter (emit : str → str) (chunks : list chunk)
  : option (list str) :=
  '(outs, st) ← feed emit chunks initial;
  Some (outs ++ flush emit st).

(** The concatenation of the model's text fragments. *)
Definition input_text (chunks : list chunk) : str :=
  chunks ≫= (λ c, match c with Data d => d | Event => [] end).



(** What the loop leaves in the buffer when it breaks. *)
Definition bounded (st : state) : Prop :=
  length st.(buffer) ≤ (if st.(inside_thinking) then 11 else 9).

End TagFilter.

(** The loop of [stream_async] is the same text in the agents' files but
    for what is applied to a fragment at each [yield]; the payload only
    shapes the prompt of the model, whose event stream is the argument
    here. *)
Module general_agent.
Definition stream_async := TagFilter.stream_filter id.

(** *** The document tools

    [fetch_document_text] and [fetch_document_sections] read a PDF from S3
    and hand its text to the model, whole or in sections.  The S3 service
    and the PDF library are a function [get_pages] from the bucket and key
    of the object to the texts of its pages (or the exception raised);
    [TEMP_S3_KB] is the environment variable of that name. *)

(** [_resolve_s3_source]: the bucket, the key and the URI. *)
Definition _resolve_s3_source (TEMP_S3_KB : option str)
    (s3_file_name default_prefix : str) (s3_bucket s3_prefix : option str)
  : exn + str * str * str :=
  if bool_decide (s3_file_name = []) then inl (ValueError #"Missing s3_file_name")
  else
    let bucket :=
      match s3_bucket with
      | Some (c :: b) => Some (c :: b)
      | _ => TEMP_S3_KB
      end in
    match bucket with
    | None | Some [] =>
        inl (ValueError
               #"Missing S3 bucket configuration. Provide s3_bucket or set TEMP_S3_KB")
    | Some bucket =>
        let effective_prefix :=
          Py.strip_char "/"%char
            match s3_prefix with
            | Some (c :: p) => c :: p
            | _ => default_prefix
            end in
        let key :=
          if bool_decide (effective_prefix = []) then s3_file_name
          else effective_prefix ++ #"/" ++ s3_file_name in
        inr (bucket, key, #"s3://" ++ bucket ++ #"/" ++ key)
    end.

(** The [Bucket] and [Key] that [_read_s3_bytes] passes to [get_object];
    [None] when the URI has fewer than three pieces and the index raises. *)
Definition s3_location (s3_uri : str) : option (str * str) :=
  let pieces := Py.split "/"%char s3_uri in
  match pieces !! 2 with
  | None => None
  | Some bucket => Some (bucket, Py.join_with #"/" (drop 3 pieces))
  end.

(** [_chunk_text] *)
Definition _chunk_text (text : str) (chunk_size : option Z) : list str :=
  match chunk_size with
  | None => [text]
  | Some chunk_size =>
      if (chunk_size <=? 0)%Z then [text]
      else
        let n := Z.to_nat chunk_size in
        (λ i, take n (drop i text)) <$> Py.range_step (length text) n
  end.

(** [max_chars if max_chars and max_chars > 0 else None] *)
Definition positive (max_chars : Z) : option Z :=
  if (0 <? max_chars)%Z then Some max_chars else None.

(** The reply of [fetch_document_text]. *)
Record document := {
  document_s3_uri : str;
  document_total_chars : nat;
  document_text : str;
  overflow : bool;
  document_page_count : nat;
  pages : list str;
  remaining_text : option str }.

(** The reading of the object, common to both tools: the page texts, or
    the text of the exception. *)
Definition read_pages (get_pages : str → str → exn + list str) (s3_uri : str)
  : str + list str :=
  match s3_location s3_uri with
  | None => inl #"list index out of range"
  | Some (bucket, key) =>
      match get_pages bucket key with
      | inl e => inl (exn_str e)
      | inr page_texts => inr page_texts
      end
  end.

(** [fetch_document_text]: the error entry or the reply. *)
Definition fetch_document_text (TEMP_S3_KB : option str)
    (get_pages : str → str → exn + list str)
    (s3_file_name : str) (max_chars : Z) (s3_bucket s3_prefix : option str)
  : str + document :=
  match _resolve_s3_source TEMP_S3_KB s3_file_name #"public" s3_bucket s3_prefix with
  | inl config_error => inl (exn_str config_error)
  | inr (bucket, key, s3_uri) =>
      match read_pages get_pages s3_uri with
      | inl e => inl e
      | inr page_texts =>
          let total_chars := sum_list (length <$> page_texts) in
          let full_text := Py.join_with [Py.LF] page_texts in
          let text_preview :=
            match positive max_chars with
            | Some preview_limit => take (Z.to_nat preview_limit) full_text
            | None => full_text
            end in
          let overflow := length text_preview <? length full_text in
          inr {| document_s3_uri := s3_uri;
                 document_total_chars := total_chars;
                 document_text := text_preview;
                 overflow := overflow;
                 document_page_count := length page_texts;
                 pages := page_texts;
                 remaining_text :=
                   if overflow then Some (drop (length text_preview) full_text)
                   else None |}
      end
  end.

(** One entry of [sections]. *)
Record section_payload := {
  section : str;
  page : nat;
  text : str;
  part : option nat }.

(** The sections of one page: the inner loop of [fetch_document_sections]. *)
Definition page_sections (chunk_size : option Z) (page_index : nat) (page_text : str)
  : list section_payload :=
  let page_chunks := _chunk_text page_text chunk_size in
  imap (λ chunk_index chunk,
          let section_label := #"Page " ++ Py.str_of_nat (page_index + 1) in
          {| section :=
               if 1 <? length page_chunks
               then section_label ++ #" - part " ++ Py.str_of_nat (chunk_index + 1)
               else section_label;
             page := page_index + 1;
             text := chunk;
             part := if 1 <? length page_chunks then Some (chunk_index + 1) else None |})
       page_chunks.

Definition sections_all (page_texts : list str) (max_chars : Z) : list section_payload :=
  concat (imap (page_sections (positive max_chars)) page_texts).

(** The reply of [fetch_document_sections]. *)
Record sections_reply := {
  sections_s3_uri : str;
  offset : nat;
  returned : nat;
  total_sections : nat;
  next_offset : option nat;
  has_more : bool;
  chars : nat;
  sections_total_chars : nat;
  sections_page_count : nat;
  sections : list section_payload }.

(** The part of [fetch_document_sections] after the pages were read. *)
Definition select_sections (s3_uri : str) (page_texts : list str)
    (offset limit max_chars : Z) : sections_reply :=
  let total_chars := sum_list (length <$> page_texts) in
  let sections_all := sections_all page_texts max_chars in
  let total_sections := length sections_all in
  let safe_offset := Z.to_nat (Z.max offset 0) in
  let safe_limit := if (0 <? limit)%Z then Z.to_nat limit else total_sections in
  let end_index := Nat.min (safe_offset + safe_limit) total_sections in
  let selected_sections := take (end_index - safe_offset) (drop safe_offset sections_all) in
  let has_more := end_index <? total_sections in
  {| sections_s3_uri := s3_uri;
     offset := safe_offset;
     returned := length selected_sections;
     total_sections := total_sections;
     next_offset := if has_more then Some end_index else None;
     has_more := has_more;
     chars := sum_list ((λ s, length s.(text)) <$> selected_sections);
     sections_total_chars := total_chars;
     sections_page_count := length page_texts;
     sections := selected_sections |}.

(** [fetch_document_sections]: the error entry or the reply. *)
Definition fetch_document_sections (TEMP_S3_KB : option str)
    (get_pages : str → str → exn + list str)
    (s3_file_name : str) (offset limit max_chars : Z)
    (s3_bucket s3_prefix : option str)
  : str + sections_reply :=
  match _resolve_s3_source TEMP_S3_KB s3_file_name #"public" s3_bucket s3_prefix with
  | inl config_error => inl (exn_str config_error)
  | inr (bucket, key, s3_uri) =>
      match read_pages get_pages s3_uri with
      | inl e => inl e
      | inr page_texts => inr (select_sections s3_uri page_texts offset limit max_chars)
      end
  end.

End general_agent.

Module curriculum_agent.
Definition stream_async := TagFilter.stream_filter id.

(** *** [get_curriculum_context]

    The tool other agents call: it drains the curriculum agent's stream
    through a loop of its own, which holds back the last 10 (outside a
    thinking span) or 11 (inside one) characters of the buffer instead of
    looking for a partial tag. *)

Import Py TagFilter.

(** The [while True] loop; [final_response] is threaded through. *)
Fixpoint context_scan (fuel : nat) (final_response : str) (st : state)
  : option (str * state) :=
  match fuel with
  | O => None
  | S fuel' =>
      let buffer := st.(buffer) in
      if negb st.(inside_thinking) then
        match find open_tag (lower buffer) with
        | Some start =>
            let final_response :=
              if 0 <? start then final_response ++ take start buffer
              else final_response in
            context_scan fuel' final_response (State (drop (start + 10) buffer) true)
        | None =>
            if 10 <? length buffer
            then Some (final_response ++ take (length buffer - 10) buffer,
                       State (last_n 10 buffer) false)
            else Some (final_response, st)
        end
      else
        match find close_tag (lower buffer) with
        | Some end_ =>
            context_scan fuel' final_response (State (drop (end_ + 11) buffer) false)
        | None =>
            Some (final_response,
                  State (if 11 <? length buffer then last_n 11 buffer else buffer) true)
        end
  end.

(** The [async for chunk in agent.stream_async(query)] loop. *)
Fixpoint context_feed (chunks : list chunk) (final_response : str) (st : state)
  : option (str * state) :=
  match chunks with
  | [] => Some (final_response, st)
  | Data data :: chunks' =>
      let st1 := State (st.(buffer) ++ data) st.(inside_thinking) in
      '(final_response, st2) ←
         context_scan (S (length st1.(buffer))) final_response st1;
      context_feed chunks' final_response st2
  | Event :: chunks' => context_feed chunks' final_response st
  end.

(** The JSON object returned, by its fields. *)
Inductive context_reply :=
| context_success (query curriculum_response message : str)
| context_error (query message : str).

(** [get_curriculum_context]: [chunks] is what the agent's stream gives
    and [failure] the exception that ends it, if any. *)
Definition get_curriculum_context (chunks : list chunk) (failure : option exn)
    (query : str) : option context_reply :=
  '(final_response, st) ← context_feed chunks [] initial;
  match failure with
  | Some e =>
      Some (context_error query (#"Error getting curriculum context: " ++ exn_str e))
  | None =>
      let final_response :=
        if negb (bool_decide (st.(buffer) = [])) && negb st.(inside_thinking)
        then final_response ++ st.(buffer) else final_response in
      Some (context_success query final_response
              #"Curriculum context retrieved successfully.")
  end.

End curriculum_agent.

Module review_agent.
Definition stream_async := TagFilter.stream_filter id.
End review_agent.

Module quizzer_agent.
Import Py.

(** [.replace('\n', '<br>')] *)
Definition br (s : str) : str := replace_char LF #"<br>" s.
Definition stream_async := TagFilter.stream_filter br.

(** *** The quiz tables *)

(** What [db_save_quiz] writes for a question. *)
Record quiz_fields := {
  question : str;
  options : list (str * str);
  correct : str;
  explanation : str;
  quiz_topic : str;
  quiz_grade : Z;
  created_at : str }.

(** An item of the table [KAISA-quiz-agent-qna], keyed by
    [(session_id, q_index)]: the quiz attributes and the attributes
    [db_update_question_answer] sets. *)
Record question_item := {
  quiz : option quiz_fields;
  user_answer : option str;
  score_status : option str;
  answered_at : option str }.

(** An item of the table [KAISA-quiz-agent-quiz-session], keyed by
    [session_id], as [db_get_session] reads it. *)
Record session_item := {
  state : str;
  current_question : Z;
  total_questions : Z;
  score : Z;
  topic : str;
  grade : Z;
  history : list (str * str * str);
  started_at : str;
  updated_at : str }.

Record quiz_db := {
  quiz_table : gmap (str * Z) question_item;
  session_table : gmap str session_item }.

(** The attributes [db_get_session] falls back to. *)
Definition blank_session : session_item :=
  {| state := []; current_question := 0; total_questions := 0; score := 0;
     topic := []; grade := 0; history := []; started_at := []; updated_at := [] |}.

Definition blank_question : question_item :=
  {| quiz := None; user_answer := None; score_status := None; answered_at := None |}.

(** [update_item] creates the item when the key is new. *)
Definition db_update_question_answer (now : str) (session_id : str) (q_index : Z)
    (user_answer : str) (is_correct : bool) (db : quiz_db) : quiz_db :=
  let status := if is_correct then #"correct" else #"wrong" in
  let old := default blank_question (db.(quiz_table) !! (session_id, q_index)) in
  {| quiz_table :=
       <[(session_id, q_index) :=
           {| quiz := old.(quiz);
              user_answer := Some (upper user_answer);
              score_status := Some status;
              answered_at := Some now |}]> db.(quiz_table);
     session_table := db.(session_table) |}.

(** [None] stands for the dict [{"error": "Session not found"}]. *)
Definition db_get_session (session_id : str) (db : quiz_db) : option session_item :=
  db.(session_table) !! session_id.

Definition db_update_session_progress (now : str) (session_id : str)
    (score current_question : option Z) (state : option str) (db : quiz_db)
  : quiz_db :=
  let old := default blank_session (db.(session_table) !! session_id) in
  {| quiz_table := db.(quiz_table);
     session_table :=
       <[session_id :=
           {| state := default old.(quizzer_agent.state) state;
              current_question :=
                default old.(quizzer_agent.current_question) current_question;
              total_questions := old.(total_questions);
              score := default old.(quizzer_agent.score) score;
              topic := old.(topic); grade := old.(grade);
              history := old.(history); started_at := old.(started_at);
              updated_at := now |}]> db.(session_table) |}.

(** [db_create_session]; [now] stands for both readings of the clock,
    [started_at] and [updated_at]. *)
Definition db_create_session (now : str) (session_id : str) (total_questions : Z)
    (topic : str) (grade : Z) (db : quiz_db) : quiz_db :=
  {| quiz_table := db.(quiz_table);
     session_table :=
       <[session_id :=
           {| state := #"in_progress"; current_question := 0;
              total_questions := total_questions; score := 0;
              topic := topic; grade := grade; history := [];
              started_at := now; updated_at := now |}]> db.(session_table) |}.

(** The dict [evaluate_answer] returns. *)
Record evaluation := {
  is_correct : bool;
  eval_user_answer : str;
  eval_correct_answer : str;
  user_choice_text : str;
  correct_choice_text : str }.

(** [evaluate_answer]; [answered_at] and [updated_at] are the two readings
    of the clock.  [inl] is the [KeyError] of [session_data["score"]] on
    the error dict. *)
Definition evaluate_answer (answered_at updated_at : str) (db : quiz_db)
    (session_id : str) (q_index : Z) (question : str) (options : list (str * str))
    (correct_answer user_answer : str) : quiz_db * (exn + evaluation) :=
  let user_ans_normalized := strip (upper user_answer) in
  let correct_ans_normalized := strip (upper correct_answer) in
  let matches := bool_decide (user_ans_normalized = correct_ans_normalized) in
  let db := db_update_question_answer answered_at session_id q_index
              user_answer matches db in
  match db_get_session session_id db with
  | None => (db, inl (KeyError #"score"))
  | Some session_data =>
      let new_score := (session_data.(score) + (if matches then 1 else 0))%Z in
      let new_question := (session_data.(current_question) + 1)%Z in
      let new_state :=
        if (session_data.(total_questions) <=? new_question)%Z
        then #"completed" else #"in_progress" in
      let db := db_update_session_progress updated_at session_id
                  (Some new_score) (Some new_question) (Some new_state) db in
      (db, inr {| is_correct := matches;
                  eval_user_answer := user_ans_normalized;
                  eval_correct_answer := correct_ans_normalized;
                  user_choice_text :=
                    default #"Invalid" (dict_get user_ans_normalized options);
                  correct_choice_text :=
                    default [] (dict_get correct_ans_normalized options) |})
  end.

(** *** The other table operations *)

(** A question as parsed from the model's JSON: a dict in which any key
    may be missing. *)
Record quiz_input := {
  in_question : option str;
  in_options : option (list (str * str));
  in_correct : option str;
  in_explanation : option str }.

(** The [Item] dict of [db_save_quiz], its values evaluated in order;
    [q["question"]], [q["options"]] and [q["correct"]] raise on a missing
    key. *)
Definition quiz_item_of (created_at : str) (topic : str) (grade : Z) (q : quiz_input)
  : exn + question_item :=
  match q.(in_question), q.(in_options), q.(in_correct) with
  | None, _, _ => inl (KeyError #"question")
  | Some _, None, _ => inl (KeyError #"options")
  | Some _, Some _, None => inl (KeyError #"correct")
  | Some question, Some options, Some correct =>
      inr {| quiz := Some {| question := question; options := options;
                             correct := correct;
                             explanation := default [] q.(in_explanation);
                             quiz_topic := topic; quiz_grade := grade;
                             created_at := created_at |};
             user_answer := None; score_status := None; answered_at := None |}
  end.

(** A question dict with the three keys [db_save_quiz] indexes. *)
Definition complete (q : quiz_input) : Prop :=
  is_Some q.(in_question) ∧ is_Some q.(in_options) ∧ is_Some q.(in_correct).

(** The loop of [db_save_quiz] from index [i] on; [put_item] replaces the
    whole item.  [now i] is the clock when item [i] is written. *)
Fixpoint db_save_quiz_from (now : nat → str) (session_id : str) (i : nat)
    (quiz_items : list quiz_input) (topic : str) (grade : Z) (db : quiz_db)
  : quiz_db * (exn + unit) :=
  match quiz_items with
  | [] => (db, inr ())
  | q :: quiz_items' =>
      match quiz_item_of (now i) topic grade q with
      | inl e => (db, inl e)
      | inr item =>
          db_save_quiz_from now session_id (S i) quiz_items' topic grade
            {| quiz_table := <[(session_id, Z.of_nat i) := item]> db.(quiz_table);
               session_table := db.(session_table) |}
      end
  end.

(** [db_save_quiz]; the value returned is [items_saved]. *)
Definition db_save_quiz (now : nat → str) (session_id : str)
    (quiz_items : list quiz_input) (topic : str) (grade : Z) (db : quiz_db)
  : quiz_db * (exn + nat) :=
  match db_save_quiz_from now session_id 0 quiz_items topic grade db with
  | (db', inl e) => (db', inl e)
  | (db', inr _) => (db', inr (length quiz_items))
  end.

(** The dict [db_get_question] returns for an item. *)
Record question_view := {
  view_question : str;
  view_options : list (str * str);
  view_correct : str;
  view_explanation : str;
  view_topic : str;
  view_grade : Z;
  view_user_answer : str }.

(** [db_get_question]: [inr None] stands for the dict
    [{"error": "Question not found"}]; [item["question"]] raises on an item
    that has no quiz attributes. *)
Definition db_get_question (session_id : str) (q_index : Z) (db : quiz_db)
  : exn + option question_view :=
  match db.(quiz_table) !! (session_id, q_index) with
  | None => inr None
  | Some item =>
      match item.(quiz) with
      | None => inl (KeyError #"question")
      | Some f =>
          inr (Some {| view_question := f.(question);
                       view_options := f.(options);
                       view_correct := f.(correct);
                       view_explanation := f.(explanation);
                       view_topic := f.(quiz_topic);
                       view_grade := f.(quiz_grade);
                       view_user_answer := default [] item.(user_answer) |})
      end
  end.

(** [db_add_to_chat_history]: [false] stands for the dict
    [{"error": "Session not found"}]; [timestamp] and [updated_at] are the
    two readings of the clock. *)
Definition db_add_to_chat_history (timestamp updated_at : str) (session_id : str)
    (student_message tallya_reply : str) (db : quiz_db) : quiz_db * bool :=
  match db.(session_table) !! session_id with
  | None => (db, false)
  | Some session =>
      let history := session.(history) ++ [(timestamp, student_message, tallya_reply)] in
      ({| quiz_table := db.(quiz_table);
          session_table :=
            <[session_id :=
                {| state := session.(state);
                   current_question := session.(current_question);
                   total_questions := session.(total_questions);
                   score := session.(score);
                   topic := session.(topic); grade := session.(grade);
                   history := drop (length history - 20) history;
                   started_at := session.(started_at);
                   updated_at := updated_at |}]> db.(session_table) |},
       true)
  end.

(** The end of [generate_quiz_questions], from the parsed list on:
    [parsed] is what [json.loads] gave ([inl] when it raised).  The reply is
    the list returned: the questions, or one error entry. *)
Definition store_generated_quiz (now : nat → str) (session_now : str)
    (session_id : str) (topic : str) (grade : Z)
    (parsed : exn + list quiz_input) (db : quiz_db)
  : quiz_db * (str + list quiz_input) :=
  match parsed with
  | inl e => (db, inl (#"Failed to generate quiz: " ++ exn_str e))
  | inr quiz_items =>
      match db_save_quiz now session_id quiz_items topic grade db with
      | (db', inl e) => (db', inl (#"Failed to generate quiz: " ++ exn_str e))
      | (db', inr _) =>
          (db_create_session session_now session_id
             (Z.of_nat (length quiz_items)) topic grade db',
           inr quiz_items)
      end
  end.

(** Answers given one after the other, each a call of [evaluate_answer]
    with the index, the correct label and the label submitted; the clock
    reads [now] throughout.  A call that raises ends the run. *)
Fixpoint submit_all (now : str) (session_id : str)
    (answers : list (Z * str * str)) (db : quiz_db) : quiz_db * (exn + unit) :=
  match answers with
  | [] => (db, inr ())
  | (q_index, correct_answer, user_answer) :: answers' =>
      match evaluate_answer now now db session_id q_index [] []
              correct_answer user_answer with
      | (db', inl e) => (db', inl e)
      | (db', inr _) => submit_all now session_id answers' db'
      end
  end.

(** The answers of a run that count as correct. *)
Definition correct_answers (answers : list (Z * str * str)) : nat :=
  length (filter (λ a, strip (upper a.2) = strip (upper a.1.2)) answers).

End quizzer_agent.


(** ** The chat table ([factories/dynamodb_factory.py])

    Both repositories read and write one DynamoDB table (the environment
    variable [CHAT_TABLE]).  The table is modelled as the list of its items;
    the DynamoDB service itself is taken to answer every call. *)

Module dynamodb_factory.

(** An item as [write] builds it: the optional attributes are those
    [write] adds only for some objects. *)
Record item := Item {
  PK : str;
  SK : str;
  item_user_id : str;
  item_message : str;
  item_role : str;
  item_session_id : option str;
  item_file_name : option str;
  item_s3_file_name : option str;
  item_file_type : option str;
  item_title : option str;
  item_session_summary : option str;
  item_message_count : option Z;
  item_is_deleted : option bool;
  item_has_ended : option bool;
  item_message_count_summarized : option Z }.

Definition table := list item.

(** Strings in the order of their character codes, as DynamoDB sorts a
    string sort key. *)
Fixpoint str_leb (a b : str) : bool :=
  match a, b with
  | [], _ => true
  | _ :: _, [] => false
  | x :: a', y :: b' =>
      (x <? y)%N || ((x =? y)%N && str_leb a' b')
  end.

(** [put_item]: the item replaces the one with the same key, if any. *)
Definition put_item (i : item) (t : table) : table :=
  filter (λ j, ¬ (PK j = PK i ∧ SK j = SK i)) t ++ [i].

Fixpoint insert_by_SK (i : item) (l : list item) : list item :=
  match l with
  | [] => [i]
  | j :: l' => if str_leb (SK i) (SK j) then i :: l else j :: insert_by_SK i l'
  end.

(** [DDB_CLIENT.query] with the key condition [PK = hash_key]: the items
    in sort-key order, ascending when [scan_index_forward], at most
    [limit] of them when a limit is passed.  The callers read [Items] of
    one answer and never ask for a next page: the model is what they see
    as long as the items asked for fit one page of the service. *)
Definition ddb_query (t : table) (hash_key : str) (scan_index_forward : bool)
    (limit : option nat) : list item :=
  let found := foldr insert_by_SK [] (filter (λ j, PK j = hash_key) t) in
  let ordered := if scan_index_forward then found else reverse found in
  match limit with
  | Some n => take n ordered
  | None => ordered
  end.

(** [if limit: query_params['Limit'] = limit] *)
Definition limit_param (limit : nat) : option nat :=
  if limit =? 0 then None else Some limit.

End dynamodb_factory.

Module user_session_model.

Record UserSession := {
  user_id : str;
  timestamp : str;
  session_id : str;
  title : str;
  session_summary : str;
  is_deleted : bool;
  has_ended : bool;
  message_count : Z;
  message_count_summarized : Z }.

Definition set_message_count (n : Z) (u : UserSession) : UserSession :=
  {| user_id := u.(user_id); timestamp := u.(timestamp);
     session_id := u.(session_id); title := u.(title);
     session_summary := u.(session_summary); is_deleted := u.(is_deleted);
     has_ended := u.(has_ended); message_count := n;
     message_count_summarized := u.(message_count_summarized) |}.

End user_session_model.

Module chat_model.

Record Chat := {
  session_id : str;
  timestamp : str;
  role : str;
  message : str;
  user_id : str;
  file_name : option str;
  s3_file_name : option str;
  file_type : option str }.

End chat_model.

Module file_model.

(** Modelled from the spec: [models/file_model.py] is not among the
    sources; [File] is the record of the four fields of [file_input] in
    the inbound request. *)
Record File := {
  file_name : option str;
  file_type : option str;
  s3_file_name : option str;
  file_size : option Z }.

End file_model.

(** Python truthiness of an optional string: present and not empty. *)
Definition truthy (o : option str) : bool :=
  match o with
  | Some (_ :: _) => true
  | _ => false
  end.

Module user_session_repository.
Import dynamodb_factory user_session_model.

Definition ascii_letters : str :=
  #"abcdefghijklmnopqrstuvwxyzABCDEFGHIJKLMNOPQRSTUVWXYZ".
Definition digits : str := #"0123456789".

(** [random.choices(population, k=k)]: the [i]-th draw of the random
    source, a natural number, picks the character at that number modulo
    the size of the population. *)
Definition choices (random : nat → nat) (population : str) (k : nat) : str :=
  (λ i, nth (random i `mod` length population) population 48%N) <$> seq 0 k.

Definition construct_session_id (random : nat → nat) (user_id : str) : str :=
  let random_part := choices random (ascii_letters ++ digits) 8 in
  user_id ++ #"-" ++ random_part.

Definition initialize_user_session (now : str) (user_id session_id summary title : str)
  : UserSession :=
  {| user_id := user_id; session_id := session_id; timestamp := now;
     title := title; session_summary := summary;
     is_deleted := false; has_ended := false;
     message_count := 0; message_count_summarized := 0 |}.

(** The construction of the model object in [query], for [model_cls = UserSession]. *)
Definition of_item (i : item) : exn + UserSession :=
  match i.(item_session_id), i.(item_title) with
  | None, _ => inl (KeyError #"session_id")
  | Some _, None => inl (KeyError #"title")
  | Some _, Some title =>
      inr {| user_id := i.(item_user_id); timestamp := i.(SK);
             session_id := i.(PK); title := title;
             session_summary := default [] i.(item_session_summary);
             is_deleted := default false i.(item_is_deleted);
             has_ended := default false i.(item_has_ended);
             message_count := default 0%Z i.(item_message_count);
             message_count_summarized :=
               default 0%Z i.(item_message_count_summarized) |}
  end.

Definition get_user_session (t : table) (user_id session_id : str)
  : exn + option UserSession :=
  match ddb_query t session_id true (limit_param 1) with
  | [] => inr None
  | i :: _ =>
      match of_item i with
      | inl e => inl e
      | inr u => inr (Some u)
      end
  end.

(** [write] on a [UserSession]. *)
Definition to_item (u : UserSession) : item :=
  {| PK := u.(session_id); SK := u.(timestamp);
     item_user_id := u.(user_id); item_message := []; item_role := [];
     item_session_id := Some u.(session_id);
     item_file_name := None; item_s3_file_name := None; item_file_type := None;
     item_title := Some u.(title);
     item_session_summary :=
       if bool_decide (u.(session_summary) = []) then None
       else Some u.(session_summary);
     item_message_count := Some u.(message_count);
     item_is_deleted := Some u.(is_deleted);
     item_has_ended := Some u.(has_ended);
     item_message_count_summarized := Some u.(message_count_summarized) |}.

Definition save (u : UserSession) (t : table) : table := put_item (to_item u) t.

End user_session_repository.

Module chat_repository.
Import dynamodb_factory chat_model.

Definition initialize_chat_user (now : str) (user_id user_input session_id : str)
    (file_input : option file_model.File) : Chat :=
  {| user_id := user_id; session_id := session_id; timestamp := now;
     role := #"user"; message := user_input;
     file_name := file_input ≫= file_model.file_name;
     s3_file_name := file_input ≫= file_model.s3_file_name;
     file_type := file_input ≫= file_model.file_type |}.

Definition initialize_chat_agent (now : str) (user_id agent_response session_id : str)
  : Chat :=
  {| user_id := user_id; session_id := session_id; timestamp := now;
     role := #"assistant"; message := agent_response;
     file_name := None; s3_file_name := None; file_type := None |}.

(** [write] on a [Chat]: the file attributes are written when truthy. *)
Definition to_item (c : Chat) : item :=
  let keep (o : option str) := if truthy o then o else None in
  {| PK := c.(session_id); SK := c.(timestamp);
     item_user_id := c.(user_id); item_message := c.(message);
     item_role := c.(role);
     item_session_id := Some c.(session_id);
     item_file_name := keep c.(file_name);
     item_s3_file_name := keep c.(s3_file_name);
     item_file_type := keep c.(file_type);
     item_title := None; item_session_summary := None;
     item_message_count := None; item_is_deleted := None;
     item_has_ended := None; item_message_count_summarized := None |}.

Definition save (c : Chat) (t : table) : table := put_item (to_item c) t.

(** The construction of the model object in [query], for [model_cls = Chat]. *)
Definition of_item (i : item) : exn + Chat :=
  match i.(item_session_id) with
  | None => inl (KeyError #"session_id")
  | Some _ =>
      inr {| session_id := i.(PK); timestamp := i.(SK);
             role := i.(item_role); message := i.(item_message);
             user_id := i.(item_user_id);
             file_name := i.(item_file_name);
             s3_file_name := i.(item_s3_file_name);
             file_type := i.(item_file_type) |}
  end.

(** The conversion loop of [query]: the first item that cannot be
    converted raises. *)
Fixpoint of_items (l : list item) : exn + list Chat :=
  match l with
  | [] => inr []
  | i :: l' =>
      match of_item i with
      | inl e => inl e
      | inr c =>
          match of_items l' with
          | inl e => inl e
          | inr cs => inr (c :: cs)
          end
      end
  end.

(** A message of the compiled history: role and text. *)
Definition chat_message : Type := str * str.

Definition compile_chat_history (t : table) (session_id : str)
    (context_window : nat) : exn + list chat_message :=
  match of_items (ddb_query t session_id false (limit_param (context_window * 2))) with
  | inl e => inl e
  | inr chat_messages =>
      inr ((λ old_message, (old_message.(role), old_message.(message)))
             <$> reverse chat_messages)
  end.

Definition format_session_summary (current_summary : str) : list chat_message :=
  if bool_decide (current_summary = []) then []
  else [(#"user", #"Here is the current summary of the session: " ++ current_summary)].

End chat_repository.

(** ** The chat context of the agents ([chat_context/context_manager.py]) *)

Module context_manager.
Import dynamodb_factory.

(** One line of the context: [User: ...] for the role [user],
    [Assistant: ...] for any other item. *)
Definition context_line (i : item) : str :=
  if bool_decide (i.(item_role) = #"user")
  then #"User: " ++ i.(item_message) ++ [Py.LF]
  else #"Assistant: " ++ i.(item_message) ++ [Py.LF].

(** [get_chat_context]: the latest [limit] items of the session, oldest
    first, one line each. *)
Definition get_chat_context (t : table) (session_id : str) (limit : nat) : str :=
  foldl (λ context i, context ++ context_line i) []
    (reverse (ddb_query t session_id false (Some limit))).

Definition build_message_with_context (t : table) (session_id current_message : str)
  : str :=
  let chat_history := get_chat_context t session_id 10 in
  if bool_decide (chat_history = []) then current_message
  else #"Previous conversation:" ++ [Py.LF] ++ chat_history
       ++ #"Current message: " ++ current_message.

End context_manager.

(** ** The turn coordinator ([handlers/main_handler.py]) *)

Module main_handler.
Import dynamodb_factory.

(** The JSON objects pushed to the client. *)
Inductive push :=
| Processing (connection_id : str)
| ErrorResponse (error : str) (connection_id : str)
| ChatContext (session_id user_id : str)
    (chat_messages : list chat_repository.chat_message)
    (has_file_attachment : bool) (connection_id : str)
| StreamEvent (session_id user_input agent_response type : str)
| StreamError (error : str).

(** What a turn does to the outside, in order. *)
Inductive effect :=
| Posted (connection_id : str) (p : push)      (* [post_to_connection] returned *)
| PostRaised (connection_id : str) (p : push)  (* [post_to_connection] raised *)
| PutItem (i : item).                         (* [put_item] on the chat table *)

Record world := World { chat_table : table; trace : list effect }.

Definition is_post (e : effect) : bool :=
  match e with PutItem _ => false | _ => true end.

Inductive agent_module := curriculum | quizzer | reviewer | general.

(** What iterating a generator [agent_module.stream_async(payload)] shows:
    the fragments it yields and the exception that ends it, if any. *)
Record generator := { yields : list str; raises : option exn }.

(** What the collaborators do during one request. *)
Record env := {
  (** whether the [n]-th call of [post_to_connection] returns *)
  post_ok : nat → bool;
  (** whether [ChatRepository.WEBSOCKET_CLIENT] is set *)
  websocket_client : bool;
  (** the clock, as formatted for a session and for a chat turn *)
  now_session : str;
  now_user_chat : str;
  now_agent_chat : str;
  (** the draws of [random.choices] *)
  random : nat → nat;
  (** the environment variable [CONTEXT_WINDOW] *)
  CONTEXT_WINDOW : nat;
  (** the generator each agent module returns for this request *)
  stream_async : agent_module → generator }.

(** [post_to_connection]: recorded in the trace; [inl] when it raised. *)
Definition post_to_connection (E : env) (connection_id : str) (p : push)
    (w : world) : world * (exn + unit) :=
  let attempt := length (filter (λ e, is_post e = true) w.(trace)) in
  if E.(post_ok) attempt
  then (World w.(chat_table) (w.(trace) ++ [Posted connection_id p]), inr ())
  else (World w.(chat_table) (w.(trace) ++ [PostRaised connection_id p]),
        inl (PostFailure attempt)).

(** [ChatRepository.push_to_client]: nothing without a client or a
    connection id; a failure is printed and dropped. *)
Definition push_to_client (E : env) (connection_id : str) (p : push)
    (w : world) : world :=
  if negb E.(websocket_client) || bool_decide (connection_id = []) then w
  else (post_to_connection E connection_id p w).1.

Definition db_put (i : item) (w : world) : world :=
  World (put_item i w.(chat_table)) (w.(trace) ++ [PutItem i]).

Definition get_agent (agent_name : str) : exn + agent_module :=
  if bool_decide (agent_name = #"curriculum") then inr curriculum
  else if bool_decide (agent_name = #"quizzer") then inr quizzer
  else if bool_decide (agent_name = #"reviewer") then inr reviewer
  else if bool_decide (agent_name = #"general") then inr general
  else inl (ValueError (#"Unknown agent: " ++ agent_name)).

(** [chunk_text and chunk_text.strip()] *)
Definition deliverable (chunk_text : str) : bool :=
  negb (bool_decide (chunk_text = []))
  && negb (bool_decide (Py.strip chunk_text = [])).

(** The body of [async for chunk in agent_module.stream_async(payload)]
    over the fragments the generator yields: the world and the
    accumulator after the loop, or the exception a delivery raised. *)
Fixpoint deliver (E : env) (connection_id session_id user_input : str)
    (fragments : list str) (assistant_chunks : list str) (w : world)
  : world * (exn + list str) :=
  match fragments with
  | [] => (w, inr assistant_chunks)
  | chunk_text :: fragments' =>
      if deliverable chunk_text then
        match post_to_connection E connection_id
                (StreamEvent session_id user_input chunk_text #"in_progress") w with
        | (w', inl e) => (w', inl e)
        | (w', inr _) =>
            deliver E connection_id session_id user_input fragments'
              (assistant_chunks ++ [chunk_text]) w'
        end
      else deliver E connection_id session_id user_input fragments'
             assistant_chunks w
  end.

(** The [try] block of [stream_to_client_and_persist]; [user_input] is
    [payload["user_input"]]. *)
Definition stream_body (E : env) (agent : agent_module)
    (connection_id session_id user_id user_input : str) (w : world)
  : world * (exn + str) :=
  let g := E.(stream_async) agent in
  match post_to_connection E connection_id
          (StreamEvent session_id user_input [] #"start_of_message") w with
  | (w1, inl e) => (w1, inl e)
  | (w1, inr _) =>
      match deliver E connection_id session_id user_input g.(yields) [] w1 with
      | (w2, inl e) => (w2, inl e)
      | (w2, inr assistant_chunks) =>
          match g.(raises) with
          | Some e => (w2, inl e)
          | None =>
              match post_to_connection E connection_id
                      (StreamEvent session_id user_input [] #"end_of_message") w2 with
              | (w3, inl e) => (w3, inl e)
              | (w3, inr _) =>
                  let agent_response := Py.join assistant_chunks in
                  let chat_object_agent :=
                    chat_repository.initialize_chat_agent E.(now_agent_chat)
                      user_id agent_response session_id in
                  (db_put (chat_repository.to_item chat_object_agent) w3,
                   inr agent_response)
              end
          end
      end
  end.

(** [stream_to_client_and_persist]: on an exception of the [try] block,
    one attempt to post the error, whose own failure is dropped, then the
    exception is raised again. *)
Definition stream_to_client_and_persist (E : env) (agent : agent_module)
    (connection_id session_id user_id user_input : str) (w : world)
  : world * (exn + str) :=
  match stream_body E agent connection_id session_id user_id user_input w with
  | (w', inr agent_response) => (w', inr agent_response)
  | (w', inl stream_exc) =>
      ((post_to_connection E connection_id (StreamError (exn_str stream_exc)) w').1,
       inl stream_exc)
  end.

(** The inbound event: the parsed JSON body ([None] when [json.loads]
    raises) and the WebSocket request context. *)
Record body := {
  body_agent : option str;
  body_user_id : option str;
  body_user_input : option str;
  body_session_id : option str;
  body_file_input : option file_model.File;
  body_payload : list (str * str) }.

Record event := {
  event_body : option body;
  domainName : option str;
  stage : option str;
  connectionId : option str }.

Inductive response_body :=
| error (msg : str)
| message (msg : str).

Record response := Response { statusCode : Z; response_json : response_body }.

(** The [try] block commented [Session handling]: the response that ends
    the request, or the session id and the session object. *)
Definition session_handling (E : env) (user_id : str) (session_id : option str)
    (connection_id : str) (w : world)
  : world * (response + str * user_session_model.UserSession) :=
  if truthy session_id then
    let session_id := default [] session_id in
    match user_session_repository.get_user_session w.(chat_table) user_id session_id with
    | inl sess_exc =>
        (push_to_client E connection_id
           (ErrorResponse (exn_str sess_exc) connection_id) w,
         inl (Response 500 (error (exn_str sess_exc))))
    | inr None =>
        (push_to_client E connection_id
           (ErrorResponse #"Session not found" connection_id) w,
         inl (Response 404 (error #"Session not found")))
    | inr (Some user_session) => (w, inr (session_id, user_session))
    end
  else
    let session_id := user_session_repository.construct_session_id E.(random) user_id in
    let user_session :=
      user_session_repository.initialize_user_session E.(now_session)
        user_id session_id [] #"New Chat" in
    (db_put (user_session_repository.to_item user_session) w,
     inr (session_id, user_session)).

(** The [try] block commented [Compile chat history]. *)
Definition compile_history (E : env) (b : body) (session_id : str)
    (user_session : user_session_model.UserSession) (w : world)
  : exn + list chat_repository.chat_message :=
  match chat_repository.compile_chat_history w.(chat_table) session_id
          E.(CONTEXT_WINDOW) with
  | inl e => inl e
  | inr recent_messages =>
      if truthy b.(body_session_id)
      then inr (chat_repository.format_session_summary
                  user_session.(user_session_model.session_summary)
                ++ recent_messages)
      else inr recent_messages
  end.

Definition async_handler (E : env) (ev : event) (w : world) : world * response :=
  match ev.(event_body) with
  | None => (w, Response 400 (error #"Invalid JSON format"))
  | Some b =>
  if negb (truthy ev.(connectionId) && truthy ev.(domainName) && truthy ev.(stage))
  then (w, Response 400 (error #"Invalid WebSocket event")) else
  let connection_id := default [] ev.(connectionId) in
  let agent_name := default #"general" b.(body_agent) in
  if negb (truthy b.(body_user_id) && truthy b.(body_user_input)) then
    (push_to_client E connection_id
       (ErrorResponse #"Missing user_id or user_input" connection_id) w,
     Response 400 (error #"Missing user_id or user_input"))
  else
  let user_id := default [] b.(body_user_id) in
  let user_input := default [] b.(body_user_input) in
  let w := push_to_client E connection_id (Processing connection_id) w in
  (* Session handling *)
  match session_handling E user_id b.(body_session_id) connection_id w with
  | (w, inl resp) => (w, resp)
  | (w, inr (session_id, user_session)) =>
  (* Save user message *)
  let chat_object_user :=
    chat_repository.initialize_chat_user E.(now_user_chat)
      user_id user_input session_id b.(body_file_input) in
  let w := db_put (chat_repository.to_item chat_object_user) w in
  let user_session :=
    user_session_model.set_message_count
      (user_session.(user_session_model.message_count) + 1) user_session in
  let w := db_put (user_session_repository.to_item user_session) w in
  (* Compile chat history *)
  match compile_history E b session_id user_session w with
  | inl compile_exc =>
      (push_to_client E connection_id
         (ErrorResponse (exn_str compile_exc) connection_id) w,
       Response 500 (error (exn_str compile_exc)))
  | inr chat_messages =>
  let w := push_to_client E connection_id
             (ChatContext session_id user_id chat_messages
                (bool_decide (is_Some b.(body_file_input))) connection_id) w in
  (* the agent payload: the entries of [payload] are merged last *)
  let payload_user_input := default user_input (Py.dict_get #"user_input" b.(body_payload)) in
  match get_agent agent_name with
  | inl e =>
      (push_to_client E connection_id (ErrorResponse (exn_str e) connection_id) w,
       Response 400 (error (exn_str e)))
  | inr agent_module =>
      match stream_to_client_and_persist E agent_module connection_id
              session_id user_id payload_user_input w with
      | (w, inr _) => (w, Response 200 (message #"OK"))
      | (w, inl e) =>
          (push_to_client E connection_id (ErrorResponse (exn_str e) connection_id) w,
           Response 500 (error (exn_str e)))
      end
  end end end end.

(** The items a turn has written, in order. *)
Definition writes (w : world) : list item :=
  omap (λ e, match e with PutItem i => Some i | _ => None end) w.(trace).

(** A request that fails one of the three checks made before the session
    is resolved. *)
Definition rejected_early (ev : event) : bool :=
  match ev.(event_body) with
  | None => true
  | Some b =>
      negb (truthy ev.(connectionId) && truthy ev.(domainName) && truthy ev.(stage))
      || negb (truthy b.(body_user_id) && truthy b.(body_user_input))
  end.

(** [w'] is [w] after some calls of [post_to_connection]: the table is
    the same and the trace has grown by posts only. *)
Definition posts_only (w w' : world) : Prop :=
  w'.(chat_table) = w.(chat_table) ∧
  ∃ tr, w'.(trace) = w.(trace) ++ tr ∧ Forall (λ x, is_post x = true) tr.

(** [w'] is [w] after some more effects. *)
Definition grows (w w' : world) : Prop := ∃ tr, w'.(trace) = w.(trace) ++ tr.

End main_handler.

(** ** Sample data for the examples *)

Module Samples.
Import TagFilter dynamodb_factory quizzer_agent main_handler.


(** The no-break space U+00A0, the capital and the small e with acute
  accent, and the sharp s. *)
Definition NBSP : char := 160%N.
Definition E_acute : char := 201%N.
Definition e_acute : char := 233%N.
Definition sharp_s : char := 223%N.

(** A request environment in which every delivery succeeds and the general
  agent's generator yields what its tag filter makes of the four model
  fragments [Hi], one space, one no-break space, [there]. *)
Definition calm_env : env :=
{| post_ok := λ _, true;
   websocket_client := true;
   now_session := #"2025-01-01 10:00:00";
   now_user_chat := #"2025-01-01 10:00:00.250";
   now_agent_chat := #"2025-01-01 10:00:03.500";
   random := λ i, 7 * i + 3;
   CONTEXT_WINDOW := 8;
   stream_async := λ _,
     {| yields := default []
          (general_agent.stream_async
             [Data #"Hi"; Data #" "; Data [NBSP]; Data #"there"]);
        raises := None |} |}.

(** A request environment in which the generator yields [Hello] and then
  raises, and every delivery from the third on fails. *)
Definition failing_env : env :=
{| post_ok := λ n, n <? 2;
   websocket_client := true;
   now_session := #"2025-01-01 10:00:00";
   now_user_chat := #"2025-01-01 10:00:00.250";
   now_agent_chat := #"2025-01-01 10:00:03.500";
   random := λ i, 7 * i + 3;
   CONTEXT_WINDOW := 8;
   stream_async := λ _,
     {| yields := [ #"Hello"]; raises := Some (AgentFailure #"read timeout") |} |}.

Definition empty_world : world := World [] [].

(** A chat table that holds one session, of the user [alice], and her
  first turn. *)
Definition alice_session : user_session_model.UserSession :=
user_session_repository.initialize_user_session #"2025-01-01 09:00:00"
  #"alice" #"alice-Ab12Cd34" [] #"New Chat".

Definition alice_table : table :=
chat_repository.save
  (chat_repository.initialize_chat_user #"2025-01-01 09:00:00.120"
     #"alice" #"What is a noun?" #"alice-Ab12Cd34" None)
  (user_session_repository.save alice_session []).

(** The same table after the assistant's reply to that turn. *)
Definition alice_replied_table : table :=
chat_repository.save
  (chat_repository.initialize_chat_agent #"2025-01-01 09:00:02.480"
     #"alice" #"A noun names a thing." #"alice-Ab12Cd34")
  alice_table.

Definition request (user_id : str) (session_id : option str) : event :=
{| event_body := Some {| body_agent := None;
                         body_user_id := Some user_id;
                         body_user_input := Some #"hello";
                         body_session_id := session_id;
                         body_file_input := None;
                         body_payload := [] |};
   domainName := Some #"ws.example.org";
   stage := Some #"prod";
   connectionId := Some #"c1" |}.

Definition no_quiz : quiz_db := {| quiz_table := ∅; session_table := ∅ |}.

(** A quiz of three questions, just created. *)
Definition fresh_quiz : quiz_db :=
db_create_session #"2025-01-01 11:00:00" #"s1" 3 #"fractions" 5 no_quiz.

Definition abcd : list (str * str) :=
[(#"A", #"one half"); (#"B", #"one third"); (#"C", #"two"); (#"D", #"ten")].

(** The student answers question [q_index], whose correct label is [A]. *)
Definition answer (q_index : Z) (user_answer : str) (db : quiz_db)
: quiz_db * (exn + evaluation) :=
evaluate_answer #"2025-01-01 11:01:00" #"2025-01-01 11:01:01" db
  #"s1" q_index #"Which is 1/2?" abcd #"A" user_answer.

(** Two questions as the model returns them, the second without an
    explanation; and a clock that stands still. *)
Definition two_questions : list quiz_input :=
  [ {| in_question := Some #"Which is 1/2?"; in_options := Some abcd;
       in_correct := Some #"A"; in_explanation := Some #"One of two parts." |};
    {| in_question := Some #"Which is 1/3?"; in_options := Some abcd;
       in_correct := Some #"B"; in_explanation := None |} ].

Definition still_clock : nat → str := λ _, #"2025-01-01 10:59:59".

(** A request environment in which every delivery succeeds and the
    generator yields [Hello] and then raises. *)
Definition timeout_env : env :=
{| post_ok := λ _, true;
   websocket_client := true;
   now_session := #"2025-01-01 10:00:00";
   now_user_chat := #"2025-01-01 10:00:00.250";
   now_agent_chat := #"2025-01-01 10:00:03.500";
   random := λ i, 7 * i + 3;
   CONTEXT_WINDOW := 8;
   stream_async := λ _,
     {| yields := [ #"Hello"]; raises := Some (AgentFailure #"read timeout") |} |}.

End Samples.

(** ** Facts about the text operations *)

Module PyFacts.
Import Py.

Lemma starts_with_take t s : starts_with t s = true ↔ take (length t) s = t.
Proof.
  revert s. induction t as [|a t IH]; intros [|b s]; simpl; try done.
  rewrite andb_true_iff, bool_decide_eq_true, IH. split.
  - intros [-> ->]. done.
  - intros [= -> ->]. done.
Qed.

Lemma occ_length t s p : t ≠ [] → occ t s p → p + length t ≤ length s.
Proof.
  intros Ht H%starts_with_take. apply (f_equal length) in H.
  rewrite length_take, length_drop in H.
  destruct t; [done|]. rewrite length_cons in *. lia.
Qed.

Lemma occ_drop t s n q : occ t (drop n s) q ↔ occ t s (n + q).
Proof. unfold occ. by rewrite drop_drop. Qed.

Lemma occ_app_l t s r p : p + length t ≤ length s → occ t (s ++ r) p ↔ occ t s p.
Proof.
  intros Hp. unfold occ. rewrite !starts_with_take.
  rewrite drop_app_le by lia.
  rewrite take_app_le; [done|]. rewrite length_drop. lia.
Qed.

Lemma occ_app_r t x y q : occ t (x ++ y) (length x + q) ↔ occ t y q.
Proof. unfold occ. by rewrite drop_app_add. Qed.


Lemma find_Some t s k :
  find t s = Some k ↔ occ t s k ∧ ∀ p, p < k → ¬ occ t s p.
Proof.
  unfold occ. revert k. induction s as [|a s IH]; intros k.
  - simpl. destruct (starts_with t []) eqn:E.
    + split.
      * intros [= <-]. split; [done|]. lia.
      * intros [_ H]. destruct k; [done|]. destruct (H 0); [lia|done].
    + split; [done|]. intros [H _]. by rewrite drop_nil, E in H.
  - cbn [find]. destruct (starts_with t (a :: s)) eqn:E.
    + split.
      * intros [= <-]. split; [done|]. lia.
      * intros [_ H]. destruct k; [done|]. destruct (H 0); [lia|done].
    + destruct (find t s) as [k'|]; simpl.
      * split.
        -- intros [= <-]. destruct (proj1 (IH k') eq_refl) as [F1 F2].
           split; [done|].
           intros [|p] Hp; simpl; [by rewrite E|]. apply F2. lia.
        -- intros [H1 H2]. destruct k as [|k]; [simpl in H1; congruence|].
           assert (Some k' = Some k) as [= ->]; [|done].
           apply IH. split; [done|].
           intros p Hp. apply (H2 (S p)). lia.
      * split; [done|]. intros [H1 H2].
        destruct k as [|k]; [simpl in H1; congruence|].
        assert (None = Some k) as F'; [|congruence].
        apply IH. split; [done|]. intros p Hp. apply (H2 (S p)). lia.
Qed.

Lemma find_None t s : find t s = None ↔ ∀ p, ¬ occ t s p.
Proof.
  unfold occ. induction s as [|a s IH].
  - simpl. destruct (starts_with t []) eqn:E.
    + split; [done|]. intros H. destruct (H 0). done.
    + split; [|done]. intros _ p. rewrite drop_nil. congruence.
  - cbn [find]. destruct (starts_with t (a :: s)) eqn:E.
    + split; [done|]. intros H. destruct (H 0). done.
    + destruct (find t s) as [k'|]; simpl.
      * split; [done|]. intros H. exfalso.
        assert (Some k' = None) as F'; [|congruence].
        apply IH. intros p. apply (H (S p)).
      * split; [|done]. intros _ [|p]; simpl; [congruence|].
        by apply IH.
Qed.


Lemma find_app_Some t s r k :
  t ≠ [] → find t s = Some k → find t (s ++ r) = Some k.
Proof.
  intros Ht [F1 F2]%find_Some. pose proof (occ_length _ _ _ Ht F1).
  apply find_Some. split.
  - apply occ_app_l; [lia|done].
  - intros p Hp. rewrite occ_app_l by lia. by apply F2.
Qed.

Lemma find_drop_None t s n : find t s = None → find t (drop n s) = None.
Proof.
  rewrite !find_None. intros H p. rewrite occ_drop. apply H.
Qed.

Lemma elem_of_occurrences t s p :
  p ∈ occurrences t s ↔ p ≤ length s ∧ occ t s p.
Proof.
  unfold occurrences, occ. rewrite list_elem_of_filter, elem_of_seq.
  split; intros [? ?]; split; try done; lia.
Qed.

Lemma occurrences_nil t s : t ≠ [] → occurrences t s = [] ↔ find t s = None.
Proof.
  intros Ht. rewrite find_None. split.
  - intros H p Hp. pose proof (occ_length _ _ _ Ht Hp).
    assert (p ∈ occurrences t s) as Hin by (apply elem_of_occurrences; split; [lia|done]).
    rewrite H in Hin. by apply not_elem_of_nil in Hin.
  - intros H. apply elem_of_nil_inv. intros p [_ Hp]%elem_of_occurrences.
    by apply (H p).
Qed.


Lemma lower_app s r : lower (s ++ r) = lower s ++ lower r.
Proof. apply bind_app. Qed.

Lemma lower_char_ne c : lower_char c ≠ [].
Proof. unfold lower_char. by repeat case_match. Qed.

Lemma lower_nil s : lower s = [] → s = [].
Proof.
  destruct s as [|c s]; [done|]. unfold lower. rewrite bind_cons.
  intros [H _]%app_eq_nil. by apply lower_char_ne in H.
Qed.







(** A text whose lower case holds no occurrence of [t] has none in the
    lower case of its parts. *)
Lemma find_lower_prefix_None t a b :
  t ≠ [] → find t (lower (a ++ b)) = None → find t (lower a) = None.
Proof.
  intros Ht H. rewrite lower_app in H.
  destruct (find t (lower a)) as [k|] eqn:F; [|done].
  apply (find_app_Some _ _ (lower b)) in F; [congruence|done].
Qed.

Lemma find_lower_suffix_None t a b :
  find t (lower (a ++ b)) = None → find t (lower b) = None.
Proof.
  intros H. rewrite lower_app in H.
  apply (find_drop_None _ _ (length (lower a))) in H.
  by rewrite drop_app_length in H.
Qed.

Lemma find_lower_Some_ne t s k : t ≠ [] → find t (lower s) = Some k → s ≠ [].
Proof.
  intros Ht [H _]%find_Some ->. apply occ_length in H; [|done].
  destruct t; [done|]. simpl in H. lia.
Qed.

End PyFacts.

(** ** Facts about the streaming tag filter *)

Module TagFilterFacts.
Import Py PyFacts TagFilter.

Local Arguments Nat.min : simpl never.
Local Arguments Nat.sub : simpl never.
Local Arguments Nat.ltb : simpl never.



Lemma open_tag_ne : open_tag ≠ [].
Proof. discriminate. Qed.

Lemma close_tag_ne : close_tag ≠ [].
Proof. discriminate. Qed.

Lemma last_n_split i s : take (length s - i) s ++ last_n i s = s.
Proof. apply take_drop. Qed.

Lemma last_n_length i s : i ≤ length s → length (last_n i s) = i.
Proof. intros H. unfold last_n. rewrite length_drop. lia. Qed.

Lemma partial_tag_Some tag buf n i :
  partial_tag tag buf n = Some i →
  1 ≤ i ≤ n ∧ lower (last_n i buf) = take i tag ∧
  ∀ j, i < j ≤ n → lower (last_n j buf) ≠ take j tag.
Proof.
  induction n as [|n IH]; simpl; [done|].
  case_bool_decide as E.
  - intros [= <-]. split; [lia|]. split; [done|]. lia.
  - intros [Hi [He Hj]]%IH. split; [lia|]. split; [done|].
    intros j Hj'. destruct (decide (j = S n)) as [->|]; [done|].
    apply Hj. lia.
Qed.


(** *** On every text *)

(** The loop ends: each turn that finds a tag shortens the buffer. *)
Lemma scan_total emit fuel st :
  length st.(buffer) < fuel → is_Some (scan emit fuel st).
Proof.
  revert st. induction fuel as [|fuel IH]; intros [buf ins] Hlen; simpl in *; [lia|].
  destruct ins; simpl.
  - destruct (find close_tag (lower buf)) as [k|] eqn:F; [|done].
    apply IH. simpl. rewrite length_drop.
    apply find_lower_Some_ne in F; [|apply close_tag_ne].
    destruct buf; [done|]. simpl in *. lia.
  - destruct (find open_tag (lower buf)) as [k|] eqn:F.
    + destruct (IH (State (drop (k + 10) buf) true)) as [[o s] ->]; [|done].
      simpl. rewrite length_drop.
      apply find_lower_Some_ne in F; [|apply open_tag_ne].
      destruct buf; [done|]. simpl in *. lia.
    + by case_match.
Qed.

(** The generators differ from the plain one only in the fragments. *)
Lemma scan_emit emit fuel st :
  scan emit fuel st
  = (λ r : list str * state, (emit <$> r.1, r.2)) <$> scan id fuel st.
Proof.
  revert st. induction fuel as [|fuel IH]; intros [buf ins]; simpl; [done|].
  destruct ins; simpl.
  - by case_match.
  - case_match.
    + rewrite IH. destruct (scan id fuel _) as [[o s]|]; simpl; [|done].
      rewrite fmap_app. by case_match.
    + by case_match.
Qed.

Lemma partial_open_tag_lt buf i :
  find open_tag (lower buf) = None →
  partial_tag open_tag buf (10 `min` length buf) = Some i → i ≤ 9.
Proof.
  intros Hf (Hi & He & _)%partial_tag_Some.
  destruct (decide (i = 10)) as [->|]; [|lia]. exfalso.
  rewrite <- (last_n_split 10 buf), lower_app in Hf.
  apply (proj1 (find_None _ _) Hf (length (lower (take (length buf - 10) buf)) + 0)).
  apply occ_app_r. unfold occ. rewrite He. reflexivity.
Qed.

Lemma partial_close_tag_le buf i :
  partial_tag close_tag buf (11 `min` length buf) = Some i → i ≤ 11.
Proof. intros (Hi & _)%partial_tag_Some. lia. Qed.

Lemma scan_bounded emit fuel st outs st' :
  scan emit fuel st = Some (outs, st') → bounded st'.
Proof.
  revert st outs. induction fuel as [|fuel IH]; intros [buf ins] outs; simpl; [done|].
  destruct ins; simpl.
  - destruct (find close_tag (lower buf)) as [k|] eqn:F; [by apply IH|].
    intros [= <- <-]. unfold bounded; simpl.
    destruct (11 <? length buf) eqn:Hlen.
    + apply Nat.ltb_lt in Hlen.
      destruct (partial_tag _ _ _) as [i|] eqn:E.
      * apply partial_close_tag_le in E. rewrite last_n_length; lia.
      * rewrite last_n_length; lia.
    + apply Nat.ltb_ge in Hlen. lia.
  - destruct (find open_tag (lower buf)) as [k|] eqn:F.
    + destruct (scan emit fuel _) as [[outs1 st1]|] eqn:Hs; simpl; [|done].
      intros [= <- <-]. by eapply IH.
    + destruct (partial_tag _ _ _) as [i|] eqn:E.
      * pose proof (partial_open_tag_lt _ _ F E).
        apply partial_tag_Some in E as (Hi & _).
        destruct (0 <? _) eqn:E0; intros [= <- <-]; unfold bounded; simpl.
        -- rewrite length_drop. lia.
        -- apply Nat.ltb_ge in E0. lia.
      * destruct (0 <? _) eqn:E0; intros [= <- <-]; unfold bounded; simpl.
        -- rewrite length_drop. lia.
        -- apply Nat.ltb_ge in E0. lia.
Qed.

(** What is yielded and what is kept are, in this order, parts of the
    buffer: the loop adds and reorders nothing. *)
Lemma scan_sublist fuel st outs st' :
  scan id fuel st = Some (outs, st') →
  concat outs ++ st'.(buffer) `sublist_of` st.(buffer).
Proof.
  revert st outs. induction fuel as [|fuel IH]; intros [buf ins] outs; simpl; [done|].
  destruct ins; simpl.
  - destruct (find close_tag (lower buf)) as [k|] eqn:F.
    + intros H%IH. etrans; [exact H|]. apply sublist_drop.
    + intros [= <- <-]. simpl. unfold last_n.
      repeat case_match; try done; apply sublist_drop.
  - destruct (find open_tag (lower buf)) as [k|] eqn:F.
    + destruct (scan id fuel _) as [[outs1 st1]|] eqn:Hs; simpl; [|done].
      intros [= <- <-]. apply IH in Hs. simpl in Hs.
      rewrite concat_app, <- app_assoc.
      trans (take k buf ++ drop k buf); [|by rewrite take_drop].
      apply sublist_app.
      * case_match; simpl; [by rewrite app_nil_r|apply sublist_nil_l].
      * etrans; [exact Hs|]. rewrite <- (drop_drop buf 10 k). apply sublist_drop.
    + destruct (0 <? _) eqn:E0; intros [= <- <-]; simpl; [|done].
      by rewrite app_nil_r, take_drop.
Qed.



(** Without an open tag in sight the loop yields or keeps all of the
    buffer and stays outside. *)
Lemma scan_pass fuel buf outs st' :
  find open_tag (lower buf) = None →
  scan id fuel (State buf false) = Some (outs, st') →
  st'.(inside_thinking) = false ∧ concat outs ++ st'.(buffer) = buf.
Proof.
  intros Hf. destruct fuel as [|fuel]; simpl; [done|]. rewrite Hf.
  destruct (0 <? _) eqn:E0; intros [= <- <-]; simpl; [|done].
  by rewrite app_nil_r, take_drop.
Qed.

(** *** On a text without U+0130

    In such a text an index found in the lower case is the index of the
    same character in the text, and the generators compute [strips]. *)








Local Arguments scan : simpl never.

Lemma feed_bounded emit chunks st outs st' :
  bounded st → feed emit chunks st = Some (outs, st') → bounded st'.
Proof.
  revert st outs. induction chunks as [|[d|] chunks IH]; intros st outs Hb; simpl.
  - by intros [= <- <-].
  - destruct (scan emit _ _) as [[o1 s1]|] eqn:Hscan; simpl; [|done].
    destruct (feed emit chunks s1) as [[o2 s2]|] eqn:Hfeed; simpl; [|done].
    intros [= <- <-]. eapply IH; [|done]. by eapply scan_bounded.
  - by apply IH.
Qed.

Lemma feed_emit emit chunks st :
  feed emit chunks st
  = (λ r : list str * state, (emit <$> r.1, r.2)) <$> feed id chunks st.
Proof.
  revert st. induction chunks as [|[d|] chunks IH]; intros st; simpl; [done| |done].
  rewrite scan_emit. destruct (scan id _ _) as [[o1 s1]|]; simpl; [|done].
  rewrite IH. destruct (feed id chunks s1) as [[o2 s2]|]; simpl; [|done].
  by rewrite fmap_app.
Qed.

Lemma feed_total emit chunks st : is_Some (feed emit chunks st).
Proof.
  revert st. induction chunks as [|[d|] chunks IH]; intros st; simpl; [done| |done].
  destruct (scan_total emit (S (length (buffer st ++ d)))
              (State (buffer st ++ d) (inside_thinking st))) as [[o1 s1] ->];
    [simpl; lia|].
  simpl. destruct (IH s1) as [[o2 s2] ->]. done.
Qed.

Lemma feed_sublist chunks st outs st' :
  feed id chunks st = Some (outs, st') →
  concat outs ++ st'.(buffer) `sublist_of` st.(buffer) ++ input_text chunks.
Proof.
  revert st outs. induction chunks as [|[d|] chunks IH]; intros st outs; simpl.
  - intros [= <- <-]. by rewrite app_nil_r.
  - destruct (scan id _ _) as [[o1 s1]|] eqn:Hscan; simpl; [|done].
    destruct (feed id chunks s1) as [[o2 s2]|] eqn:Hfeed; simpl; [|done].
    intros [= <- <-]. apply scan_sublist in Hscan. apply IH in Hfeed. simpl in *.
    rewrite concat_app, <- app_assoc. etrans.
    { apply sublist_app; [reflexivity|exact Hfeed]. }
    rewrite !app_assoc. by apply sublist_app.
  - apply IH.
Qed.


Lemma feed_pass chunks st outs st' :
  st.(inside_thinking) = false →
  find open_tag (lower (st.(buffer) ++ input_text chunks)) = None →
  feed id chunks st = Some (outs, st') →
  st'.(inside_thinking) = false
  ∧ concat outs ++ st'.(buffer) = st.(buffer) ++ input_text chunks.
Proof.
  revert st outs. induction chunks as [|[d|] chunks IH]; intros [buf ins] outs; simpl.
  - intros -> _ [= <- <-]. by rewrite app_nil_r.
  - intros -> Hf.
    destruct (scan id _ _) as [[o1 s1]|] eqn:Hscan; simpl; [|done].
    destruct (feed id chunks s1) as [[o2 s2]|] eqn:Hfeed; simpl; [|done].
    intros [= <- <-]. rewrite app_assoc in Hf.
    apply scan_pass in Hscan as [Hi1 Ho1];
      [|by eapply find_lower_prefix_None; [apply open_tag_ne|]].
    apply IH in Hfeed as [Hi2 Ho2]; [| done |].
    + split; [done|]. by rewrite concat_app, <- app_assoc, Ho2, !app_assoc, Ho1.
    + rewrite <- Ho1, <- app_assoc in Hf. by apply find_lower_suffix_None in Hf.
  - exact (IH (State buf ins) outs).
Qed.

Lemma flush_emit emit st : flush emit st = emit <$> flush id st.
Proof. unfold flush. by case_match. Qed.

Lemma stream_filter_emit emit chunks :
  stream_filter emit chunks
  = (λ outs : list str, emit <$> outs) <$> stream_filter id chunks.
Proof.
  unfold stream_filter. rewrite feed_emit.
  destruct (feed id chunks initial) as [[outs st]|]; simpl; [|done].
  by rewrite fmap_app, flush_emit.
Qed.

Lemma stream_filter_total chunks : is_Some (stream_filter id chunks).
Proof.
  unfold stream_filter.
  by destruct (feed_total id chunks initial) as [[outs st] ->].
Qed.

Lemma concat_fmap_bind (f : char → str) (outs : list str) :
  concat ((λ s, s ≫= f) <$> outs) = concat outs ≫= f.
Proof.
  induction outs as [|o outs IH]; [done|].
  rewrite fmap_cons. cbn [concat]. by rewrite IH, bind_app.
Qed.

(** The plain generator passes a text without an open tag through. *)
Lemma stream_filter_pass chunks :
  find open_tag (lower (input_text chunks)) = None →
  ∃ outs, stream_filter id chunks = Some outs
          ∧ concat outs = input_text chunks.
Proof.
  intros Hf. unfold stream_filter.
  destruct (feed_total id chunks initial) as [[outs st] Hfeed].
  rewrite Hfeed. simpl. eexists. split; [done|].
  apply feed_pass in Hfeed as [Hi Ho]; [|done..]. simpl in Ho.
  rewrite concat_app, <- Ho. f_equal. unfold flush. rewrite Hi.
  rewrite andb_true_r. case_bool_decide as E; simpl; [by rewrite E|].
  by rewrite app_nil_r.
Qed.

(** The output of the plain generator is a subsequence of its input. *)
Lemma stream_filter_sublist chunks outs :
  stream_filter id chunks = Some outs →
  concat outs `sublist_of` input_text chunks.
Proof.
  unfold stream_filter.
  destruct (feed id chunks initial) as [[o st]|] eqn:Hfeed; simpl; [|done].
  intros [= <-]. apply feed_sublist in Hfeed. simpl in Hfeed.
  etrans; [|exact Hfeed]. rewrite concat_app. apply sublist_app; [done|].
  unfold flush. case_match; simpl; [by rewrite app_nil_r|apply sublist_nil_l].
Qed.


(** *** On a text without U+0130, continued *)







End TagFilterFacts.

(** ** Facts about the turn coordinator *)

Module HandlerFacts.
Import dynamodb_factory main_handler.

Lemma posts_only_refl w : posts_only w w.
Proof. split; [done|]. exists []. by rewrite app_nil_r. Qed.

Lemma posts_only_trans w1 w2 w3 :
  posts_only w1 w2 → posts_only w2 w3 → posts_only w1 w3.
Proof.
  intros [Ht1 (tr1 & E1 & F1)] [Ht2 (tr2 & E2 & F2)]. split; [congruence|].
  exists (tr1 ++ tr2). rewrite E2, E1, app_assoc. split; [done|].
  by apply Forall_app.
Qed.

Lemma post_cases E conn p w :
  post_to_connection E conn p w
  = (World w.(chat_table) (w.(trace) ++ [Posted conn p]), inr ())
  ∨ ∃ n, post_to_connection E conn p w
         = (World w.(chat_table) (w.(trace) ++ [PostRaised conn p]),
            inl (PostFailure n)).
Proof.
  unfold post_to_connection. destruct (post_ok E _); [by left|].
  right. by eexists.
Qed.

Lemma post_posts_only E conn p w : posts_only w (post_to_connection E conn p w).1.
Proof.
  destruct (post_cases E conn p w) as [->|[n ->]]; simpl;
    (split; [done|]); eexists; (split; [done|]); by repeat constructor.
Qed.

Lemma post_returned E conn p w w' u :
  post_to_connection E conn p w = (w', inr u) →
  w' = World w.(chat_table) (w.(trace) ++ [Posted conn p]).
Proof.
  destruct (post_cases E conn p w) as [->|[n ->]]; by intros [= <-].
Qed.

Lemma deliver_posts_only E conn sid uin frags acc w :
  posts_only w (deliver E conn sid uin frags acc w).1.
Proof.
  revert acc w. induction frags as [|f frags IH]; intros acc w; simpl.
  - apply posts_only_refl.
  - destruct (deliverable f); [|apply IH].
    pose proof (post_posts_only E conn (StreamEvent sid uin f #"in_progress") w) as Hp.
    destruct (post_to_connection _ _ _ _) as [w' [e|[]]]; simpl in *; [done|].
    eapply posts_only_trans; [done|]. apply IH.
Qed.

Lemma deliver_returned E conn sid uin frags acc w w' acc' :
  deliver E conn sid uin frags acc w = (w', inr acc') →
  let delivered := filter (λ f, deliverable f = true) frags in
  acc' = acc ++ delivered ∧
  w' = World w.(chat_table)
         (w.(trace) ++
          ((λ f, Posted conn (StreamEvent sid uin f #"in_progress")) <$> delivered)).
Proof.
  revert acc w. induction frags as [|f frags IH]; intros acc w; simpl.
  - intros [= <- <-]. rewrite !app_nil_r. by destruct w.
  - rewrite filter_cons. destruct (deliverable f) eqn:Hd.
    + rewrite decide_True by done.
      destruct (post_to_connection _ _ _ _) as [w1 [e|[]]] eqn:Hp; [done|].
      apply post_returned in Hp as ->.
      intros [-> ->]%IH. simpl. by rewrite <- !app_assoc.
    + rewrite decide_False by (by destruct (deliverable f)).
      apply IH.
Qed.

Lemma handled_turn_grows E agent conn sid uid uin w w' r :
  stream_to_client_and_persist E agent conn sid uid uin w = (w', inr r) →
  ∃ tr, w'.(trace) = w.(trace) ++ tr.
Proof.
  unfold stream_to_client_and_persist, stream_body.
  destruct (post_to_connection _ _ _ w) as [wa [?|[]]] eqn:H1; [done|].
  apply post_returned in H1 as ->.
  destruct (deliver _ _ _ _ _ _ _) as [wb [?|acc]] eqn:H2; [done|].
  apply deliver_returned in H2 as [-> ->]. simpl.
  destruct (raises _); [done|].
  destruct (post_to_connection _ _ _ _) as [wc [?|[]]] eqn:H3; [done|].
  apply post_returned in H3 as ->.
  intros [= <- <-]. simpl. rewrite <- !app_assoc. by eexists.
Qed.

Lemma stream_body_raised E agent conn sid uid uin w w1 e :
  stream_body E agent conn sid uid uin w = (w1, inl e) → posts_only w w1.
Proof.
  unfold stream_body.
  pose proof (post_posts_only E conn (StreamEvent sid uin [] #"start_of_message") w) as H1.
  destruct (post_to_connection _ _ _ w) as [wa [?|[]]]; simpl in *; [by intros [= <- <-]|].
  pose proof (deliver_posts_only E conn sid uin (yields (stream_async E agent)) [] wa) as H2.
  destruct (deliver _ _ _ _ _ _ _) as [wb [?|acc]]; simpl in *.
  { intros [= <- <-]. by eapply posts_only_trans. }
  destruct (raises _).
  { intros [= <- <-]. by eapply posts_only_trans. }
  pose proof (post_posts_only E conn (StreamEvent sid uin [] #"end_of_message") wb) as H3.
  destruct (post_to_connection _ _ _ wb) as [wc [?|[]]]; simpl in *; [|done].
  intros [= <- <-]. eapply posts_only_trans; [done|]. by eapply posts_only_trans.
Qed.

Lemma grows_refl w : grows w w.
Proof. exists []. by rewrite app_nil_r. Qed.

Lemma grows_trans w1 w2 w3 : grows w1 w2 → grows w2 w3 → grows w1 w3.
Proof.
  intros [tr1 E1] [tr2 E2]. exists (tr1 ++ tr2). by rewrite E2, E1, app_assoc.
Qed.

Lemma posts_only_grows w w' : posts_only w w' → grows w w'.
Proof. intros [_ (tr & Htr & _)]. by exists tr. Qed.

Lemma push_posts_only E conn p w : posts_only w (push_to_client E conn p w).
Proof.
  unfold push_to_client. case_match; [apply posts_only_refl|apply post_posts_only].
Qed.

Lemma push_grows E conn p w : grows w (push_to_client E conn p w).
Proof. apply posts_only_grows, push_posts_only. Qed.

Lemma db_put_grows i w : grows w (db_put i w).
Proof. by eexists. Qed.

(** Chains of pushes and writes grow the trace. *)
Ltac grow :=
  repeat first
    [ apply grows_refl
    | (eapply grows_trans; [|apply push_grows])
    | (eapply grows_trans; [|apply db_put_grows]) ].

Lemma stream_grows E agent conn sid uid uin w :
  grows w (stream_to_client_and_persist E agent conn sid uid uin w).1.
Proof.
  unfold stream_to_client_and_persist.
  destruct (stream_body _ _ _ _ _ _ _) as [w1 [e|r]] eqn:Hb; simpl.
  - apply stream_body_raised in Hb.
    eapply grows_trans; [by apply posts_only_grows|].
    apply posts_only_grows, post_posts_only.
  - pose proof (handled_turn_grows E agent conn sid uid uin w) as H.
    unfold stream_to_client_and_persist in H. rewrite Hb in H.
    destruct (H _ _ eq_refl) as [tr Htr]. by exists tr.
Qed.

Lemma choices_length random population k :
  length (user_session_repository.choices random population k) = k.
Proof.
  unfold user_session_repository.choices. by rewrite length_fmap, length_seq.
Qed.

Lemma choices_from random population k (P : char → Prop) :
  population ≠ [] → Forall P population →
  Forall P (user_session_repository.choices random population k).
Proof.
  intros Hne HP. unfold user_session_repository.choices.
  apply Forall_fmap, Forall_forall. intros i _. simpl.
  rewrite Forall_forall in HP. apply HP, list_elem_of_In, nth_In.
  apply Nat.mod_upper_bound. by destruct population.
Qed.

Lemma alphabet_alnum :
  Forall (λ c, Py.is_alnum c = true)
    (user_session_repository.ascii_letters ++ user_session_repository.digits).
Proof. by apply Forall_forall, Forall_forall; repeat constructor. Qed.

End HandlerFacts.

(** ** The streaming tag filter: results *)

Import Py TagFilter Samples.


(** C1.  The claim fails on a text that holds U+0130 before the span.  The
    generators look for a tag in [buffer.lower()], in which U+0130 takes
    two characters, and cut [buffer] at the index found there: on the one
    fragment U+0130 [<thinking>x</thinking>y], whose only span starts at
    index 1, the tag is found at index 2 and the general and the curriculum
    generator yield U+0130 [<] and then [y].  The first character of the
    open tag is let through, where the claim has U+0130 [y]. *)
Theorem dotted_I_shifts_the_cut :
  occurrences open_tag (dotted_I :: #"<thinking>x</thinking>y") = [1]
  ∧ occurrences open_tag (lower (dotted_I :: #"<thinking>x</thinking>y")) = [2]
  ∧ general_agent.stream_async [Data (dotted_I :: #"<thinking>x</thinking>y")]
    = Some [dotted_I :: #"<"; #"y"]
  ∧ curriculum_agent.stream_async [Data (dotted_I :: #"<thinking>x</thinking>y")]
    = Some [dotted_I :: #"<"; #"y"]
  ∧ join <$> general_agent.stream_async
               [Data (dotted_I :: #"<thinking>x</thinking>y")]
    ≠ Some (dotted_I :: #"y").
Proof. repeat split; try (vm_compute; reflexivity). vm_compute. discriminate. Qed.

(** C2, as the code has it.  When the input text holds no occurrence of the
    open tag (in any letter case), the general and the curriculum generator
    yield, put together, exactly the input text, and the quizzer generator
    yields the input text with every line feed replaced by [<br>]. *)
Theorem no_open_tag_passes_through (chunks : list chunk) :
  occurrences open_tag (lower (input_text chunks)) = [] →
  join <$> general_agent.stream_async chunks = Some (input_text chunks)
  ∧ join <$> curriculum_agent.stream_async chunks = Some (input_text chunks)
  ∧ join <$> quizzer_agent.stream_async chunks
    = Some (quizzer_agent.br (input_text chunks)).
Proof.
  intros Hocc%PyFacts.occurrences_nil; [|done].
  destruct (TagFilterFacts.stream_filter_pass chunks Hocc) as (outs & Hrun & Hs).
  unfold general_agent.stream_async, curriculum_agent.stream_async,
    quizzer_agent.stream_async.
  rewrite (TagFilterFacts.stream_filter_emit quizzer_agent.br), Hrun.
  simpl. unfold join. rewrite Hs. repeat split.
  unfold quizzer_agent.br, replace_char.
  by rewrite TagFilterFacts.concat_fmap_bind, Hs.
Qed.

Lemma no_open_tag_passes_through_plain :
  join <$> general_agent.stream_async [Data #"<thi"; Event; Data #"nk> ok"]
  = Some #"<think> ok"
  ∧ join <$> curriculum_agent.stream_async [Data #"<thi"; Event; Data #"nk> ok"]
    = Some #"<think> ok"
  ∧ join <$> quizzer_agent.stream_async [Data #"<thi"; Event; Data #"nk> ok"]
    = Some #"<think> ok".
Proof.
  exact (no_open_tag_passes_through
           [Data #"<thi"; Event; Data #"nk> ok"] eq_refl).
Defined.

(** C2 as stated fails for the quizzer generator: on the one fragment
    [a], line feed, [b], which holds no open tag, it yields [a<br>b]. *)
Lemma quizzer_rewrites_line_feeds :
  occurrences open_tag (lower (input_text [Data (#"a" ++ [LF] ++ #"b")])) = []
  ∧ join <$> quizzer_agent.stream_async [Data (#"a" ++ [LF] ++ #"b")]
    = Some #"a<br>b"
  ∧ join <$> quizzer_agent.stream_async [Data (#"a" ++ [LF] ++ #"b")]
    ≠ Some (input_text [Data (#"a" ++ [LF] ++ #"b")]).
Proof. repeat split. discriminate. Qed.

(** C4.  The claim fails on a text that holds U+0130 before the open tag,
    by the cut of C1: on the one fragment U+0130 [<thinking>oops], whose
    open tag at index 1 is never closed, the general generator returns
    normally but yields U+0130 [<], the text before the tag and the first
    character of the tag, where the claim has U+0130 alone. *)
Theorem dotted_I_leaks_tag_start :
  find open_tag (dotted_I :: #"<thinking>oops") = Some 1
  ∧ find close_tag (lower (dotted_I :: #"<thinking>oops")) = None
  ∧ general_agent.stream_async [Data (dotted_I :: #"<thinking>oops")]
    = Some [dotted_I :: #"<"]
  ∧ join <$> general_agent.stream_async [Data (dotted_I :: #"<thinking>oops")]
    ≠ Some [dotted_I].
Proof. repeat split; try (vm_compute; reflexivity). vm_compute. discriminate. Qed.

(** C5, as the code has it.  After any sequence of model events a generator
    is waiting for the next one in a state whose buffer holds at most 9
    characters outside a thinking span and at most 11 characters inside
    one. *)
Theorem pending_buffer_bound (emit : str → str) (chunks : list chunk) :
  ∃ outs st,
    feed emit chunks initial = Some (outs, st)
    ∧ length st.(buffer) ≤ (if st.(inside_thinking) then 11 else 9).
Proof.
  destruct (TagFilterFacts.feed_total emit chunks initial) as [[outs st] H].
  exists outs, st. split; [done|].
  eapply TagFilterFacts.feed_bounded in H; [done|].
  unfold bounded. simpl. lia.
Qed.

Lemma pending_partial_open_tag :
  feed id [Data #"so <thin"] initial = Some ([ #"so "], State #"<thin" false).
Proof. reflexivity. Qed.

(** C5 as stated fails inside a thinking span: after the fragments
    [<thinking>] and [abcdefghijk] the generator waits with 11 characters
    in its buffer. *)
Lemma inside_buffer_holds_eleven :
  feed id [Data #"<thinking>"; Data #"abcdefghijk"] initial
  = Some ([], State #"abcdefghijk" true)
  ∧ ¬ length #"abcdefghijk" ≤ 10.
Proof. split; [reflexivity|]. simpl. lia. Qed.

(** ** The turn coordinator: results *)

Import dynamodb_factory main_handler.

(** C3, as the code has it.  A turn that [stream_to_client_and_persist]
    handles to the end posts [start_of_message], then one [in_progress]
    event, in stream order, for every fragment that is not empty and not
    all white space, each such fragment also going to the accumulator, then
    [end_of_message]; after that it writes the accumulated text once, as a
    chat item of role [assistant], and returns it. *)
Theorem turn_events (E : env) (agent : agent_module)
    (connection_id session_id user_id user_input : str) (w w' : world)
    (agent_response : str) :
  stream_to_client_and_persist E agent connection_id session_id user_id user_input w
  = (w', inr agent_response) →
  let delivered :=
    filter (λ f, deliverable f = true) (E.(stream_async) agent).(yields) in
  let turn :=
    chat_repository.to_item
      (chat_repository.initialize_chat_agent E.(now_agent_chat)
         user_id agent_response session_id) in
  agent_response = join delivered
  ∧ turn.(item_role) = #"assistant"
  ∧ turn.(item_message) = join delivered
  ∧ w'.(trace)
    = w.(trace)
      ++ [Posted connection_id (StreamEvent session_id user_input [] #"start_of_message")]
      ++ ((λ f, Posted connection_id (StreamEvent session_id user_input f #"in_progress"))
            <$> delivered)
      ++ [Posted connection_id (StreamEvent session_id user_input [] #"end_of_message");
          PutItem turn]
  ∧ w'.(chat_table) = put_item turn w.(chat_table).
Proof.
  unfold stream_to_client_and_persist, stream_body.
  destruct (post_to_connection _ _ _ w) as [wa [?|[]]] eqn:H1; [done|].
  apply HandlerFacts.post_returned in H1 as ->.
  destruct (deliver _ _ _ _ _ _ _) as [wb [?|acc]] eqn:H2; [done|].
  apply HandlerFacts.deliver_returned in H2 as [-> ->]. simpl.
  destruct (raises _); [done|].
  destruct (post_to_connection _ _ _ _) as [wc [?|[]]] eqn:H3; [done|].
  apply HandlerFacts.post_returned in H3 as ->.
  intros [= <- <-]. simpl. repeat split. by rewrite <- !app_assoc.
Qed.

Lemma turn_events_calm :
  (stream_to_client_and_persist calm_env general #"c1" #"u1-abc" #"u1" #"hello"
     empty_world).1.(trace)
  = [Posted #"c1" (StreamEvent #"u1-abc" #"hello" [] #"start_of_message");
     Posted #"c1" (StreamEvent #"u1-abc" #"hello" #"Hi" #"in_progress");
     Posted #"c1" (StreamEvent #"u1-abc" #"hello" #"there" #"in_progress");
     Posted #"c1" (StreamEvent #"u1-abc" #"hello" [] #"end_of_message");
     PutItem (chat_repository.to_item
                (chat_repository.initialize_chat_agent #"2025-01-01 10:00:03.500"
                   #"u1" #"Hithere" #"u1-abc"))].
Proof.
  exact (proj1 (proj2 (proj2 (proj2
    (turn_events calm_env general #"c1" #"u1-abc" #"u1" #"hello" empty_world
       _ #"Hithere" eq_refl))))).
Defined.

(** C3 as stated fails on a fragment of white space: the general agent's
    filter yields the four fragments [Hi], one space, one no-break space,
    [there]; the two in the middle are not empty, yet no [in_progress]
    event carries them and the text written is [Hithere]. *)
Lemma whitespace_fragment_dropped :
  general_agent.stream_async [Data #"Hi"; Data #" "; Data [NBSP]; Data #"there"]
  = Some [ #"Hi"; #" "; [NBSP]; #"there"]
  ∧ stream_to_client_and_persist calm_env general #"c1" #"u1-abc" #"u1" #"hello"
      empty_world
    = (World
         [chat_repository.to_item
            (chat_repository.initialize_chat_agent #"2025-01-01 10:00:03.500"
               #"u1" #"Hithere" #"u1-abc")]
         [Posted #"c1" (StreamEvent #"u1-abc" #"hello" [] #"start_of_message");
          Posted #"c1" (StreamEvent #"u1-abc" #"hello" #"Hi" #"in_progress");
          Posted #"c1" (StreamEvent #"u1-abc" #"hello" #"there" #"in_progress");
          Posted #"c1" (StreamEvent #"u1-abc" #"hello" [] #"end_of_message");
          PutItem (chat_repository.to_item
                     (chat_repository.initialize_chat_agent #"2025-01-01 10:00:03.500"
                        #"u1" #"Hithere" #"u1-abc"))],
       inr #"Hithere")
  ∧ #"Hithere" ≠ join [ #"Hi"; #" "; [NBSP]; #"there"].
Proof. repeat split. discriminate. Qed.

(** C8.  When the [try] block of [stream_to_client_and_persist] raises [e]
    (a delivery failed or the generator raised), the coordinator makes one
    attempt to post the error event for [e], whether or not that attempt
    succeeds raises [e] itself again, and has written nothing to the chat
    table: since the start of the turn the trace has grown by posts only. *)
Theorem stream_failure_reported (E : env) (agent : agent_module)
    (connection_id session_id user_id user_input : str) (w w1 : world) (e : exn) :
  stream_body E agent connection_id session_id user_id user_input w = (w1, inl e) →
  ∃ attempt,
    (attempt = Posted connection_id (StreamError (exn_str e))
     ∨ attempt = PostRaised connection_id (StreamError (exn_str e)))
    ∧ stream_to_client_and_persist E agent connection_id session_id user_id user_input w
      = (World w.(chat_table) (w1.(trace) ++ [attempt]), inl e)
    ∧ ∃ tr, w1.(trace) = w.(trace) ++ tr ∧ Forall (λ x, is_post x = true) tr.
Proof.
  intros Hbody. unfold stream_to_client_and_persist. rewrite Hbody.
  apply HandlerFacts.stream_body_raised in Hbody as [Ht Htr].
  destruct (HandlerFacts.post_cases E connection_id (StreamError (exn_str e)) w1)
    as [->|[n ->]]; simpl; rewrite Ht; eexists; (split; [|split; [done|done]]); auto.
Qed.

Lemma stream_failure_reported_timeout :
  ∃ attempt,
    (attempt = Posted #"c1" (StreamError #"read timeout")
     ∨ attempt = PostRaised #"c1" (StreamError #"read timeout"))
    ∧ stream_to_client_and_persist failing_env general #"c1" #"u1-abc" #"u1" #"hello"
        empty_world
      = (World []
           ([Posted #"c1" (StreamEvent #"u1-abc" #"hello" [] #"start_of_message");
             Posted #"c1" (StreamEvent #"u1-abc" #"hello" #"Hello" #"in_progress")]
            ++ [attempt]),
         inl (AgentFailure #"read timeout"))
    ∧ ∃ tr,
        [Posted #"c1" (StreamEvent #"u1-abc" #"hello" [] #"start_of_message");
         Posted #"c1" (StreamEvent #"u1-abc" #"hello" #"Hello" #"in_progress")]
        = [] ++ tr ∧ Forall (λ x, is_post x = true) tr.
Proof.
  exact (stream_failure_reported failing_env general #"c1" #"u1-abc" #"u1" #"hello"
           empty_world
           (World []
              [Posted #"c1" (StreamEvent #"u1-abc" #"hello" [] #"start_of_message");
               Posted #"c1" (StreamEvent #"u1-abc" #"hello" #"Hello" #"in_progress")])
           (AgentFailure #"read timeout") eq_refl).
Defined.

(** C9.  For a request that passes the field checks: when it carries a
    (non-empty) session id whose lookup returns nothing, [async_handler]
    answers 404 [Session not found], pushes that error to the client and
    writes nothing to the chat table; when it carries none (or an empty
    one), the session id made for it is the user id, a dash and 8
    characters that are letters or digits, and the first item written is
    the record of a new session under that id whose message count is 0. *)
Theorem session_resolution (E : env) (ev : event) (b : body) (w : world) :
  ev.(event_body) = Some b →
  truthy ev.(connectionId) && truthy ev.(domainName) && truthy ev.(stage) = true →
  truthy b.(body_user_id) && truthy b.(body_user_input) = true →
  let connection_id := default [] ev.(connectionId) in
  let user_id := default [] b.(body_user_id) in
  let w0 := push_to_client E connection_id (Processing connection_id) w in
  (∀ session_id,
     b.(body_session_id) = Some session_id → session_id ≠ [] →
     user_session_repository.get_user_session w.(chat_table) user_id session_id
     = inr None →
     async_handler E ev w
     = (push_to_client E connection_id
          (ErrorResponse #"Session not found" connection_id) w0,
        Response 404 (error #"Session not found"))
     ∧ (async_handler E ev w).1.(chat_table) = w.(chat_table)
     ∧ ∃ tr, (async_handler E ev w).1.(trace) = w.(trace) ++ tr
             ∧ Forall (λ x, is_post x = true) tr)
  ∧ (truthy b.(body_session_id) = false →
     ∃ random_part,
       let session_id := user_id ++ #"-" ++ random_part in
       let record :=
         user_session_repository.to_item
           (user_session_repository.initialize_user_session E.(now_session)
              user_id session_id [] #"New Chat") in
       length random_part = 8
       ∧ Forall (λ c, is_alnum c = true) random_part
       ∧ user_session_repository.construct_session_id E.(random) user_id = session_id
       ∧ record.(PK) = session_id
       ∧ record.(item_message_count) = Some 0%Z
       ∧ ∃ tr, (async_handler E ev w).1.(trace)
               = w0.(trace) ++ [PutItem record] ++ tr).
Proof.
  intros Hb Hctx Hreq connection_id user_id w0.
  assert (w0.(chat_table) = w.(chat_table)) as Htbl
    by apply (HandlerFacts.push_posts_only E connection_id (Processing connection_id) w).
  split.
  - intros session_id Hsid Hne Hget.
    assert (async_handler E ev w
            = (push_to_client E connection_id
                 (ErrorResponse #"Session not found" connection_id) w0,
               Response 404 (error #"Session not found"))) as Hrun.
    { unfold async_handler, session_handling. rewrite Hb, Hctx, Hreq. simpl.
      fold connection_id user_id w0. rewrite Hsid.
      destruct session_id as [|a session_id]; [done|]. simpl.
      change (default [] (Some (a :: session_id))) with (a :: session_id).
      rewrite Htbl, Hget. done. }
    rewrite Hrun. simpl. split; [done|].
    pose proof (HandlerFacts.posts_only_trans _ _ _
                  (HandlerFacts.push_posts_only E connection_id
                     (Processing connection_id) w)
                  (HandlerFacts.push_posts_only E connection_id
                     (ErrorResponse #"Session not found" connection_id) w0))
      as [Ht Htr].
    split; [done|]. exact Htr.
  - intros Hnone.
    exists (user_session_repository.choices E.(random)
              (user_session_repository.ascii_letters ++ user_session_repository.digits) 8).
    split; [apply HandlerFacts.choices_length|].
    split; [apply HandlerFacts.choices_from; [done|apply HandlerFacts.alphabet_alnum]|].
    split; [done|]. split; [done|]. split; [done|].
    assert (grows
              (db_put (user_session_repository.to_item
                 (user_session_repository.initialize_user_session
                    E.(now_session) user_id
                    (user_session_repository.construct_session_id E.(random) user_id)
                    [] #"New Chat")) w0)
              (async_handler E ev w).1) as [tr Htr];
      [|exists tr; rewrite Htr; simpl; by rewrite <- app_assoc].
    unfold async_handler, session_handling. rewrite Hb, Hctx, Hreq. simpl.
    fold connection_id user_id w0. rewrite Hnone.
    repeat case_match; simplify_eq; simpl; HandlerFacts.grow.
    all: match goal with
         | H : stream_to_client_and_persist ?E ?a ?c ?s ?u ?i ?w1 = (?w2, _) |- _ =>
             pose proof (HandlerFacts.stream_grows E a c s u i w1) as Hg;
             rewrite H in Hg; simpl in Hg;
             eapply HandlerFacts.grows_trans; [|exact Hg]
         end; HandlerFacts.grow.
Qed.

Lemma session_resolution_examples :
  async_handler calm_env (request #"mallory" (Some #"nobody-00000000"))
    (World alice_table [])
  = (World alice_table
       [Posted #"c1" (Processing #"c1");
        Posted #"c1" (ErrorResponse #"Session not found" #"c1")],
     Response 404 (error #"Session not found"))
  ∧ ∃ tr,
      (async_handler calm_env (request #"bob" None) (World alice_table [])).1.(trace)
      = [Posted #"c1" (Processing #"c1")]
        ++ [PutItem (user_session_repository.to_item
                       (user_session_repository.initialize_user_session
                          #"2025-01-01 10:00:00" #"bob" #"bob-dkryFMT0" [] #"New Chat"))]
        ++ tr.
Proof.
  split.
  - destruct (session_resolution calm_env
                (request #"mallory" (Some #"nobody-00000000")) _
                (World alice_table []) eq_refl) as [HA _]; [reflexivity..|].
    destruct (HA #"nobody-00000000") as [H _]; [reflexivity|discriminate|reflexivity|].
    exact H.
  - destruct (session_resolution calm_env (request #"bob" None) _
                (World alice_table []) eq_refl) as [_ HB]; [reflexivity..|].
    destruct HB as (random_part & _ & _ & Hid & _ & _ & tr & Htr); [reflexivity|].
    exists tr.
    assert (random_part = #"dkryFMT0") as -> by (by injection Hid).
    exact Htr.
Defined.

(** C10.  [get_user_session] never looks at the user id: two lookups of one
    session id give the same result whatever the user ids; hence a request
    for an existing session passes the session check of [async_handler]
    with that session, whichever user id it carries. *)
Theorem session_lookup_ignores_user :
  (∀ (t : table) (u1 u2 session_id : str),
     user_session_repository.get_user_session t u1 session_id
     = user_session_repository.get_user_session t u2 session_id)
  ∧ (∀ (E : env) (w : world) (u1 u2 session_id connection_id : str) user_session,
       session_id ≠ [] →
       user_session_repository.get_user_session w.(chat_table) u1 session_id
       = inr (Some user_session) →
       session_handling E u2 (Some session_id) connection_id w
       = (w, inr (session_id, user_session))).
Proof.
  split; [done|].
  intros E w u1 u2 session_id connection_id user_session Hne Hget.
  unfold session_handling. destruct session_id as [|a session_id]; [done|]. simpl.
  change (user_session_repository.get_user_session (chat_table w) u2 (a :: session_id))
    with (user_session_repository.get_user_session (chat_table w) u1 (a :: session_id)).
  by rewrite Hget.
Qed.

Lemma session_lookup_ignores_user_mallory :
  user_session_repository.get_user_session alice_table #"alice" #"alice-Ab12Cd34"
  = inr (Some alice_session)
  ∧ user_session_repository.get_user_session alice_table #"mallory" #"alice-Ab12Cd34"
    = inr (Some alice_session)
  ∧ session_handling calm_env #"mallory" (Some #"alice-Ab12Cd34") #"c1"
      (World alice_table [])
    = (World alice_table [], inr (#"alice-Ab12Cd34", alice_session)).
Proof.
  destruct session_lookup_ignores_user as [H1 H2].
  split; [reflexivity|]. split.
  - exact (eq_trans (H1 alice_table #"mallory" #"alice" #"alice-Ab12Cd34") eq_refl).
  - apply (H2 calm_env (World alice_table []) #"alice" #"mallory" #"alice-Ab12Cd34"
             #"c1" alice_session); [discriminate|reflexivity].
Defined.

(** ** The quiz session engine: results *)

Import quizzer_agent.

(** C6, as the code has it.  [evaluate_answer] has no check of the index or
    of the state: for every stored session, whatever its state and current
    question index, and for every submitted index, it returns an evaluation
    (it signals nothing), records the answer on the question of the
    submitted index and moves the session on by one question. *)
Theorem evaluate_answer_unguarded (answered_at updated_at : str) (db : quiz_db)
    (session_id : str) (q_index : Z) (question : str) (options : list (str * str))
    (correct_answer user_answer : str) (session : session_item) :
  db.(session_table) !! session_id = Some session →
  ∃ db' result session' item,
    evaluate_answer answered_at updated_at db session_id q_index question options
      correct_answer user_answer = (db', inr result)
    ∧ db'.(session_table) !! session_id = Some session'
    ∧ session'.(current_question) = (session.(current_question) + 1)%Z
    ∧ session' ≠ session
    ∧ db'.(quiz_table) !! (session_id, q_index) = Some item
    ∧ item.(quizzer_agent.user_answer) = Some (upper user_answer)
    ∧ item.(quizzer_agent.answered_at) = Some answered_at.
Proof.
  intros Hs. unfold evaluate_answer, db_get_session. simpl. rewrite Hs.
  do 4 eexists. split; [done|]. simpl.
  rewrite !lookup_insert_eq. repeat split.
  intros E. apply (f_equal current_question) in E. simpl in E. lia.
Qed.

Lemma evaluate_answer_unguarded_first :
  ∃ db' result session' item,
    answer 0 #"a" fresh_quiz = (db', inr result)
    ∧ db'.(session_table) !! #"s1" = Some session'
    ∧ session'.(current_question) = (0 + 1)%Z
    ∧ session' ≠ {| state := #"in_progress"; current_question := 0;
                    total_questions := 3; score := 0; topic := #"fractions";
                    grade := 5; history := [];
                    started_at := #"2025-01-01 11:00:00";
                    updated_at := #"2025-01-01 11:00:00" |}
    ∧ db'.(quiz_table) !! (#"s1", 0%Z) = Some item
    ∧ item.(quizzer_agent.user_answer) = Some #"A"
    ∧ item.(quizzer_agent.answered_at) = Some #"2025-01-01 11:01:00".
Proof.
  exact (evaluate_answer_unguarded #"2025-01-01 11:01:00" #"2025-01-01 11:01:01"
           fresh_quiz #"s1" 0 #"Which is 1/2?" abcd #"A" #"a" _ eq_refl).
Defined.

(** C6 as stated fails: with the session at question 1, an answer for
    question 0 is taken like any other; nothing is signalled, and the
    session moves to question 2 with the score raised. *)
Lemma stale_answer_accepted :
  let db1 := (answer 0 #"A" fresh_quiz).1 in
  let db2 := (answer 0 #"A" db1).1 in
  (current_question <$> db1.(session_table) !! #"s1") = Some 1%Z
  ∧ (answer 0 #"A" db1).2
    = inr {| is_correct := true; eval_user_answer := #"A";
             eval_correct_answer := #"A"; user_choice_text := #"one half";
             correct_choice_text := #"one half" |}
  ∧ (current_question <$> db2.(session_table) !! #"s1") = Some 2%Z
  ∧ (score <$> db2.(session_table) !! #"s1") = Some 2%Z
  ∧ db2.(session_table) !! #"s1" ≠ db1.(session_table) !! #"s1".
Proof. vm_compute. repeat split. discriminate. Qed.

(** C7, as the code has it.  For every stored session, [evaluate_answer]
    compares the two labels after upper-casing and trimming each; it
    raises the score by 1 exactly when they are equal and leaves it alone
    otherwise; it raises the current question index by 1; and it sets the
    state to [completed] exactly when the new index is at least
    [total_questions], to [in_progress] otherwise.  While the index before
    was below [total_questions], that is exactly when the new index equals
    [total_questions]. *)
Theorem evaluate_answer_progress (answered_at updated_at : str) (db : quiz_db)
    (session_id : str) (q_index : Z) (question : str) (options : list (str * str))
    (correct_answer user_answer : str) (session : session_item) :
  db.(session_table) !! session_id = Some session →
  ∃ db' result session',
    evaluate_answer answered_at updated_at db session_id q_index question options
      correct_answer user_answer = (db', inr result)
    ∧ db'.(session_table) !! session_id = Some session'
    ∧ result.(eval_user_answer) = strip (upper user_answer)
    ∧ result.(eval_correct_answer) = strip (upper correct_answer)
    ∧ (result.(is_correct) = true
       ↔ strip (upper user_answer) = strip (upper correct_answer))
    ∧ (session'.(score) = (session.(score) + 1)%Z
       ↔ strip (upper user_answer) = strip (upper correct_answer))
    ∧ (strip (upper user_answer) ≠ strip (upper correct_answer) →
       session'.(score) = session.(score))
    ∧ session'.(current_question) = (session.(current_question) + 1)%Z
    ∧ (session'.(state) = #"completed"
       ↔ (session.(total_questions) ≤ session'.(current_question))%Z)
    ∧ (¬ (session.(total_questions) ≤ session'.(current_question))%Z →
       session'.(state) = #"in_progress")
    ∧ ((session.(current_question) < session.(total_questions))%Z →
       session'.(state) = #"completed"
       ↔ session'.(current_question) = session.(total_questions)).
Proof.
  intros Hs. unfold evaluate_answer, db_get_session. simpl. rewrite Hs.
  do 3 eexists. split; [done|]. simpl. rewrite lookup_insert_eq.
  split; [done|]. simpl. split; [done|]. split; [done|].
  split; [apply bool_decide_eq_true|].
  split; [case_bool_decide; split; (done || lia)|].
  split; [intros; by rewrite bool_decide_eq_false_2; [lia|]|].
  split; [done|].
  destruct (Z.leb_spec (total_questions session) (current_question session + 1)).
  - split; [done|]. split; [lia|]. intros. split; [lia|done].
  - split; [split; [done|lia]|]. split; [done|]. intros. split; [done|lia].
Qed.

Lemma evaluate_answer_progress_first :
  ∃ db' result session',
    answer 0 (#" a" ++ [NBSP]) fresh_quiz = (db', inr result)
    ∧ db'.(session_table) !! #"s1" = Some session'
    ∧ result.(eval_user_answer) = #"A"
    ∧ result.(eval_correct_answer) = #"A"
    ∧ (result.(is_correct) = true ↔ #"A" = #"A")
    ∧ (session'.(score) = (0 + 1)%Z ↔ #"A" = #"A")
    ∧ (#"A" ≠ #"A" → session'.(score) = 0%Z)
    ∧ session'.(current_question) = (0 + 1)%Z
    ∧ (session'.(state) = #"completed" ↔ (3 ≤ session'.(current_question))%Z)
    ∧ (¬ (3 ≤ session'.(current_question))%Z → session'.(state) = #"in_progress")
    ∧ ((0 < 3)%Z → session'.(state) = #"completed" ↔ session'.(current_question) = 3%Z).
Proof.
  exact (evaluate_answer_progress #"2025-01-01 11:01:00" #"2025-01-01 11:01:01"
           fresh_quiz #"s1" 0 #"Which is 1/2?" abcd #"A" (#" a" ++ [NBSP]) _ eq_refl).
Defined.

(** C7 as stated fails on a session already at its end: after three
    answers the quiz of three questions is completed at index 3; a fourth
    answer moves the index to 4, which is not [total_questions], and the
    state is [completed]. *)
Lemma completed_beyond_total :
  let db3 := (answer 2 #"A" (answer 1 #"b" (answer 0 #"A" fresh_quiz).1).1).1 in
  let db4 := (answer 2 #"A" db3).1 in
  ((λ s, (current_question s, total_questions s, score s, state s))
     <$> db3.(session_table) !! #"s1") = Some (3, 3, 2, #"completed")%Z
  ∧ ((λ s, (current_question s, total_questions s, score s, state s))
       <$> db4.(session_table) !! #"s1") = Some (4, 3, 3, #"completed")%Z
  ∧ (4 ≠ 3)%Z.
Proof. vm_compute. repeat split. discriminate. Qed.

(** ** More facts about the streaming tag filter *)

Module TagFilterMore.
Import Py PyFacts TagFilter TagFilterFacts.

Local Arguments Nat.min : simpl never.
Local Arguments Nat.sub : simpl never.
Local Arguments Nat.ltb : simpl never.





Local Arguments scan : simpl never.





Local Arguments scan : simpl never.
Local Arguments curriculum_agent.context_scan : simpl never.




End TagFilterMore.

(** ** The streaming tag filter: further results *)



(** With U+0130 in the text the cut matters: the text of C1 in one
    fragment lets the first character of the tag through, and the same
    text with U+0130 in a fragment of its own does not. *)
Remark dotted_I_cut_matters :
  join <$> general_agent.stream_async [Data (dotted_I :: #"<thinking>x</thinking>y")]
  = Some (dotted_I :: #"<y")
  ∧ join <$> general_agent.stream_async
               [Data [dotted_I]; Data #"<thinking>x</thinking>y"]
    = Some (dotted_I :: #"y").
Proof. split; vm_compute; reflexivity. Qed.

(** X2.  On every model stream the quizzer's output, put together, is the
    general agent's output with every line feed replaced by [<br>]:
    converting fragment by fragment is converting the whole. *)
Theorem quizzer_output_is_converted_general_output (chunks : list chunk) :
  join <$> quizzer_agent.stream_async chunks
  = quizzer_agent.br <$> (join <$> general_agent.stream_async chunks).
Proof.
  destruct (TagFilterFacts.stream_filter_total chunks) as [outs Hrun].
  unfold general_agent.stream_async, quizzer_agent.stream_async.
  rewrite (TagFilterFacts.stream_filter_emit quizzer_agent.br), Hrun. simpl.
  unfold join, quizzer_agent.br, replace_char.
  by rewrite TagFilterFacts.concat_fmap_bind.
Qed.



(** With U+0130 in the text a fragment can hold a whole open tag: after
    ten U+0130 the tag is found at index 20 of the lower-case text, and
    the first 20 characters of the buffer, the open tag among them, are
    yielded; the rest of the text, the visible [ok] too, is lost. *)
Remark dotted_I_fragment_holds_tag :
  general_agent.stream_async
    [Data (replicate 10 dotted_I ++ #"<thinking>secret</thinking>ok")]
  = Some [replicate 10 dotted_I ++ #"<thinking>"].
Proof. vm_compute. reflexivity. Qed.

(** X4.  The general agent's output is a subsequence of the model's text:
    the filter only removes characters, it never adds or reorders any. *)
Theorem output_is_subsequence (chunks : list chunk) :
  ∃ outs, general_agent.stream_async chunks = Some outs
          ∧ join outs `sublist_of` input_text chunks
          ∧ length (join outs) ≤ length (input_text chunks).
Proof.
  destruct (TagFilterFacts.stream_filter_total chunks) as [outs Hrun].
  exists outs. split; [done|].
  apply TagFilterFacts.stream_filter_sublist in Hrun. split; [done|].
  by apply sublist_length.
Qed.



(** With U+0130 in the text the two loops differ: [stream_async] yields a
    fragment U+0130 before it sees the tag, [get_curriculum_context] holds
    it back and cuts the buffer one character late. *)
Remark dotted_I_context_differs :
  join <$> curriculum_agent.stream_async
             [Data [dotted_I]; Data #"<thinking>x</thinking>y"]
  = Some (dotted_I :: #"y")
  ∧ curriculum_agent.get_curriculum_context
      [Data [dotted_I]; Data #"<thinking>x</thinking>y"] None #"nouns"
    = Some (curriculum_agent.context_success #"nouns" (dotted_I :: #"<y")
              #"Curriculum context retrieved successfully.").
Proof. split; vm_compute; reflexivity. Qed.





(** ** Facts about the quiz tables *)

Module QuizFacts.
Import Py quizzer_agent.

(** The session [evaluate_answer] writes back. *)
Lemma evaluate_answer_stored t1 t2 db sid q_index question options ca ua sess :
  db.(session_table) !! sid = Some sess →
  ∃ result,
    evaluate_answer t1 t2 db sid q_index question options ca ua
    = ({| quiz_table :=
            <[(sid, q_index) :=
                {| quiz := (default blank_question (db.(quiz_table) !! (sid, q_index))).(quiz);
                   user_answer := Some (upper ua);
                   score_status :=
                     Some (if bool_decide (strip (upper ua) = strip (upper ca))
                           then #"correct" else #"wrong");
                   answered_at := Some t1 |}]> db.(quiz_table);
          session_table :=
            <[sid :=
                {| state :=
                     if (sess.(total_questions) <=? sess.(current_question) + 1)%Z
                     then #"completed" else #"in_progress";
                   current_question := (sess.(current_question) + 1)%Z;
                   total_questions := sess.(total_questions);
                   score :=
                     (sess.(score)
                      + (if bool_decide (strip (upper ua) = strip (upper ca))
                         then 1 else 0))%Z;
                   topic := sess.(topic); grade := sess.(grade);
                   history := sess.(history); started_at := sess.(started_at);
                   updated_at := t2 |}]> db.(session_table) |},
       inr result).
Proof.
  intros Hs. unfold evaluate_answer, db_get_session. simpl. rewrite Hs.
  eexists. unfold db_update_session_progress. simpl. rewrite Hs. simpl. done.
Qed.

Lemma save_from_sessions now sid i items topic grade db :
  (db_save_quiz_from now sid i items topic grade db).1.(session_table)
  = db.(session_table).
Proof.
  revert i db. induction items as [|q items IH]; intros i db; simpl; [done|].
  destruct (quiz_item_of _ _ _ q); [done|]. by rewrite IH.
Qed.

Lemma save_from_complete now sid i items topic grade db :
  Forall complete items →
  ∃ db',
    db_save_quiz_from now sid i items topic grade db = (db', inr ())
    ∧ (∀ j q, items !! j = Some q →
         ∃ item, quiz_item_of (now (i + j)) topic grade q = inr item
                 ∧ db'.(quiz_table) !! (sid, Z.of_nat (i + j)) = Some item)
    ∧ (∀ s k, ¬ (s = sid ∧ (Z.of_nat i ≤ k < Z.of_nat (i + length items))%Z) →
         db'.(quiz_table) !! (s, k) = db.(quiz_table) !! (s, k)).
Proof.
  intros Hall. revert i db.
  induction Hall as [|q items Hq _ IH]; intros i db; simpl.
  - eexists. split; [done|]. split; [done|]. done.
  - destruct Hq as ([qu Hqu] & [op Hop] & [co Hco]).
    unfold quiz_item_of at 1. rewrite Hqu, Hop, Hco.
    match goal with |- context [db_save_quiz_from _ _ _ _ _ _ ?d] => set (db1 := d) end.
    destruct (IH (S i) db1) as (db' & Hrun & Hin & Hout).
    exists db'. split; [done|]. split.
    + intros [|j] q' Hj; simpl in Hj.
      * injection Hj as <-. eexists. split.
        { unfold quiz_item_of. rewrite Hqu, Hop, Hco. done. }
        rewrite Hout by lia. subst db1. simpl.
        rewrite Nat.add_0_r. by rewrite lookup_insert_eq.
      * replace (i + S j) with (S i + j) by lia. by apply Hin.
    + intros s k Hk. rewrite Hout.
      * subst db1. simpl. apply lookup_insert_ne. intros [= <- <-].
        apply Hk. split; [done|lia].
      * intros [-> ?]. apply Hk. split; [done|lia].
Qed.

End QuizFacts.

(** ** The quiz session engine: further results *)

(** X6.  Answers given one after the other to a stored session: every call
    of [evaluate_answer] returns, and afterwards the current question index
    has grown by the number of answers, the score by the number of answers
    whose normalized label equals the normalized correct label, the total
    is unchanged, and (after at least one answer) the state is [completed]
    when the index has reached the total and [in_progress] otherwise. *)
Theorem answers_in_sequence (now : str) (session_id : str)
    (answers : list (Z * str * str)) (db : quiz_db) (session : session_item) :
  db.(session_table) !! session_id = Some session →
  ∃ db' session',
    submit_all now session_id answers db = (db', inr ())
    ∧ db'.(session_table) !! session_id = Some session'
    ∧ session'.(current_question)
      = (session.(current_question) + Z.of_nat (length answers))%Z
    ∧ session'.(score)
      = (session.(score) + Z.of_nat (correct_answers answers))%Z
    ∧ session'.(total_questions) = session.(total_questions)
    ∧ (answers ≠ [] →
       session'.(state)
       = if (session.(total_questions) <=? session'.(current_question))%Z
         then #"completed" else #"in_progress").
Proof.
  revert db session. induction answers as [|[[q ca] ua] answers IH]; intros db sess Hs.
  - exists db, sess. unfold correct_answers. simpl.
    repeat split; (done || lia).
  - cbn [submit_all].
    destruct (QuizFacts.evaluate_answer_stored now now db session_id q [] [] ca ua sess Hs) as [r ->].
    match goal with |- context [submit_all _ _ _ ?d] => set (db1 := d) end.
    match type of db1 with _ => idtac end.
    assert (∃ s1, db1.(session_table) !! session_id = Some s1
                  ∧ s1.(current_question) = (sess.(current_question) + 1)%Z
                  ∧ s1.(score)
                    = (sess.(score)
                       + (if bool_decide (strip (upper ua) = strip (upper ca))
                          then 1 else 0))%Z
                  ∧ s1.(total_questions) = sess.(total_questions)
                  ∧ s1.(state)
                    = if (sess.(total_questions) <=? sess.(current_question) + 1)%Z
                      then #"completed" else #"in_progress")
      as (s1 & Hs1 & Hc1 & Hsc1 & Ht1 & Hst1).
    { eexists. subst db1. simpl. rewrite lookup_insert_eq. done. }
    destruct (IH db1 s1 Hs1) as (db' & sess' & Hrun & Hs' & Hc & Hsc & Ht & Hst).
    exists db', sess'. split; [done|]. split; [done|].
    rewrite Hc, Hsc, Ht, Hc1, Hsc1, Ht1. unfold correct_answers in *.
    rewrite filter_cons. simpl. split; [lia|]. split.
    { case_bool_decide; [rewrite decide_True by done|rewrite decide_False by done];
        simpl; lia. }
    split; [done|]. intros _.
    destruct answers as [|a answers].
    + simpl in Hrun. injection Hrun as <-. rewrite Hs1 in Hs'. injection Hs' as <-.
      rewrite Hst1. simpl. change (Z.of_nat 0) with 0%Z. by rewrite Z.add_0_r.
    + rewrite Hst by done. by rewrite Ht1, Hc, Hc1.
Qed.

Lemma answers_in_sequence_three_correct :
  ∃ db' session',
    submit_all #"2025-01-01 11:05:00" #"s1"
      [(0, #"A", #"a" ++ [NBSP]); (1, #"B", #" b "); (2, [E_acute], [e_acute])]%Z fresh_quiz
    = (db', inr ())
    ∧ db'.(session_table) !! #"s1" = Some session'
    ∧ session'.(current_question) = (0 + 3)%Z
    ∧ session'.(score) = (0 + 3)%Z
    ∧ session'.(total_questions) = 3%Z
    ∧ ([(0, #"A", #"a" ++ [NBSP]); (1, #"B", #" b "); (2, [E_acute], [e_acute])]%Z ≠ [] →
       session'.(state)
       = if (3 <=? session'.(current_question))%Z
         then #"completed" else #"in_progress").
Proof.
  exact (answers_in_sequence #"2025-01-01 11:05:00" #"s1"
           [(0, #"A", #"a" ++ [NBSP]); (1, #"B", #" b "); (2, [E_acute], [e_acute])]%Z
           fresh_quiz _ eq_refl).
Defined.

(** X7.  [evaluate_answer] for a session id that has no session item
    raises [KeyError('score')], yet it has already written the answer on
    the question item of the submitted index; the session table is left as
    it was. *)
Theorem answer_for_unknown_session (answered_at updated_at : str) (db : quiz_db)
    (session_id : str) (q_index : Z) (question : str) (options : list (str * str))
    (correct_answer user_answer : str) :
  db.(session_table) !! session_id = None →
  ∃ db' item,
    evaluate_answer answered_at updated_at db session_id q_index question options
      correct_answer user_answer = (db', inl (KeyError #"score"))
    ∧ db'.(session_table) = db.(session_table)
    ∧ db'.(quiz_table) !! (session_id, q_index) = Some item
    ∧ item.(quizzer_agent.user_answer) = Some (upper user_answer).
Proof.
  intros Hs. unfold evaluate_answer, db_get_session. simpl. rewrite Hs.
  do 2 eexists. split; [done|]. simpl. split; [done|].
  by rewrite lookup_insert_eq.
Qed.

Lemma answer_for_unknown_session_s2 :
  ∃ db' item,
    evaluate_answer #"2025-01-01 11:01:00" #"2025-01-01 11:01:01" fresh_quiz
      #"s2" 0 #"Which is 1/2?" abcd #"A" #"b" = (db', inl (KeyError #"score"))
    ∧ db'.(session_table) = fresh_quiz.(session_table)
    ∧ db'.(quiz_table) !! (#"s2", 0%Z) = Some item
    ∧ item.(quizzer_agent.user_answer) = Some #"B".
Proof.
  exact (answer_for_unknown_session #"2025-01-01 11:01:00" #"2025-01-01 11:01:01"
           fresh_quiz #"s2" 0 #"Which is 1/2?" abcd #"A" #"b" eq_refl).
Defined.

(** X8.  [evaluate_answer] touches one session item and one question item:
    every other session and every other question is as before, and of the
    session it updates, the total, topic, grade, history and start time
    stay, as do the quiz attributes of the question it updates. *)
Theorem evaluate_answer_touches_one (answered_at updated_at : str) (db : quiz_db)
    (session_id : str) (q_index : Z) (question : str) (options : list (str * str))
    (correct_answer user_answer : str) (session : session_item) :
  db.(session_table) !! session_id = Some session →
  let db' := (evaluate_answer answered_at updated_at db session_id q_index
                question options correct_answer user_answer).1 in
  (∀ s, s ≠ session_id → db'.(session_table) !! s = db.(session_table) !! s)
  ∧ (∀ s k, (s, k) ≠ (session_id, q_index) →
       db'.(quiz_table) !! (s, k) = db.(quiz_table) !! (s, k))
  ∧ (∃ session',
       db'.(session_table) !! session_id = Some session'
       ∧ session'.(total_questions) = session.(total_questions)
       ∧ session'.(topic) = session.(topic)
       ∧ session'.(grade) = session.(grade)
       ∧ session'.(history) = session.(history)
       ∧ session'.(started_at) = session.(started_at))
  ∧ (quiz <$> db'.(quiz_table) !! (session_id, q_index))
    = Some (db.(quiz_table) !! (session_id, q_index) ≫= quiz).
Proof.
  intros Hs.
  destruct (QuizFacts.evaluate_answer_stored answered_at updated_at db session_id
              q_index question options correct_answer user_answer session Hs)
    as [r ->].
  simpl. split; [intros s Hne; by rewrite lookup_insert_ne|].
  split; [intros s k Hne; by rewrite lookup_insert_ne|].
  rewrite !lookup_insert_eq. split; [by eexists|]. simpl.
  by destruct (quiz_table db !! (session_id, q_index)).
Qed.

Lemma evaluate_answer_touches_one_fresh :
  let db' := (answer 0 #"A" fresh_quiz).1 in
  (∀ s, s ≠ #"s1" → db'.(session_table) !! s = fresh_quiz.(session_table) !! s)
  ∧ (∀ s k, (s, k) ≠ (#"s1", 0%Z) →
       db'.(quiz_table) !! (s, k) = fresh_quiz.(quiz_table) !! (s, k))
  ∧ (∃ session',
       db'.(session_table) !! #"s1" = Some session'
       ∧ session'.(total_questions) = 3%Z
       ∧ session'.(topic) = #"fractions"
       ∧ session'.(grade) = 5%Z
       ∧ session'.(history) = []
       ∧ session'.(started_at) = #"2025-01-01 11:00:00")
  ∧ (quiz <$> db'.(quiz_table) !! (#"s1", 0%Z))
    = Some (fresh_quiz.(quiz_table) !! (#"s1", 0%Z) ≫= quiz).
Proof.
  exact (evaluate_answer_touches_one #"2025-01-01 11:01:00" #"2025-01-01 11:01:01"
           fresh_quiz #"s1" 0 #"Which is 1/2?" abcd #"A" #"A" _ eq_refl).
Defined.

(** X9.  Reading a question back after [evaluate_answer] on a stored
    session: when the question item had its quiz attributes,
    [db_get_question] returns them with [user_answer] the submitted label
    in upper case (not trimmed); when there was no item for the submitted
    index, the item [evaluate_answer] made has no quiz attributes and
    [db_get_question] raises [KeyError('question')]. *)
Theorem answer_read_back (answered_at updated_at : str) (db : quiz_db)
    (session_id : str) (q_index : Z) (question : str) (options : list (str * str))
    (correct_answer user_answer : str) (session : session_item) :
  db.(session_table) !! session_id = Some session →
  let db' := (evaluate_answer answered_at updated_at db session_id q_index
                question options correct_answer user_answer).1 in
  (∀ item f,
     db.(quiz_table) !! (session_id, q_index) = Some item →
     item.(quiz) = Some f →
     db_get_question session_id q_index db'
     = inr (Some {| view_question := f.(quizzer_agent.question);
                    view_options := f.(quizzer_agent.options);
                    view_correct := f.(correct);
                    view_explanation := f.(explanation);
                    view_topic := f.(quiz_topic);
                    view_grade := f.(quiz_grade);
                    view_user_answer := upper user_answer |}))
  ∧ (db.(quiz_table) !! (session_id, q_index) = None →
     db_get_question session_id q_index db' = inl (KeyError #"question")).
Proof.
  intros Hs.
  destruct (QuizFacts.evaluate_answer_stored answered_at updated_at db session_id
              q_index question options correct_answer user_answer session Hs)
    as [r ->].
  simpl. unfold db_get_question. simpl. rewrite lookup_insert_eq. simpl. split.
  - intros item f -> Hf. simpl. by rewrite Hf.
  - by intros ->.
Qed.

Lemma answer_read_back_sharp_s :
  let db := (store_generated_quiz still_clock #"2025-01-01 11:00:00" #"s1"
               #"fractions" 5 (inr two_questions) no_quiz).1 in
  (∃ v, db_get_question #"s1" 0 (answer 0 [sharp_s] db).1 = inr (Some v)
        ∧ v.(view_user_answer) = #"SS" ∧ v.(view_correct) = #"A")
  ∧ db_get_question #"s1" 7 (answer 7 #"d" db).1 = inl (KeyError #"question").
Proof.
  intros db. split.
  - edestruct (answer_read_back #"2025-01-01 11:01:00" #"2025-01-01 11:01:01" db
                 #"s1" 0 #"Which is 1/2?" abcd #"A" [sharp_s]) as [H _]; [reflexivity|].
    eexists. split; [eapply H; reflexivity|]. split; reflexivity.
  - edestruct (answer_read_back #"2025-01-01 11:01:00" #"2025-01-01 11:01:01" db
                 #"s1" 7 #"Which is 1/2?" abcd #"A" #"d") as [_ H]; [reflexivity|].
    apply H. reflexivity.
Defined.

(** X10.  [db_save_quiz] on questions that have their three required keys
    saves all of them: it returns their number, each is read back by
    [db_get_question] under its position in the list with an empty
    [user_answer] (an earlier answer under that index is gone), and every
    item under another session or an index beyond the list is as before. *)
Theorem saved_quiz_read_back (now : nat → str) (session_id : str)
    (quiz_items : list quiz_input) (topic : str) (grade : Z) (db : quiz_db) :
  Forall complete quiz_items →
  ∃ db',
    db_save_quiz now session_id quiz_items topic grade db
    = (db', inr (length quiz_items))
    ∧ db'.(session_table) = db.(session_table)
    ∧ (∀ i q, quiz_items !! i = Some q →
         db_get_question session_id (Z.of_nat i) db'
         = inr (Some {| view_question := default [] q.(in_question);
                        view_options := default [] q.(in_options);
                        view_correct := default [] q.(in_correct);
                        view_explanation := default [] q.(in_explanation);
                        view_topic := topic;
                        view_grade := grade;
                        view_user_answer := [] |}))
    ∧ (∀ s k, ¬ (s = session_id ∧ (0 ≤ k < Z.of_nat (length quiz_items))%Z) →
         db'.(quiz_table) !! (s, k) = db.(quiz_table) !! (s, k)).
Proof.
  intros Hall.
  destruct (QuizFacts.save_from_complete now session_id 0 quiz_items topic grade db Hall)
    as (db' & Hrun & Hin & Hout).
  pose proof (QuizFacts.save_from_sessions now session_id 0 quiz_items topic grade db)
    as Hsess.
  exists db'. unfold db_save_quiz. rewrite Hrun in *. simpl in Hsess.
  split; [done|]. split; [done|]. split; [|exact Hout].
  intros i q Hi. destruct (Hin i q Hi) as (item & Hitem & Hlook).
  simpl in Hlook. unfold db_get_question. rewrite Hlook.
  rewrite Forall_forall in Hall.
  destruct (Hall q) as ([qu Hqu] & [op Hop] & [co Hco]);
    [by eapply list_elem_of_lookup_2|].
  unfold quiz_item_of in Hitem. rewrite Hqu, Hop, Hco in Hitem.
  injection Hitem as <-. simpl. by rewrite Hqu, Hop, Hco.
Qed.

Lemma saved_quiz_read_back_second :
  db_get_question #"s1" 1
    (db_save_quiz still_clock #"s1" two_questions #"fractions" 5
       (answer 1 #"c" fresh_quiz).1).1
  = inr (Some {| view_question := #"Which is 1/3?"; view_options := abcd;
                 view_correct := #"B"; view_explanation := [];
                 view_topic := #"fractions"; view_grade := 5;
                 view_user_answer := [] |}).
Proof.
  destruct (saved_quiz_read_back still_clock #"s1" two_questions #"fractions" 5
              (answer 1 #"c" fresh_quiz).1)
    as (db' & Hrun & _ & Hget & _).
  - repeat constructor; by eexists.
  - rewrite Hrun. exact (Hget 1 _ eq_refl).
Defined.

(** X11.  [db_add_to_chat_history] keeps a rolling history: on a stored
    session it appends the new turn and keeps the last 20 entries, so
    afterwards the history has at most 20 entries, ends with the new turn
    and is the tail of the old history with the turn appended; progress and
    questions are untouched.  For an unknown session it changes nothing and
    returns the error. *)
Theorem chat_history_rolls (timestamp updated_at : str) (session_id : str)
    (student_message tallya_reply : str) (db : quiz_db) :
  (∀ session,
     db.(session_table) !! session_id = Some session →
     ∃ db' session',
       db_add_to_chat_history timestamp updated_at session_id student_message
         tallya_reply db = (db', true)
       ∧ db'.(session_table) !! session_id = Some session'
       ∧ length session'.(history) ≤ 20
       ∧ last session'.(history) = Some (timestamp, student_message, tallya_reply)
       ∧ session'.(history)
         `suffix_of` session.(history) ++ [(timestamp, student_message, tallya_reply)]
       ∧ (length session.(history) < 20 →
          session'.(history)
          = session.(history) ++ [(timestamp, student_message, tallya_reply)])
       ∧ (session'.(state), session'.(current_question), session'.(score),
          session'.(total_questions))
         = (session.(state), session.(current_question), session.(score),
            session.(total_questions))
       ∧ db'.(quiz_table) = db.(quiz_table))
  ∧ (db.(session_table) !! session_id = None →
     db_add_to_chat_history timestamp updated_at session_id student_message
       tallya_reply db = (db, false)).
Proof.
  unfold db_add_to_chat_history. split.
  - intros session ->. do 2 eexists. split; [done|]. simpl.
    rewrite lookup_insert_eq. split; [done|]. simpl.
    set (new := (timestamp, student_message, tallya_reply)).
    rewrite length_app. simpl. split; [rewrite length_drop, length_app; simpl; lia|].
    split.
    { rewrite drop_app_le by lia. apply last_snoc. }
    split; [apply suffix_drop|]. split; [|done].
    intros Hlt. replace (length (history session) + 1 - 20) with 0 by lia. done.
  - by intros ->.
Qed.

(** X12.  The end of [generate_quiz_questions]: when parsing or saving
    fails, the reply is the error entry and the session table is as
    before (no session is made or reset); for questions that have their
    required keys, the questions are returned and the session item is made
    anew: in progress, at question 0 with score 0, an empty history and as
    many questions in total as the list holds. *)
Theorem generated_quiz_starts_session (now : nat → str) (session_now : str)
    (session_id : str) (topic : str) (grade : Z) (db : quiz_db) :
  (∀ e, store_generated_quiz now session_now session_id topic grade (inl e) db
        = (db, inl (#"Failed to generate quiz: " ++ exn_str e)))
  ∧ (∀ parsed db' msg,
       store_generated_quiz now session_now session_id topic grade parsed db
       = (db', inl msg) →
       db'.(session_table) = db.(session_table))
  ∧ (∀ quiz_items,
       Forall complete quiz_items →
       ∃ db',
         store_generated_quiz now session_now session_id topic grade
           (inr quiz_items) db = (db', inr quiz_items)
         ∧ db_get_session session_id db'
           = Some {| state := #"in_progress"; current_question := 0;
                     total_questions := Z.of_nat (length quiz_items);
                     score := 0; topic := topic; grade := grade; history := [];
                     started_at := session_now; updated_at := session_now |}).
Proof.
  split; [done|]. split.
  - intros [e|quiz_items] db' msg; simpl; [by intros [= <- _]|].
    unfold db_save_quiz.
    pose proof (QuizFacts.save_from_sessions now session_id 0 quiz_items topic grade db)
      as Hsess.
    destruct (db_save_quiz_from _ _ _ _ _ _ _) as [db1 [e|[]]]; [|done].
    by intros [= <- _].
  - intros quiz_items Hall.
    destruct (QuizFacts.save_from_complete now session_id 0 quiz_items topic grade db Hall)
      as (db1 & Hrun & _).
    simpl. unfold db_save_quiz. rewrite Hrun. eexists. split; [done|].
    unfold db_get_session, db_create_session. simpl. by rewrite lookup_insert_eq.
Qed.

Lemma generated_quiz_starts_session_two :
  ∃ db',
    store_generated_quiz still_clock #"2025-01-01 11:00:00" #"s1" #"fractions" 5
      (inr two_questions) (answer 0 #"A" fresh_quiz).1 = (db', inr two_questions)
    ∧ db_get_session #"s1" db'
      = Some {| state := #"in_progress"; current_question := 0;
                total_questions := Z.of_nat (length two_questions);
                score := 0; topic := #"fractions"; grade := 5; history := [];
                started_at := #"2025-01-01 11:00:00";
                updated_at := #"2025-01-01 11:00:00" |}.
Proof.
  apply (generated_quiz_starts_session still_clock #"2025-01-01 11:00:00" #"s1"
           #"fractions" 5 (answer 0 #"A" fresh_quiz).1).
  repeat constructor; by eexists.
Defined.

(** ** More facts about the chat table and the turn coordinator *)

Module HandlerMore.
Import dynamodb_factory main_handler HandlerFacts.

Lemma writes_db_put i w : writes (db_put i w) = writes w ++ [i].
Proof. unfold writes, db_put. simpl. by rewrite omap_app. Qed.

Lemma writes_posts_only w w' : posts_only w w' → writes w' = writes w.
Proof.
  intros [_ (tr & Htr & Hall)]. unfold writes. rewrite Htr, omap_app.
  rewrite <- (app_nil_r (omap _ (trace w))) at 2. f_equal.
  clear Htr. induction Hall as [|e tr He _ IH]; [done|].
  destruct e; simpl in *; (exact IH || done).
Qed.

Lemma writes_push E conn p w : writes (push_to_client E conn p w) = writes w.
Proof. apply writes_posts_only, push_posts_only. Qed.

Lemma table_push E conn p w : (push_to_client E conn p w).(chat_table) = w.(chat_table).
Proof. apply (push_posts_only E conn p w). Qed.

Lemma post_ok_returns E conn p w :
  (∀ n, E.(post_ok) n = true) →
  post_to_connection E conn p w
  = (World w.(chat_table) (w.(trace) ++ [Posted conn p]), inr ()).
Proof. intros Hok. unfold post_to_connection. by rewrite Hok. Qed.

Lemma deliver_ok_returns E conn sid uin frags acc w :
  (∀ n, E.(post_ok) n = true) →
  ∃ w' acc', deliver E conn sid uin frags acc w = (w', inr acc').
Proof.
  intros Hok. revert acc w. induction frags as [|f frags IH]; intros acc w; simpl.
  - by do 2 eexists.
  - destruct (deliverable f); [|apply IH].
    rewrite post_ok_returns by done. apply IH.
Qed.

(** A turn in which every delivery succeeds and the generator does not
    raise. *)
Lemma stream_ok_returns E agent conn sid uid uin w :
  (∀ n, E.(post_ok) n = true) →
  (E.(stream_async) agent).(raises) = None →
  let agent_response :=
    Py.join (filter (λ f, deliverable f = true) (E.(stream_async) agent).(yields)) in
  let turn :=
    chat_repository.to_item
      (chat_repository.initialize_chat_agent E.(now_agent_chat) uid agent_response sid) in
  ∃ w', stream_to_client_and_persist E agent conn sid uid uin w = (w', inr agent_response)
        ∧ w'.(chat_table) = put_item turn w.(chat_table)
        ∧ writes w' = writes w ++ [turn].
Proof.
  intros Hok Hraise. unfold stream_to_client_and_persist, stream_body.
  rewrite post_ok_returns by done.
  destruct (deliver_ok_returns E conn sid uin (yields (stream_async E agent)) []
              (World (chat_table w)
                 (trace w ++ [Posted conn (StreamEvent sid uin [] #"start_of_message")]))
              Hok) as (w2 & acc & Hd).
  rewrite Hd, Hraise.
  pose proof (deliver_posts_only E conn sid uin (yields (stream_async E agent)) []
                (World (chat_table w)
                   (trace w ++ [Posted conn (StreamEvent sid uin [] #"start_of_message")])))
    as Hpo.
  rewrite Hd in Hpo. simpl in Hpo.
  apply deliver_returned in Hd as [-> Hw2]. simpl in Hw2.
  rewrite post_ok_returns by done. simpl. eexists. split; [done|].
  split; [by rewrite (proj1 Hpo)|].
  rewrite writes_db_put. f_equal.
  assert (posts_only w w2) as Hw.
  { eapply posts_only_trans; [|exact Hpo].
    split; [done|]. eexists. split; [done|]. by repeat constructor. }
  transitivity (writes w2); [|by apply writes_posts_only].
  apply writes_posts_only. split; [done|]. eexists. split; [done|].
  by repeat constructor.
Qed.

Lemma Forall_filtered {A} (P : A → Prop) (Q : A → Prop) `{∀ x, Decision (Q x)} l :
  Forall P l → Forall P (filter Q l).
Proof.
  rewrite !Forall_forall. intros Hl x [_ Hx]%list_elem_of_filter. by apply Hl.
Qed.

(** The query never invents items: what holds of every item of the table
    holds of every item returned. *)
Lemma insert_by_SK_Forall (P : item → Prop) i l :
  P i → Forall P l → Forall P (insert_by_SK i l).
Proof.
  intros Hi. induction 1 as [|j l Hj Hl IH]; simpl; [by repeat constructor|].
  case_match; by repeat constructor.
Qed.

Lemma ddb_query_Forall (P : item → Prop) t key forward limit :
  Forall P t → Forall P (ddb_query t key forward limit).
Proof.
  intros Ht. unfold ddb_query.
  assert (Forall P (foldr insert_by_SK [] (filter (λ j, PK j = key) t))) as Hs.
  { assert (Forall P (filter (λ j, PK j = key) t)) as Hf by by apply Forall_filtered.
    induction Hf; simpl; [done|]. by apply insert_by_SK_Forall. }
  assert (Forall P (if forward then foldr insert_by_SK [] (filter (λ j, PK j = key) t)
                    else reverse (foldr insert_by_SK [] (filter (λ j, PK j = key) t))))
    as Ho by (destruct forward; [done|by apply Forall_reverse]).
  destruct limit; [by apply Forall_take|done].
Qed.

Lemma insert_by_SK_length i l : length (insert_by_SK i l) = S (length l).
Proof. induction l as [|j l IH]; simpl; [done|]. case_match; simpl; lia. Qed.

Lemma sorted_length l : length (foldr insert_by_SK [] l) = length l.
Proof. induction l as [|i l IH]; simpl; [done|]. by rewrite insert_by_SK_length, IH. Qed.

Lemma put_item_Forall (P : item → Prop) i t : P i → Forall P t → Forall P (put_item i t).
Proof.
  intros Hi Ht. unfold put_item. apply Forall_app. split; [|by repeat constructor].
  by apply Forall_filtered.
Qed.

Lemma of_items_ok l :
  Forall (λ i, is_Some i.(item_session_id)) l →
  ∃ cs, chat_repository.of_items l = inr cs ∧ length cs = length l.
Proof.
  induction 1 as [|i l [sid Hi] _ (cs & IH & Hlen)]; simpl; [by eexists|].
  unfold chat_repository.of_item. rewrite Hi, IH. eexists. split; [done|].
  simpl. by rewrite Hlen.
Qed.

Lemma of_items_length l cs :
  chat_repository.of_items l = inr cs → length cs = length l.
Proof.
  revert cs. induction l as [|i l IH]; intros cs; simpl; [by intros [= <-]|].
  destruct (chat_repository.of_item i); [done|].
  destruct (chat_repository.of_items l); [done|].
  intros [= <-]. simpl. f_equal. by apply IH.
Qed.

Lemma of_items_messages l cs :
  chat_repository.of_items l = inr cs →
  (λ c, (c.(chat_model.role), c.(chat_model.message))) <$> cs
  = (λ i, (i.(item_role), i.(item_message))) <$> l.
Proof.
  revert cs. induction l as [|i l IH]; intros cs; simpl; [by intros [= <-]|].
  unfold chat_repository.of_item at 1. destruct (item_session_id i); [|done].
  destruct (chat_repository.of_items l); [done|].
  intros [= <-]. simpl. f_equal. by apply IH.
Qed.

(** The newest [n] items, put back in time order, are the last items of
    the time order. *)
Lemma newest_reversed {A} (l : list A) (n : nat) :
  reverse (take n (reverse l)) = drop (length l - length (take n (reverse l))) l.
Proof.
  rewrite take_reverse, reverse_involutive, length_reverse, length_drop.
  f_equal. lia.
Qed.

(** [str_leb] is a total order test. *)
Lemma str_leb_total a b : str_leb a b = false → str_leb b a = true.
Proof.
  revert b. induction a as [|x a IH]; intros [|y b]; simpl; try done.
  intros H. apply orb_false_iff in H as [H1 H2].
  apply N.ltb_ge in H1. apply andb_false_iff in H2.
  apply orb_true_iff.
  destruct (decide (y < x)%N) as [Hlt|Hge].
  - left. by apply N.ltb_lt.
  - right. assert (x = y) as Heq by lia.
    apply andb_true_iff. split; [apply N.eqb_eq; lia|].
    destruct H2 as [H2|H2]; [apply N.eqb_neq in H2; lia|by apply IH].
Qed.

Lemma str_leb_refl a : str_leb a a = true.
Proof.
  induction a as [|x a IH]; simpl; [done|].
  rewrite N.eqb_refl, IH. by rewrite orb_true_r.
Qed.

Lemma insert_by_SK_elem i j l : j ∈ insert_by_SK i l ↔ j = i ∨ j ∈ l.
Proof.
  induction l as [|k l IH]; simpl.
  - rewrite list_elem_of_singleton, elem_of_nil. tauto.
  - case_match; rewrite !elem_of_cons; [done|]. rewrite IH. tauto.
Qed.

Lemma sorted_elem j l : j ∈ foldr insert_by_SK [] l ↔ j ∈ l.
Proof.
  induction l as [|i l IH]; simpl; [done|].
  rewrite insert_by_SK_elem, elem_of_cons, IH. done.
Qed.

(** An item that sorts strictly before every other one comes first. *)
Lemma sorted_head i l :
  i ∈ l →
  (∀ j, j ∈ l → j = i ∨ str_leb (SK j) (SK i) = false) →
  head (foldr insert_by_SK [] l) = Some i.
Proof.
  induction l as [|x l IH]; intros Hin Hmin; [by apply not_elem_of_nil in Hin|].
  simpl. destruct (Hmin x) as [->|Hx]; [left| |].
  - destruct (foldr insert_by_SK [] l) as [|h s] eqn:Hs; simpl; [done|].
    assert (str_leb (SK i) (SK h) = true) as ->; [|done].
    destruct (Hmin h) as [->|Hh]; [| apply str_leb_refl | by apply str_leb_total].
    right. apply sorted_elem. rewrite Hs. left.
  - assert (i ∈ l) as Hin'.
    { apply elem_of_cons in Hin as [->|?]; [|done].
      by rewrite str_leb_refl in Hx. }
    specialize (IH Hin' (λ j Hj, Hmin j (list_elem_of_further _ _ _ Hj))).
    destruct (foldr insert_by_SK [] l) as [|h s]; [done|].
    simpl in IH. injection IH as ->. simpl. by rewrite Hx.
Qed.

Lemma session_item_round_trip u :
  user_session_repository.of_item (user_session_repository.to_item u) = inr u.
Proof.
  destruct u as [uid ts sid title summary del ended mc mcs].
  unfold user_session_repository.of_item, user_session_repository.to_item. simpl.
  by case_bool_decide; subst.
Qed.

(** [async_handler] from the agent lookup on, for a request that passed
    the checks and whose session was resolved, over a table whose items
    all carry a session id. *)
Lemma handler_steps E ev b w session_id user_session w1 :
  ev.(event_body) = Some b →
  truthy ev.(connectionId) && truthy ev.(domainName) && truthy ev.(stage) = true →
  truthy b.(body_user_id) && truthy b.(body_user_input) = true →
  let connection_id := default [] ev.(connectionId) in
  let user_id := default [] b.(body_user_id) in
  let user_input := default [] b.(body_user_input) in
  session_handling E user_id b.(body_session_id) connection_id
    (push_to_client E connection_id (Processing connection_id) w)
  = (w1, inr (session_id, user_session)) →
  Forall (λ i, is_Some i.(item_session_id)) w1.(chat_table) →
  let w2 :=
    db_put (user_session_repository.to_item
              (user_session_model.set_message_count
                 (user_session.(user_session_model.message_count) + 1) user_session))
      (db_put (chat_repository.to_item
                 (chat_repository.initialize_chat_user E.(now_user_chat)
                    user_id user_input session_id b.(body_file_input))) w1) in
  ∃ chat_messages,
    let w3 := push_to_client E connection_id
                (ChatContext session_id user_id chat_messages
                   (bool_decide (is_Some b.(body_file_input))) connection_id) w2 in
    async_handler E ev w
    = match get_agent (default #"general" b.(body_agent)) with
      | inl e =>
          (push_to_client E connection_id (ErrorResponse (exn_str e) connection_id) w3,
           Response 400 (error (exn_str e)))
      | inr agent_module =>
          match stream_to_client_and_persist E agent_module connection_id session_id
                  user_id (default user_input (Py.dict_get #"user_input" b.(body_payload)))
                  w3 with
          | (w4, inr _) => (w4, Response 200 (message #"OK"))
          | (w4, inl e) =>
              (push_to_client E connection_id (ErrorResponse (exn_str e) connection_id) w4,
               Response 500 (error (exn_str e)))
          end
      end.
Proof.
  intros Hb Hctx Hreq connection_id user_id user_input Hsess Hall w2.
  assert (∃ chat_messages, compile_history E b session_id
            (user_session_model.set_message_count
               (user_session.(user_session_model.message_count) + 1) user_session) w2
          = inr chat_messages) as [chat_messages Hcomp].
  { unfold compile_history, chat_repository.compile_chat_history.
    destruct (of_items_ok
                (ddb_query (chat_table w2) session_id false
                   (limit_param (CONTEXT_WINDOW E * 2)))) as (cs & -> & _).
    - apply ddb_query_Forall. subst w2. simpl.
      apply put_item_Forall; [by eexists|]. apply put_item_Forall; [by eexists|]. done.
    - case_match; by eexists. }
  exists chat_messages. unfold async_handler.
  rewrite Hb, Hctx, Hreq. simpl. fold connection_id user_id user_input.
  rewrite Hsess. fold w2. rewrite Hcomp. done.
Qed.

(** A turn in which every delivery succeeds and the generator raises. *)
Lemma stream_raise_returns E agent conn sid uid uin w e :
  (∀ n, E.(post_ok) n = true) →
  (E.(stream_async) agent).(raises) = Some e →
  ∃ w', stream_to_client_and_persist E agent conn sid uid uin w = (w', inl e)
        ∧ posts_only w w'.
Proof.
  intros Hok Hraise.
  assert (∃ w1, stream_body E agent conn sid uid uin w = (w1, inl e)) as [w1 Hbody].
  { unfold stream_body. rewrite post_ok_returns by done.
    destruct (deliver_ok_returns E conn sid uin (yields (stream_async E agent)) []
                (World (chat_table w)
                   (trace w ++ [Posted conn (StreamEvent sid uin [] #"start_of_message")]))
                Hok) as (w2 & acc & ->).
    rewrite Hraise. by eexists. }
  unfold stream_to_client_and_persist. rewrite Hbody. eexists. split; [done|].
  eapply posts_only_trans; [by eapply stream_body_raised|apply post_posts_only].
Qed.

Lemma new_session_handling E user_id session_id conn w :
  truthy session_id = false →
  session_handling E user_id session_id conn w
  = (db_put (user_session_repository.to_item
               (user_session_repository.initialize_user_session E.(now_session) user_id
                  (user_session_repository.construct_session_id E.(random) user_id)
                  [] #"New Chat")) w,
     inr (user_session_repository.construct_session_id E.(random) user_id,
          user_session_repository.initialize_user_session E.(now_session) user_id
            (user_session_repository.construct_session_id E.(random) user_id)
            [] #"New Chat")).
Proof. intros H. unfold session_handling. by rewrite H. Qed.

End HandlerMore.

(** ** The turn coordinator: further results *)

(** X13.  A request turned away by one of the checks made before the
    session is resolved (a body that is not JSON, a missing connection id,
    domain or stage, a missing user id or input) is answered 400 and
    leaves the chat table alone: nothing is written, and in the first two
    cases nothing is posted either. *)
Theorem early_rejection_writes_nothing (E : env) (ev : event) (w : world) :
  rejected_early ev = true →
  (async_handler E ev w).2.(statusCode) = 400%Z
  ∧ (async_handler E ev w).1.(chat_table) = w.(chat_table)
  ∧ writes (async_handler E ev w).1 = writes w
  ∧ ((ev.(event_body) = None
      ∨ truthy ev.(connectionId) && truthy ev.(domainName) && truthy ev.(stage) = false) →
     (async_handler E ev w).1 = w).
Proof.
  unfold rejected_early, async_handler.
  destruct (event_body ev) as [b|]; [|by intros _].
  destruct (truthy (connectionId ev) && truthy (domainName ev) && truthy (stage ev));
    simpl; [|by intros _].
  intros ->. simpl.
  rewrite HandlerMore.table_push, HandlerMore.writes_push.
  repeat split. by intros [?|?].
Qed.

Lemma early_rejection_no_user_input :
  (async_handler calm_env
     {| event_body := Some {| body_agent := None; body_user_id := Some #"bob";
                              body_user_input := Some []; body_session_id := None;
                              body_file_input := None; body_payload := [] |};
        domainName := Some #"ws.example.org"; stage := Some #"prod";
        connectionId := Some #"c1" |} (World alice_table [])).2.(statusCode) = 400%Z
  ∧ (async_handler calm_env
       {| event_body := Some {| body_agent := None; body_user_id := Some #"bob";
                                body_user_input := Some []; body_session_id := None;
                                body_file_input := None; body_payload := [] |};
          domainName := Some #"ws.example.org"; stage := Some #"prod";
          connectionId := Some #"c1" |} (World alice_table [])).1.(chat_table)
    = alice_table.
Proof.
  destruct (early_rejection_writes_nothing calm_env
              {| event_body := Some {| body_agent := None; body_user_id := Some #"bob";
                                       body_user_input := Some [];
                                       body_session_id := None;
                                       body_file_input := None; body_payload := [] |};
                 domainName := Some #"ws.example.org"; stage := Some #"prod";
                 connectionId := Some #"c1" |} (World alice_table []))
    as (H1 & H2 & _); [reflexivity|].
  split; [exact H1|exact H2].
Defined.

(** X14.  An unknown agent name is found out only after the user's turn
    is stored: for a request that passed the checks and whose session was
    resolved, the answer is 400 with the [ValueError] text, and by then the
    user's chat item and the session item with its message count raised by
    one have been written; nothing else is. *)
Theorem unknown_agent_after_user_turn (E : env) (ev : event) (b : body) (w w1 : world)
    (session_id : str) (user_session : user_session_model.UserSession) (e : exn) :
  ev.(event_body) = Some b →
  truthy ev.(connectionId) && truthy ev.(domainName) && truthy ev.(stage) = true →
  truthy b.(body_user_id) && truthy b.(body_user_input) = true →
  session_handling E (default [] b.(body_user_id)) b.(body_session_id)
    (default [] ev.(connectionId))
    (push_to_client E (default [] ev.(connectionId))
       (Processing (default [] ev.(connectionId))) w)
  = (w1, inr (session_id, user_session)) →
  Forall (λ i, is_Some i.(item_session_id)) w1.(chat_table) →
  get_agent (default #"general" b.(body_agent)) = inl e →
  (async_handler E ev w).2 = Response 400 (error (exn_str e))
  ∧ exn_str e = #"Unknown agent: " ++ default #"general" b.(body_agent)
  ∧ writes (async_handler E ev w).1
    = writes w1
      ++ [chat_repository.to_item
            (chat_repository.initialize_chat_user E.(now_user_chat)
               (default [] b.(body_user_id)) (default [] b.(body_user_input))
               session_id b.(body_file_input));
          user_session_repository.to_item
            (user_session_model.set_message_count
               (user_session.(user_session_model.message_count) + 1) user_session)].
Proof.
  intros Hb Hctx Hreq Hsess Hall Hagent.
  destruct (HandlerMore.handler_steps E ev b w session_id user_session w1
              Hb Hctx Hreq Hsess Hall) as [chat_messages ->].
  rewrite Hagent. simpl. split; [done|]. split.
  - unfold get_agent in Hagent. repeat case_match; try done. by injection Hagent as <-.
  - rewrite !HandlerMore.writes_push, !HandlerMore.writes_db_put.
    by rewrite <- app_assoc.
Qed.

(** X15.  A turn handled to the end, for a request that passed the checks
    and whose session was resolved, when every delivery succeeds and the
    generator does not raise: the answer is 200, and after the session was
    resolved exactly three items are written, in this order: the user's
    chat item, the session item with its message count raised by one (the
    assistant's turn is not counted), and the assistant's chat item holding
    the delivered fragments put together. *)
Theorem handled_turn_writes (E : env) (ev : event) (b : body) (w w1 : world)
    (session_id : str) (user_session : user_session_model.UserSession)
    (agent : agent_module) :
  ev.(event_body) = Some b →
  truthy ev.(connectionId) && truthy ev.(domainName) && truthy ev.(stage) = true →
  truthy b.(body_user_id) && truthy b.(body_user_input) = true →
  session_handling E (default [] b.(body_user_id)) b.(body_session_id)
    (default [] ev.(connectionId))
    (push_to_client E (default [] ev.(connectionId))
       (Processing (default [] ev.(connectionId))) w)
  = (w1, inr (session_id, user_session)) →
  Forall (λ i, is_Some i.(item_session_id)) w1.(chat_table) →
  get_agent (default #"general" b.(body_agent)) = inr agent →
  (∀ n, E.(post_ok) n = true) →
  (E.(main_handler.stream_async) agent).(raises) = None →
  let user_turn :=
    chat_repository.to_item
      (chat_repository.initialize_chat_user E.(now_user_chat)
         (default [] b.(body_user_id)) (default [] b.(body_user_input))
         session_id b.(body_file_input)) in
  let session_record :=
    user_session_repository.to_item
      (user_session_model.set_message_count
         (user_session.(user_session_model.message_count) + 1) user_session) in
  let assistant_turn :=
    chat_repository.to_item
      (chat_repository.initialize_chat_agent E.(now_agent_chat)
         (default [] b.(body_user_id))
         (Py.join (filter (λ f, deliverable f = true) (E.(main_handler.stream_async) agent).(yields)))
         session_id) in
  (async_handler E ev w).2 = Response 200 (message #"OK")
  ∧ writes (async_handler E ev w).1
    = writes w1 ++ [user_turn; session_record; assistant_turn]
  ∧ (async_handler E ev w).1.(chat_table)
    = put_item assistant_turn (put_item session_record (put_item user_turn w1.(chat_table))).
Proof.
  intros Hb Hctx Hreq Hsess Hall Hagent Hok Hraise.
  destruct (HandlerMore.handler_steps E ev b w session_id user_session w1
              Hb Hctx Hreq Hsess Hall) as [chat_messages ->].
  rewrite Hagent.
  match goal with
  | |- context [stream_to_client_and_persist ?E ?a ?c ?s ?u ?i ?w3] =>
      destruct (HandlerMore.stream_ok_returns E a c s u i w3 Hok Hraise)
        as (w4 & -> & Htab & Hwr)
  end.
  simpl. split; [done|]. rewrite Hwr, Htab.
  rewrite !HandlerMore.writes_push, !HandlerMore.writes_db_put, HandlerMore.table_push.
  split; [by rewrite <- !app_assoc|done].
Qed.

Lemma handled_turn_writes_new_session :
  (async_handler calm_env (request #"bob" None) (World alice_table [])).2
  = Response 200 (message #"OK")
  ∧ writes (async_handler calm_env (request #"bob" None) (World alice_table [])).1
    = [user_session_repository.to_item
         (user_session_repository.initialize_user_session
            #"2025-01-01 10:00:00" #"bob" #"bob-dkryFMT0" [] #"New Chat");
       chat_repository.to_item
         (chat_repository.initialize_chat_user #"2025-01-01 10:00:00.250"
            #"bob" #"hello" #"bob-dkryFMT0" None);
       user_session_repository.to_item
         (user_session_model.set_message_count 1
            (user_session_repository.initialize_user_session
               #"2025-01-01 10:00:00" #"bob" #"bob-dkryFMT0" [] #"New Chat"));
       chat_repository.to_item
         (chat_repository.initialize_chat_agent #"2025-01-01 10:00:03.500"
            #"bob" #"Hithere" #"bob-dkryFMT0")].
Proof.
  destruct (handled_turn_writes calm_env (request #"bob" None) _
              (World alice_table []) _ _ _ general eq_refl
              ltac:(reflexivity) ltac:(reflexivity)
              (HandlerMore.new_session_handling calm_env #"bob" None #"c1" _ eq_refl))
    as (H1 & H2 & _).
  - repeat constructor; by eexists.
  - reflexivity.
  - reflexivity.
  - reflexivity.
  - split; [exact H1|exact H2].
Defined.

Lemma unknown_agent_after_user_turn_nurse :
  (async_handler calm_env
     {| event_body := Some {| body_agent := Some #"nurse"; body_user_id := Some #"bob";
                              body_user_input := Some #"hello";
                              body_session_id := None;
                              body_file_input := None; body_payload := [] |};
        domainName := Some #"ws.example.org"; stage := Some #"prod";
        connectionId := Some #"c1" |} (World alice_table [])).2
  = Response 400 (error #"Unknown agent: nurse").
Proof.
  pose (ev := {| event_body := Some {| body_agent := Some #"nurse";
                                       body_user_id := Some #"bob";
                                       body_user_input := Some #"hello";
                                       body_session_id := None;
                                       body_file_input := None; body_payload := [] |};
                 domainName := Some #"ws.example.org"; stage := Some #"prod";
                 connectionId := Some #"c1" |}).
  destruct (unknown_agent_after_user_turn calm_env ev _
              (World alice_table []) _ _ _ (ValueError #"Unknown agent: nurse")
              eq_refl ltac:(reflexivity) ltac:(reflexivity)
              (HandlerMore.new_session_handling calm_env #"bob" None #"c1" _ eq_refl))
    as (H1 & _).
  - repeat constructor; by eexists.
  - reflexivity.
  - exact H1.
Defined.

(** X16.  When the agent's generator raises during a turn whose
    deliveries all succeed, [async_handler] answers 500 with the
    exception's text; the user's chat item and the raised message count
    stay written, and no assistant item is written. *)
Theorem failed_stream_keeps_user_turn (E : env) (ev : event) (b : body) (w w1 : world)
    (session_id : str) (user_session : user_session_model.UserSession)
    (agent : agent_module) (e : exn) :
  ev.(event_body) = Some b →
  truthy ev.(connectionId) && truthy ev.(domainName) && truthy ev.(stage) = true →
  truthy b.(body_user_id) && truthy b.(body_user_input) = true →
  session_handling E (default [] b.(body_user_id)) b.(body_session_id)
    (default [] ev.(connectionId))
    (push_to_client E (default [] ev.(connectionId))
       (Processing (default [] ev.(connectionId))) w)
  = (w1, inr (session_id, user_session)) →
  Forall (λ i, is_Some i.(item_session_id)) w1.(chat_table) →
  get_agent (default #"general" b.(body_agent)) = inr agent →
  (∀ n, E.(post_ok) n = true) →
  (E.(main_handler.stream_async) agent).(raises) = Some e →
  let user_turn :=
    chat_repository.to_item
      (chat_repository.initialize_chat_user E.(now_user_chat)
         (default [] b.(body_user_id)) (default [] b.(body_user_input))
         session_id b.(body_file_input)) in
  let session_record :=
    user_session_repository.to_item
      (user_session_model.set_message_count
         (user_session.(user_session_model.message_count) + 1) user_session) in
  (async_handler E ev w).2 = Response 500 (error (exn_str e))
  ∧ writes (async_handler E ev w).1 = writes w1 ++ [user_turn; session_record]
  ∧ (async_handler E ev w).1.(chat_table)
    = put_item session_record (put_item user_turn w1.(chat_table)).
Proof.
  intros Hb Hctx Hreq Hsess Hall Hagent Hok Hraise.
  destruct (HandlerMore.handler_steps E ev b w session_id user_session w1
              Hb Hctx Hreq Hsess Hall) as [chat_messages ->].
  rewrite Hagent.
  match goal with
  | |- context [stream_to_client_and_persist ?E ?a ?c ?s ?u ?i ?w3] =>
      destruct (HandlerMore.stream_raise_returns E a c s u i w3 e Hok Hraise)
        as (w4 & -> & Hpo)
  end.
  simpl. split; [done|].
  rewrite HandlerMore.writes_push, HandlerMore.table_push.
  rewrite (HandlerMore.writes_posts_only _ _ Hpo), (proj1 Hpo).
  rewrite !HandlerMore.writes_push, !HandlerMore.writes_db_put, HandlerMore.table_push.
  split; [by rewrite <- !app_assoc|done].
Qed.

(** X17.  [get_user_session] finds a stored session: when the session's
    item is in the table and sorts before every other item stored under the
    session id (as it does when the chat turns carry later time stamps), the
    lookup returns the session object as it was saved. *)
Theorem stored_session_is_found (t : table) (u : user_session_model.UserSession)
    (user_id : str) :
  user_session_repository.to_item u ∈ t →
  (∀ j, j ∈ t → PK j = u.(user_session_model.session_id) →
        j = user_session_repository.to_item u
        ∨ str_leb (SK j) u.(user_session_model.timestamp) = false) →
  user_session_repository.get_user_session t user_id u.(user_session_model.session_id)
  = inr (Some u).
Proof.
  intros Hin Hmin. unfold user_session_repository.get_user_session, ddb_query.
  pose proof (HandlerMore.sorted_head (user_session_repository.to_item u)
                (filter (λ j, PK j = u.(user_session_model.session_id)) t)) as Hhead.
  destruct (foldr insert_by_SK [] _) as [|i rest].
  - exfalso. assert (@head item [] = Some (user_session_repository.to_item u)); [|done].
    apply Hhead.
    + by apply list_elem_of_filter.
    + intros j [Hpk Hj]%list_elem_of_filter. by apply Hmin.
  - assert (i = user_session_repository.to_item u) as ->.
    { assert (head (i :: rest) = Some (user_session_repository.to_item u)) as [= ->];
        [|done].
      apply Hhead.
      + by apply list_elem_of_filter.
      + intros j [Hpk Hj]%list_elem_of_filter. by apply Hmin. }
    change (limit_param 1) with (Some 1). cbn [take].
    by rewrite HandlerMore.session_item_round_trip.
Qed.

Lemma stored_session_is_found_alice :
  user_session_repository.get_user_session alice_table #"bob" #"alice-Ab12Cd34"
  = inr (Some alice_session).
Proof.
  apply (stored_session_is_found alice_table alice_session #"bob").
  - left.
  - intros j Hj _. apply elem_of_cons in Hj as [->|Hj]; [by left|].
    apply list_elem_of_singleton in Hj as ->. by right.
Defined.

(** X18.  The messages that [compile_chat_history] returns are the role
    and text of the last items stored under the session id, in the order
    of their sort keys, oldest first: no item is skipped between the first
    one returned and the newest.  With a positive context window there are
    at most twice the window of them, and there is at least one when an
    item is stored under the session id. *)
Theorem history_window (t : table) (session_id : str) (context_window : nat)
    (messages : list chat_repository.chat_message) :
  chat_repository.compile_chat_history t session_id context_window = inr messages →
  let stored := foldr insert_by_SK [] (filter (λ j, PK j = session_id) t) in
  messages
  = (λ i, (i.(item_role), i.(item_message)))
      <$> drop (length stored - length messages) stored
  ∧ (0 < context_window → length messages ≤ 2 * context_window)
  ∧ (stored ≠ [] → messages ≠ []).
Proof.
  intros H stored. revert H. unfold chat_repository.compile_chat_history.
  destruct (chat_repository.of_items _) as [e|cs] eqn:Hcs; [done|].
  intros [= <-].
  apply HandlerMore.of_items_messages in Hcs.
  rewrite fmap_reverse, Hcs, <- fmap_reverse, !length_fmap, length_reverse.
  unfold ddb_query. fold stored.
  assert (∃ n, 0 < n ∧ (0 < context_window → n ≤ 2 * context_window)
               ∧ match limit_param (context_window * 2) with
                 | Some n => take n (reverse stored)
                 | None => reverse stored
                 end = take n (reverse stored)) as (n & Hn & Hw & ->).
  { unfold limit_param. destruct (context_window * 2 =? 0) eqn:E.
    - apply Nat.eqb_eq in E. exists (S (length stored)).
      split; [lia|]. split; [lia|]. by rewrite take_ge by (rewrite length_reverse; lia).
    - apply Nat.eqb_neq in E. exists (context_window * 2). repeat split; [lia..]. }
  split; [by rewrite HandlerMore.newest_reversed|].
  rewrite length_take, length_reverse. split; [lia|].
  intros Hne E%fmap_nil_inv%(f_equal length). rewrite length_reverse, length_take, length_reverse in E.
  destruct stored; [done|]. simpl in E. lia.
Qed.

Lemma chat_history_rolls_first_entry :
  (db_add_to_chat_history #"2025-01-01 11:02:00" #"2025-01-01 11:02:01" #"s1"
     #"Is it A?" #"Try it!" fresh_quiz).2 = true.
Proof.
  destruct (chat_history_rolls #"2025-01-01 11:02:00" #"2025-01-01 11:02:01" #"s1"
              #"Is it A?" #"Try it!" fresh_quiz) as [H _].
  edestruct H as (db' & session' & -> & _); [|reflexivity].
  vm_compute. reflexivity.
Defined.

Lemma failed_stream_keeps_user_turn_timeout :
  (async_handler timeout_env (request #"bob" None) (World alice_table [])).2
  = Response 500 (error #"read timeout").
Proof.
  destruct (failed_stream_keeps_user_turn timeout_env (request #"bob" None) _
              (World alice_table []) _ _ _ general (AgentFailure #"read timeout")
              eq_refl ltac:(reflexivity) ltac:(reflexivity)
              (HandlerMore.new_session_handling timeout_env #"bob" None #"c1" _ eq_refl))
    as (H1 & _).
  - repeat constructor; by eexists.
  - reflexivity.
  - reflexivity.
  - reflexivity.
  - exact H1.
Defined.

Lemma history_window_newest_two :
  chat_repository.compile_chat_history alice_replied_table #"alice-Ab12Cd34" 1
  = inr [(#"user", #"What is a noun?"); (#"assistant", #"A noun names a thing.")]
  ∧ length (filter (λ j, PK j = #"alice-Ab12Cd34") alice_replied_table) = 3.
Proof.
  destruct (chat_repository.compile_chat_history alice_replied_table #"alice-Ab12Cd34" 1)
    as [e|messages] eqn:H.
  - vm_compute in H. discriminate H.
  - destruct (history_window alice_replied_table #"alice-Ab12Cd34" 1 messages H)
      as (Hm & Hw & _).
    specialize (Hw ltac:(lia)).
    destruct messages as [|m1 [|m2 [|m3 messages]]]; [| | |simpl in Hw; lia];
      vm_compute in H; try discriminate H.
    split; [|reflexivity]. rewrite Hm. vm_compute. reflexivity.
Defined.

(** ** The prompt context ([chat_context/context_manager.py]) *)

Module ContextFacts.

Lemma context_fold (l : list item) (acc : str) :
  foldl (λ context i, context ++ context_manager.context_line i) acc l
  = acc ++ Py.join (context_manager.context_line <$> l).
Proof.
  revert acc. induction l as [|i l IH]; intros acc; simpl.
  - by rewrite app_nil_r.
  - rewrite IH. unfold Py.join. simpl. by rewrite app_assoc.
Qed.

Lemma context_line_nonempty i : context_manager.context_line i ≠ [].
Proof. unfold context_manager.context_line. by case_bool_decide. Qed.

Lemma context_empty t session_id limit :
  context_manager.get_chat_context t session_id limit = []
  ↔ ddb_query t session_id false (Some limit) = [].
Proof.
  unfold context_manager.get_chat_context. rewrite context_fold.
  generalize (ddb_query t session_id false (Some limit)). intros l. simpl. split.
  - destruct l as [|i l _] using rev_ind; [done|].
    rewrite reverse_snoc. unfold Py.join. simpl. intros H.
    apply app_eq_nil in H as [H _]. by apply context_line_nonempty in H.
  - by intros ->.
Qed.

Lemma query_empty t session_id limit :
  0 < limit →
  ddb_query t session_id false (Some limit) = []
  ↔ ∀ i, i ∈ t → PK i ≠ session_id.
Proof.
  intros Hpos. unfold ddb_query.
  set (found := filter (λ j, PK j = session_id) t).
  assert (length (take limit (reverse (foldr insert_by_SK [] found)))
          = Nat.min limit (length found)) as Hlen.
  { by rewrite length_take, length_reverse, HandlerMore.sorted_length. }
  split.
  - intros H i Hi Hpk. rewrite H in Hlen.
    assert (i ∈ found) as Hin by by apply list_elem_of_filter.
    destruct found; [by apply elem_of_nil in Hin|]. simpl in Hlen. lia.
  - intros H. assert (found = []) as ->; [|apply take_nil].
    destruct found as [|i l] eqn:E; [done|].
    assert (i ∈ filter (λ j, PK j = session_id) t) as [Hpk Hi]%list_elem_of_filter.
    { fold found. rewrite E. left. }
    by destruct (H i Hi).
Qed.

End ContextFacts.

(** X19.  [build_message_with_context] hands the agent the bare message
    exactly when nothing is stored under the session id; as soon as one
    item is, the prompt is longer than the message: it opens with the
    [Previous conversation:] header and ends with the message after
    [Current message: ]. *)
Theorem context_only_with_history (t : table) (session_id current_message : str) :
  (context_manager.build_message_with_context t session_id current_message
   = current_message
   ↔ ∀ i, i ∈ t → PK i ≠ session_id)
  ∧ ∃ chat_history,
      context_manager.build_message_with_context t session_id current_message
      = current_message
      ∨ (chat_history ≠ []
         ∧ context_manager.build_message_with_context t session_id current_message
           = #"Previous conversation:" ++ [LF] ++ chat_history
             ++ #"Current message: " ++ current_message).
Proof.
  unfold context_manager.build_message_with_context.
  pose proof (ContextFacts.context_empty t session_id 10) as Hce.
  pose proof (ContextFacts.query_empty t session_id 10 ltac:(lia)) as Hqe.
  case_bool_decide as Hc.
  - split; [|exists []; by left]. split; [|done]. intros _. by apply Hqe, Hce.
  - split.
    + split.
      * intros H. apply (f_equal length) in H. rewrite !length_app in H.
        simpl in H. lia.
      * intros H. by apply Hqe, Hce in H.
    + eexists. right. split; [exact Hc|done].
Qed.

Lemma context_only_with_history_new_session :
  context_manager.build_message_with_context alice_table #"bob-Xy12" #"hello"
  = #"hello".
Proof.
  apply (proj1 (context_only_with_history alice_table #"bob-Xy12" #"hello")).
  intros i Hi. apply elem_of_cons in Hi as [->|Hi]; [done|].
  by apply list_elem_of_singleton in Hi as ->.
Defined.

(** X20.  The record of the session is itself an item under the session
    id, with an empty role and message, so the context shows it as an empty
    [Assistant: ] line: when the session's item sorts before the chat turns
    and at most 10 items are stored under the id, the prompt made by
    [build_message_with_context] starts with the header followed by that
    empty line. *)
Theorem session_record_in_context (t : table) (u : user_session_model.UserSession)
    (current_message : str) :
  user_session_repository.to_item u ∈ t →
  (∀ j, j ∈ t → PK j = u.(user_session_model.session_id) →
        j = user_session_repository.to_item u
        ∨ str_leb (SK j) u.(user_session_model.timestamp) = false) →
  length (filter (λ j, PK j = u.(user_session_model.session_id)) t) ≤ 10 →
  ∃ turns,
    context_manager.build_message_with_context t
      u.(user_session_model.session_id) current_message
    = #"Previous conversation:" ++ [LF] ++ #"Assistant: " ++ [LF] ++ turns
      ++ #"Current message: " ++ current_message.
Proof.
  intros Hin Hmin Hlen.
  unfold context_manager.build_message_with_context,
    context_manager.get_chat_context, ddb_query.
  set (found := filter (λ j, PK j = u.(user_session_model.session_id)) t) in *.
  rewrite take_ge by by rewrite length_reverse, HandlerMore.sorted_length.
  rewrite reverse_involutive, ContextFacts.context_fold.
  pose proof (HandlerMore.sorted_head (user_session_repository.to_item u) found) as Hhead.
  destruct (foldr insert_by_SK [] found) as [|i rest].
  - exfalso. assert (@head item [] = Some (user_session_repository.to_item u)); [|done].
    apply Hhead.
    + by apply list_elem_of_filter.
    + intros j [Hpk Hj]%list_elem_of_filter. by apply Hmin.
  - assert (i = user_session_repository.to_item u) as ->.
    { assert (head (i :: rest) = Some (user_session_repository.to_item u)) as [= ->];
        [|done].
      apply Hhead.
      + by apply list_elem_of_filter.
      + intros j [Hpk Hj]%list_elem_of_filter. by apply Hmin. }
    exists (Py.join (context_manager.context_line <$> rest)).
    rewrite bool_decide_eq_false_2 by done.
    simpl. unfold Py.join. simpl. by rewrite <- ?app_assoc.
Qed.

Lemma session_record_in_context_alice :
  ∃ turns,
    context_manager.build_message_with_context alice_table #"alice-Ab12Cd34"
      #"And a verb?"
    = #"Previous conversation:" ++ [LF] ++ #"Assistant: " ++ [LF] ++ turns
      ++ #"Current message: " ++ #"And a verb?".
Proof.
  apply (session_record_in_context alice_table alice_session #"And a verb?").
  - left.
  - intros j Hj _. apply elem_of_cons in Hj as [->|Hj]; [by left|].
    apply list_elem_of_singleton in Hj as ->. by right.
  - vm_compute. lia.
Defined.

(** ** The turn coordinator: what every request leaves behind *)

Module TurnFacts.

Lemma stream_raised_posts_only E agent conn sid uid uin w w' e :
  stream_to_client_and_persist E agent conn sid uid uin w = (w', inl e) →
  posts_only w w'.
Proof.
  unfold stream_to_client_and_persist.
  destruct (stream_body _ _ _ _ _ _ _) as [w1 [e1|r]] eqn:Hb; [|done].
  intros [= <- <-]. apply HandlerFacts.stream_body_raised in Hb.
  eapply HandlerFacts.posts_only_trans; [exact Hb|apply HandlerFacts.post_posts_only].
Qed.

Lemma stream_returned_put E agent conn sid uid uin w w' r :
  stream_to_client_and_persist E agent conn sid uid uin w = (w', inr r) →
  ∃ w3, posts_only w w3
        ∧ w' = db_put (chat_repository.to_item
                         (chat_repository.initialize_chat_agent E.(now_agent_chat)
                            uid r sid)) w3.
Proof.
  unfold stream_to_client_and_persist, stream_body.
  pose proof (HandlerFacts.post_posts_only E conn
                (StreamEvent sid uin [] #"start_of_message") w) as H1.
  destruct (post_to_connection _ _ _ w) as [wa [?|[]]]; [done|].
  pose proof (HandlerFacts.deliver_posts_only E conn sid uin
                (yields (main_handler.stream_async E agent)) [] wa) as H2.
  destruct (deliver _ _ _ _ _ _ wa) as [wb [?|acc]]; [done|].
  destruct (raises _); [done|].
  pose proof (HandlerFacts.post_posts_only E conn
                (StreamEvent sid uin [] #"end_of_message") wb) as H3.
  destruct (post_to_connection _ _ _ wb) as [wc [?|[]]]; [done|].
  intros [= <- <-]. exists wc. split; [|done]. simpl in *.
  eauto using HandlerFacts.posts_only_trans.
Qed.

End TurnFacts.

(** X21.  Whatever the request and whatever fails, [async_handler] writes
    an assistant chat item exactly when it answers 200: with any other
    status at most three items are written and none has the role
    [assistant]; with 200 the last item written is the assistant's and it
    is the only one. *)
Theorem assistant_item_only_on_ok (E : env) (ev : event) (w : world) :
  let w' := (async_handler E ev w).1 in
  let status := (async_handler E ev w).2.(statusCode) in
  (status ≠ 200%Z →
   ∃ ws, writes w' = writes w ++ ws ∧ length ws ≤ 3
         ∧ Forall (λ i, i.(item_role) ≠ #"assistant") ws)
  ∧ (status = 200%Z →
     ∃ ws a, writes w' = writes w ++ ws ++ [a] ∧ length ws ≤ 3
             ∧ a.(item_role) = #"assistant"
             ∧ Forall (λ i, i.(item_role) ≠ #"assistant") ws).
Proof.
  assert (∀ w0, ∃ ws, writes w0 = writes w0 ++ ws ∧ length ws ≤ 3
                      ∧ Forall (λ i, i.(item_role) ≠ #"assistant") ws) as Hnone.
  { intros w0. exists []. rewrite app_nil_r. simpl. split; [done|]. split; [lia|done]. }
  unfold async_handler.
  destruct (event_body ev) as [b|]; [|simpl; split; [intros _; apply Hnone|done]].
  destruct (negb (truthy _ && truthy _ && truthy _));
    [simpl; split; [intros _; apply Hnone|done]|].
  destruct (negb (truthy _ && truthy _)).
  { simpl. split; [|done]. intros _. rewrite HandlerMore.writes_push. apply Hnone. }
  set (w0 := push_to_client E _ (Processing _) w).
  assert (writes w0 = writes w) as Hw0 by apply HandlerMore.writes_push.
  assert (∃ ws0, ∀ w1 sid us,
            session_handling E (default [] (body_user_id b)) (body_session_id b)
              (default [] (connectionId ev)) w0 = (w1, inr (sid, us)) →
            writes w1 = writes w ++ ws0 ∧ length ws0 ≤ 1
            ∧ Forall (λ i, i.(item_role) ≠ #"assistant") ws0) as [ws0 Hs].
  { unfold session_handling. destruct (truthy (body_session_id b)).
    - exists []. intros w1 sid us. destruct (user_session_repository.get_user_session _ _ _)
        as [?|[?|]]; try done. intros [= <- _ _]. rewrite app_nil_r. simpl.
      split; [done|]. split; [lia|done].
    - eexists [_]. intros w1 sid us [= <- _ _].
      rewrite HandlerMore.writes_db_put, Hw0. split; [done|]. split; [simpl; lia|].
      by repeat constructor. }
  destruct (session_handling _ _ _ _ w0) as [w1 [resp|[sid us]]] eqn:Hsess.
  { simpl. revert Hsess. unfold session_handling.
    destruct (truthy (body_session_id b)); [|done].
    destruct (user_session_repository.get_user_session _ _ _) as [?|[?|]];
      intros [= <- <-]; simpl; (split; [|done]); intros _;
      rewrite HandlerMore.writes_push, Hw0; apply Hnone. }
  destruct (Hs w1 sid us eq_refl) as (Hw1 & Hl0 & Hf0). clear Hs.
  set (user_turn := chat_repository.to_item _).
  set (session_record := user_session_repository.to_item _).
  assert (Forall (λ i, i.(item_role) ≠ #"assistant")
            (ws0 ++ [user_turn; session_record])) as Hf2.
  { apply Forall_app. split; [done|]. by repeat constructor. }
  assert (length (ws0 ++ [user_turn; session_record]) ≤ 3) as Hl2.
  { rewrite length_app. simpl. lia. }
  assert (writes (db_put session_record (db_put user_turn w1))
          = writes w ++ ws0 ++ [user_turn; session_record]) as Hw2.
  { rewrite !HandlerMore.writes_db_put, Hw1. by rewrite <- !app_assoc. }
  destruct (compile_history _ _ _ _ _) as [?|chat_messages].
  { simpl. split; [|done]. intros _. rewrite HandlerMore.writes_push. eauto. }
  destruct (get_agent _) as [?|agent].
  { simpl. split; [|done]. intros _. rewrite !HandlerMore.writes_push. eauto. }
  destruct (stream_to_client_and_persist _ _ _ _ _ _ _) as [w4 [e|r]] eqn:Hst.
  - simpl. split; [|done]. intros _.
    apply TurnFacts.stream_raised_posts_only, HandlerMore.writes_posts_only in Hst.
    rewrite HandlerMore.writes_push, Hst, HandlerMore.writes_push. eauto.
  - simpl. split; [done|]. intros _.
    apply TurnFacts.stream_returned_put in Hst as (w3 & Hpo & ->).
    apply HandlerMore.writes_posts_only in Hpo.
    rewrite HandlerMore.writes_db_put, Hpo, HandlerMore.writes_push, Hw2.
    eexists _, _. split; [by rewrite <- app_assoc|]. done.
Qed.

Lemma assistant_item_only_on_ok_not_found :
  ∃ ws,
    writes (async_handler calm_env (request #"mallory" (Some #"nobody-00000000"))
              (World alice_table [])).1
    = [] ++ ws
    ∧ length ws ≤ 3 ∧ Forall (λ i, i.(item_role) ≠ #"assistant") ws.
Proof.
  apply (proj1 (assistant_item_only_on_ok calm_env
                  (request #"mallory" (Some #"nobody-00000000"))
                  (World alice_table []))).
  vm_compute. discriminate.
Defined.

(** ** The document tools of the general agent *)

Module DocumentFacts.
Import general_agent.

Lemma split_nonempty sep s : Py.split sep s ≠ [].
Proof.
  destruct s as [|c s]; simpl; [done|].
  case_bool_decide; [done|]. by destruct (Py.split sep s).
Qed.

Lemma split_app sep a rest :
  sep ∉ a → Py.split sep (a ++ sep :: rest) = a :: Py.split sep rest.
Proof.
  induction a as [|c a IH]; intros Hno; simpl.
  - by rewrite bool_decide_eq_true_2.
  - rewrite bool_decide_eq_false_2 by (intros ->; apply Hno; left).
    rewrite IH; [done|]. intros H. apply Hno. by right.
Qed.

Lemma join_split sep s : Py.join_with [sep] (Py.split sep s) = s.
Proof.
  induction s as [|c s IH]; simpl; [done|].
  pose proof (split_nonempty sep s) as Hne.
  destruct (Py.split sep s) as [|piece pieces]; [done|].
  case_bool_decide as Hc.
  - subst c. change (Py.join_with [sep] ([] :: piece :: pieces))
      with (sep :: Py.join_with [sep] (piece :: pieces)). by rewrite IH.
  - rewrite <- IH. by destruct pieces.
Qed.

Lemma lstrip_char_head c s : head (Py.lstrip_char c s) ≠ Some c.
Proof.
  induction s as [|x s IH]; simpl; [done|].
  case_bool_decide; [done|]. simpl. congruence.
Qed.

Lemma lstrip_char_last c s : last s ≠ Some c → last (Py.lstrip_char c s) ≠ Some c.
Proof.
  induction s as [|x s IH]; simpl; [done|].
  case_bool_decide; [|done]. intros Hl. apply IH. destruct s; [done|]. exact Hl.
Qed.

Lemma strip_char_ends c s :
  head (Py.strip_char c s) ≠ Some c ∧ last (Py.strip_char c s) ≠ Some c.
Proof.
  unfold Py.strip_char. split.
  - rewrite head_reverse. apply lstrip_char_last. rewrite last_reverse.
    apply lstrip_char_head.
  - rewrite last_reverse. apply lstrip_char_head.
Qed.

Lemma chunks_take (n : nat) (t : str) (m : nat) :
  Py.join ((λ i, take n (drop i t)) <$> ((λ k, k * n) <$> seq 0 m)) = take (m * n) t.
Proof.
  unfold Py.join. induction m as [|m IH]; [done|].
  rewrite seq_S, !fmap_app, concat_app, IH. simpl.
  rewrite app_nil_r, take_take_drop. f_equal. lia.
Qed.

Lemma range_covers (L n : nat) : 0 < n → L ≤ (L + n - 1) / n * n.
Proof.
  intros Hn. pose proof (Nat.mul_succ_div_gt (L + n - 1) n ltac:(lia)) as H.
  rewrite Nat.mul_succ_r, Nat.mul_comm in H. lia.
Qed.

Lemma range_tight (L n k : nat) : 0 < n → k < (L + n - 1) / n → k * n < L.
Proof.
  intros Hn Hk. pose proof (Nat.Div0.mul_div_le (L + n - 1) n) as H.
  assert (n * S k ≤ n * ((L + n - 1) / n)) as H' by (apply Nat.mul_le_mono_l; lia).
  rewrite Nat.mul_succ_r, (Nat.mul_comm n k) in H'. lia.
Qed.

Lemma join_with_length (sep : str) (parts : list str) :
  parts ≠ [] →
  length (Py.join_with sep parts)
  = sum_list (length <$> parts) + (length parts - 1) * length sep.
Proof.
  induction parts as [|p parts IH]; [done|]. intros _.
  destruct parts as [|q parts]; [simpl; lia|].
  change (Py.join_with sep (p :: q :: parts))
    with (p ++ sep ++ Py.join_with sep (q :: parts)).
  rewrite !length_app, IH by done. simpl. lia.
Qed.

Lemma page_sections_text chunk_size page_index page_text :
  text <$> page_sections chunk_size page_index page_text
  = _chunk_text page_text chunk_size.
Proof.
  unfold page_sections. rewrite fmap_imap.
  trans (imap (const id) (_chunk_text page_text chunk_size));
    [by apply imap_ext|by rewrite imap_const, list_fmap_id].
Qed.

Lemma chunk_text_join text chunk_size : Py.join (_chunk_text text chunk_size) = text.
Proof.
  unfold _chunk_text. destruct chunk_size as [n|]; [|apply app_nil_r].
  destruct (n <=? 0)%Z eqn:E; [apply app_nil_r|]. apply Z.leb_gt in E.
  unfold Py.range_step. rewrite chunks_take. apply take_ge, range_covers. lia.
Qed.

Lemma sections_text page_texts chunk_size (g : nat → str → list section_payload) :
  (∀ i t, text <$> g i t = _chunk_text t chunk_size) →
  Py.join (text <$> concat (imap g page_texts)) = Py.join page_texts.
Proof.
  revert g. induction page_texts as [|p ps IH]; intros g Hg; [done|].
  rewrite imap_cons. simpl. rewrite fmap_app. unfold Py.join in *.
  rewrite concat_app, Hg. simpl.
  rewrite (IH (g ∘ S)) by (intros i t; apply Hg). f_equal. apply chunk_text_join.
Qed.

Lemma chunk_lookup (text : str) (n : Z) (k : nat) (chunk : str) :
  (0 < n)%Z →
  _chunk_text text (Some n) !! k = Some chunk →
  k < (length text + Z.to_nat n - 1) / Z.to_nat n
  ∧ chunk = take (Z.to_nat n) (drop (k * Z.to_nat n) text).
Proof.
  intros Hn. unfold _chunk_text. rewrite (proj2 (Z.leb_gt n 0)) by lia.
  unfold Py.range_step. rewrite !list_lookup_fmap. intros H.
  destruct (seq 0 _ !! k) as [j|] eqn:Hj; [|done].
  apply lookup_seq in Hj as [-> ?]. simpl in H. by injection H as <-.
Qed.

Lemma chunk_count (text : str) (n : Z) :
  (0 < n)%Z →
  length (_chunk_text text (Some n)) = (length text + Z.to_nat n - 1) / Z.to_nat n.
Proof.
  intros Hn. unfold _chunk_text. rewrite (proj2 (Z.leb_gt n 0)) by lia.
  unfold Py.range_step. by rewrite !length_fmap, length_seq.
Qed.

Lemma chunk_sizes (text : str) (n : Z) :
  (0 < n)%Z →
  Forall (λ chunk, 0 < length chunk ≤ Z.to_nat n) (_chunk_text text (Some n)).
Proof.
  intros Hn. apply Forall_lookup. intros k chunk [Hlt ->]%chunk_lookup; [|done].
  pose proof (range_tight (length text) (Z.to_nat n) k ltac:(lia) Hlt).
  rewrite length_take, length_drop. lia.
Qed.

Lemma sections_texts page_texts chunk_size (g : nat → str → list section_payload) :
  (∀ i t, text <$> g i t = _chunk_text t chunk_size) →
  text <$> concat (imap g page_texts)
  = concat ((λ t, _chunk_text t chunk_size) <$> page_texts).
Proof.
  revert g. induction page_texts as [|p ps IH]; intros g Hg; [done|].
  rewrite imap_cons. simpl. rewrite fmap_app, Hg.
  by rewrite (IH (g ∘ S)) by (intros i t; apply Hg).
Qed.

Lemma section_of_page page_texts max_chars s :
  s ∈ sections_all page_texts max_chars →
  ∃ i t, page_texts !! i = Some t
         ∧ s ∈ page_sections (positive max_chars) i t.
Proof.
  unfold sections_all. intros H. apply list_elem_of_In, in_concat in H as (l & Hl & Hs).
  apply list_elem_of_In, elem_of_lookup_imap in Hl as (i & t & -> & Hi).
  exists i, t. split; [done|]. by apply list_elem_of_In.
Qed.

Lemma section_fields chunk_size i t s :
  s ∈ page_sections chunk_size i t →
  s.(page) = i + 1
  ∧ s.(text) ∈ _chunk_text t chunk_size
  ∧ (length (_chunk_text t chunk_size) ≤ 1 → s.(part) = None).
Proof.
  intros H. split; [|split].
  - apply elem_of_lookup_imap in H as (k & chunk & -> & _). done.
  - rewrite <- (page_sections_text chunk_size i t). by apply list_elem_of_fmap_2.
  - apply elem_of_lookup_imap in H as (k & chunk & -> & _). simpl. intros Hle.
    by rewrite (proj2 (Nat.ltb_ge _ _)).
Qed.

Lemma join_length (parts : list str) :
  length (Py.join parts) = sum_list (length <$> parts).
Proof.
  unfold Py.join. induction parts as [|p ps IH]; [done|].
  simpl. rewrite length_app, IH. done.
Qed.

End DocumentFacts.

(** X22.  [_chunk_text] cuts a text without losing or adding a character:
    the chunks put together are the text.  With a positive chunk size there
    are as many chunks as the size goes into the length, rounded up; none
    is empty (so the empty text gives no chunk at all), none is longer than
    the size, and all but the last have exactly that size. *)
Theorem chunk_text_partitions (text : str) (chunk_size : option Z) :
  let chunks := general_agent._chunk_text text chunk_size in
  Py.join chunks = text
  ∧ ∀ n, chunk_size = Some n → (0 < n)%Z →
      length chunks = (length text + Z.to_nat n - 1) / Z.to_nat n
      ∧ Forall (λ chunk, 0 < length chunk ≤ Z.to_nat n) chunks
      ∧ ∀ k chunk, chunks !! k = Some chunk → S k < length chunks →
          length chunk = Z.to_nat n.
Proof.
  split; [apply DocumentFacts.chunk_text_join|].
  intros n -> Hn. split; [by apply DocumentFacts.chunk_count|].
  split; [by apply DocumentFacts.chunk_sizes|].
  intros k chunk [_ ->]%DocumentFacts.chunk_lookup Hlt; [|done].
  rewrite DocumentFacts.chunk_count in Hlt by done.
  pose proof (DocumentFacts.range_tight (length text) (Z.to_nat n) (S k)
                ltac:(lia) Hlt) as H.
  simpl in H.
  rewrite length_take, length_drop. lia.
Qed.

Lemma chunk_text_partitions_seven :
  length (general_agent._chunk_text #"abcdefg" (Some 3%Z)) = 3.
Proof.
  destruct (chunk_text_partitions #"abcdefg" (Some 3%Z)) as [_ H].
  destruct (H 3%Z eq_refl ltac:(lia)) as (-> & _). reflexivity.
Defined.

(** X23.  The object that [_read_s3_bytes] fetches is the one
    [_resolve_s3_source] resolved: for a bucket name without a slash, the
    bucket and key it takes out of the URI are the resolved bucket and key.
    The key is the file name, after the prefix and one slash when the
    prefix, with the slashes at its ends removed, is not empty. *)
Theorem resolved_source_is_read (TEMP_S3_KB : option str)
    (s3_file_name default_prefix : str) (s3_bucket s3_prefix : option str)
    (bucket key s3_uri : str) :
  general_agent._resolve_s3_source TEMP_S3_KB s3_file_name default_prefix
    s3_bucket s3_prefix = inr (bucket, key, s3_uri) →
  ("/"%char : char) ∉ bucket →
  general_agent.s3_location s3_uri = Some (bucket, key)
  ∧ bucket ≠ [] ∧ s3_file_name ≠ []
  ∧ (key = s3_file_name
     ∨ ∃ prefix : str, prefix ≠ [] ∧ head prefix ≠ Some ("/"%char : char)
                 ∧ last prefix ≠ Some ("/"%char : char)
                 ∧ key = prefix ++ #"/" ++ s3_file_name).
Proof.
  unfold general_agent._resolve_s3_source. case_bool_decide as Hname; [done|].
  set (chosen := match s3_bucket with Some (c :: b) => Some (c :: b) | _ => TEMP_S3_KB end).
  destruct chosen as [[|c b]|]; [done| |done].
  set (prefix := Py.strip_char "/"%char _).
  intros [= <- <- <-] Hslash. split; [|split; [done|split; [done|]]].
  - unfold general_agent.s3_location.
    set (key := if bool_decide (prefix = []) then _ else _).
    change (Py.split "/"%char _)
      with (Py.split "/"%char
              (#"s3:" ++ ("/"%char : char) :: ([] ++ ("/"%char : char) :: ((c :: b) ++ ("/"%char : char) :: key)))).
    rewrite (DocumentFacts.split_app "/"%char #"s3:")
      by (intros H; repeat (apply elem_of_cons in H as [?|H]; [done|]);
          by apply elem_of_nil in H).
    rewrite (DocumentFacts.split_app "/"%char []) by apply not_elem_of_nil.
    rewrite (DocumentFacts.split_app "/"%char (c :: b)) by done.
    simpl. do 2 f_equal. apply (DocumentFacts.join_split "/"%char).
  - case_bool_decide as Hp; [by left|]. right. exists prefix.
    destruct (DocumentFacts.strip_char_ends "/"%char 
                match s3_prefix with Some (c' :: p) => c' :: p | _ => default_prefix end).
    done.
Qed.

Lemma resolved_source_is_read_lessons :
  general_agent.s3_location #"s3://kb-bucket/lessons/grade5/fractions.pdf"
  = Some (#"kb-bucket", #"lessons/grade5/fractions.pdf").
Proof.
  refine (proj1 (resolved_source_is_read (Some #"kb-bucket") #"fractions.pdf" #"public"
                   None (Some #"/lessons/grade5/") _ _ _ eq_refl _)).
  intros H. repeat (apply elem_of_cons in H as [?|H]; [done|]).
  by apply elem_of_nil in H.
Defined.

(** X24.  A reply of [fetch_document_text] loses no text: the preview
    followed by [remaining_text] is the pages joined by line feeds, and
    [remaining_text] is there exactly when [overflow] is set, which is when
    a positive [max_chars] is below the length of the joined text.  A
    positive [max_chars] bounds the preview.  [total_chars] counts the
    pages only: the joined text is longer by one line feed between each two
    pages. *)
Theorem document_preview_splits_text (TEMP_S3_KB : option str)
    (get_pages : str → str → exn + list str)
    (s3_file_name : str) (max_chars : Z) (s3_bucket s3_prefix : option str)
    (d : general_agent.document) :
  general_agent.fetch_document_text TEMP_S3_KB get_pages s3_file_name max_chars
    s3_bucket s3_prefix = inr d →
  let full_text := Py.join_with [LF] d.(general_agent.pages) in
  d.(general_agent.document_text) ++ default [] d.(general_agent.remaining_text)
  = full_text
  ∧ (d.(general_agent.overflow) = true
     ↔ (0 < max_chars)%Z ∧ (max_chars < Z.of_nat (length full_text))%Z)
  ∧ (is_Some d.(general_agent.remaining_text) ↔ d.(general_agent.overflow) = true)
  ∧ ((0 < max_chars)%Z →
     (Z.of_nat (length d.(general_agent.document_text)) ≤ max_chars)%Z)
  ∧ d.(general_agent.document_page_count) = length d.(general_agent.pages)
  ∧ (d.(general_agent.pages) ≠ [] →
     length full_text
     = d.(general_agent.document_total_chars)
       + (d.(general_agent.document_page_count) - 1)).
Proof.
  unfold general_agent.fetch_document_text.
  destruct (general_agent._resolve_s3_source _ _ _ _ _) as [?|[[bucket key] s3_uri]];
    [done|].
  destruct (general_agent.read_pages _ _) as [?|page_texts]; [done|].
  intros [= <-]. simpl. fold LF.
  set (full_text := Py.join_with [LF] page_texts).
  assert (page_texts ≠ [] →
          length full_text = sum_list (length <$> page_texts) + (length page_texts - 1))
    as Hlen.
  { intros Hne. unfold full_text.
    rewrite DocumentFacts.join_with_length by done. simpl. lia. }
  unfold general_agent.positive. destruct (0 <? max_chars)%Z eqn:Hpos.
  - apply Z.ltb_lt in Hpos. cbv iota. rewrite length_take.
    destruct (_ <? length full_text) eqn:Hov.
    + apply Nat.ltb_lt in Hov. simpl.
      replace (Z.to_nat max_chars `min` length full_text) with (Z.to_nat max_chars)
        by lia.
      rewrite take_drop. repeat split; try done; try lia; try by eexists.
    + apply Nat.ltb_ge in Hov. simpl. rewrite app_nil_r, take_ge by lia.
      repeat split; try done; try lia; try by intros [? [=]].
  - apply Z.ltb_ge in Hpos. cbv iota. rewrite Nat.ltb_irrefl. simpl.
    rewrite app_nil_r.
    repeat split; try done; try lia; try by intros [? [=]].
Qed.

Lemma document_preview_splits_text_two_pages :
  ∃ d,
    general_agent.fetch_document_text (Some #"kb-bucket")
      (λ _ _, inr [ #"Fractions"; #"A half" ]) #"fractions.pdf" 12 None None = inr d
    ∧ d.(general_agent.document_text) ++ default [] d.(general_agent.remaining_text)
      = #"Fractions" ++ [LF] ++ #"A half".
Proof.
  eexists. split; [reflexivity|].
  refine (proj1 (document_preview_splits_text (Some #"kb-bucket")
                   (λ _ _, inr [ #"Fractions"; #"A half" ]) #"fractions.pdf" 12
                   None None _ eq_refl)).
Defined.

(** X25.  The paging of [fetch_document_sections]: the sections returned
    are those that follow the offset in the list of all sections, at most
    [limit] of them when the limit is positive and all of them otherwise.
    Nothing is skipped or repeated between one reply and the call at its
    [next_offset]: the returned sections followed by all sections from
    [next_offset] on are all sections from the offset on.  [has_more] is
    set exactly when sections remain, and then [next_offset] is the offset
    plus the positive limit; without it [next_offset] is absent. *)
Theorem sections_pagination (s3_uri : str) (page_texts : list str)
    (offset limit max_chars : Z) :
  let all := general_agent.sections_all page_texts max_chars in
  let r := general_agent.select_sections s3_uri page_texts offset limit max_chars in
  r.(general_agent.offset) = Z.to_nat offset
  ∧ r.(general_agent.total_sections) = length all
  ∧ r.(general_agent.returned) = length r.(general_agent.sections)
  ∧ ((0 < limit)%Z → r.(general_agent.returned) ≤ Z.to_nat limit)
  ∧ r.(general_agent.sections)
      ++ drop (r.(general_agent.offset) + r.(general_agent.returned)) all
    = drop r.(general_agent.offset) all
  ∧ (r.(general_agent.has_more) = true
     ↔ r.(general_agent.offset) + r.(general_agent.returned) < length all)
  ∧ (r.(general_agent.has_more) = true →
     (0 < limit)%Z
     ∧ r.(general_agent.returned) = Z.to_nat limit
     ∧ r.(general_agent.next_offset)
       = Some (r.(general_agent.offset) + Z.to_nat limit))
  ∧ (r.(general_agent.has_more) = false →
     r.(general_agent.next_offset) = None
     ∧ r.(general_agent.sections) = drop r.(general_agent.offset) all).
Proof.
  intros all r. unfold r, general_agent.select_sections. simpl. fold all.
  set (O := Z.to_nat (Z.max offset 0)).
  set (L := if (0 <? limit)%Z then Z.to_nat limit else length all).
  assert (O = Z.to_nat offset) as HO by (unfold O; lia).
  assert ((0 < limit)%Z → L = Z.to_nat limit) as HL.
  { intros H. unfold L. by rewrite (proj2 (Z.ltb_lt 0 limit)). }
  assert (¬ (0 < limit)%Z → L = length all) as HL'.
  { intros H. unfold L. by rewrite (proj2 (Z.ltb_ge 0 limit)) by lia. }
  rewrite length_take, length_drop.
  split; [done|]. split; [done|]. split; [done|].
  split; [intros H; specialize (HL H); lia|].
  split.
  { rewrite <- (take_drop (Nat.min (O + L) (length all) - O) (drop O all)) at 2.
    rewrite drop_drop. do 2 f_equal. lia. }
  split.
  { rewrite Nat.ltb_lt. destruct (decide (0 < limit)%Z) as [H|H].
    - specialize (HL H). lia.
    - specialize (HL' H). lia. }
  split.
  - intros Hm%Nat.ltb_lt. destruct (decide (0 < limit)%Z) as [H|H].
    + specialize (HL H). rewrite (proj2 (Nat.ltb_lt _ _)) by lia.
      split; [done|]. split; [lia|]. f_equal. lia.
    + specialize (HL' H). lia.
  - intros Hm. rewrite Hm. split; [done|]. apply Nat.ltb_ge in Hm.
    apply take_ge. rewrite length_drop. lia.
Qed.

Lemma sections_pagination_first_two :
  (general_agent.select_sections #"s3://kb-bucket/public/fractions.pdf"
     [ #"abcdefg"; #"hi" ] 0 2 3).(general_agent.next_offset)
  = Some (0 + 2).
Proof.
  pose proof (sections_pagination #"s3://kb-bucket/public/fractions.pdf"
                [ #"abcdefg"; #"hi" ] 0 2 3) as (_ & _ & _ & _ & _ & _ & H & _).
  destruct (H eq_refl) as (_ & _ & ->). reflexivity.
Defined.

(** X26.  The sections of [fetch_document_sections] cover the document:
    their texts put together are the pages put together, and every section
    names a page of the document.  With a positive [max_chars] no section
    is empty or longer than [max_chars] (a page without text has no section
    at all); otherwise there is exactly one section for each page, without
    a part number.  A request from offset 0 without a positive limit
    returns all sections, and its [chars] equals [total_chars]. *)
Theorem sections_cover_pages (s3_uri : str) (page_texts : list str) (max_chars : Z) :
  let all := general_agent.sections_all page_texts max_chars in
  let r := general_agent.select_sections s3_uri page_texts 0 0 max_chars in
  Py.join (general_agent.text <$> all) = Py.join page_texts
  ∧ Forall (λ s, 1 ≤ s.(general_agent.page) ≤ length page_texts) all
  ∧ ((0 < max_chars)%Z →
     Forall (λ s, 0 < length s.(general_agent.text) ≤ Z.to_nat max_chars) all)
  ∧ ((max_chars ≤ 0)%Z →
     general_agent.text <$> all = page_texts
     ∧ Forall (λ s, s.(general_agent.part) = None) all)
  ∧ r.(general_agent.sections) = all
  ∧ r.(general_agent.chars) = r.(general_agent.sections_total_chars)
  ∧ r.(general_agent.has_more) = false.
Proof.
  intros all r.
  assert (Py.join (general_agent.text <$> all) = Py.join page_texts) as Hjoin.
  { apply DocumentFacts.sections_text with (chunk_size := general_agent.positive max_chars).
    intros i t. apply DocumentFacts.page_sections_text. }
  assert (general_agent.sections r = all) as Hall.
  { unfold r, general_agent.select_sections. simpl. fold all.
    rewrite Nat.min_id, Nat.sub_0_r. by apply take_ge. }
  split; [done|]. split; [|split; [|split; [|split; [done|split]]]].
  - apply Forall_forall. intros s (i & t & Hi & Hs)%DocumentFacts.section_of_page.
    apply DocumentFacts.section_fields in Hs as (-> & _).
    apply lookup_lt_Some in Hi. lia.
  - intros Hpos. apply Forall_forall.
    intros s (i & t & Hi & Hs)%DocumentFacts.section_of_page.
    apply DocumentFacts.section_fields in Hs as (_ & Hs & _).
    unfold general_agent.positive in Hs. rewrite (proj2 (Z.ltb_lt 0 max_chars)) in Hs by done.
    pose proof (DocumentFacts.chunk_sizes t max_chars Hpos) as Hf.
    rewrite Forall_forall in Hf. by apply Hf.
  - intros Hneg. assert (general_agent.positive max_chars = None) as Hnone.
    { unfold general_agent.positive. by rewrite (proj2 (Z.ltb_ge 0 max_chars)). }
    split.
    + unfold all, general_agent.sections_all.
      rewrite (DocumentFacts.sections_texts _ (general_agent.positive max_chars))
        by (intros i t; apply DocumentFacts.page_sections_text).
      rewrite Hnone. clear. induction page_texts as [|p ps IH]; [done|].
      simpl. f_equal. exact IH.
    + apply Forall_forall. intros s (i & t & Hi & Hs)%DocumentFacts.section_of_page.
      apply DocumentFacts.section_fields in Hs as (_ & _ & Hs). apply Hs.
      by rewrite Hnone.
  - transitivity (sum_list (length <$> (general_agent.text <$> general_agent.sections r))).
    { unfold r, general_agent.select_sections. simpl. by rewrite <- list_fmap_compose. }
    rewrite Hall, <- DocumentFacts.join_length, Hjoin, DocumentFacts.join_length. done.
  - unfold r, general_agent.select_sections. simpl. fold all.
    rewrite Nat.min_id. apply Nat.ltb_irrefl.
Qed.

Lemma sections_cover_pages_blank_page :
  Forall (λ s, 0 < length s.(general_agent.text) ≤ 3)
    (general_agent.sections_all [ #"abcdefg"; []; #"hi" ] 3).
Proof.
  pose proof (sections_cover_pages [] [ #"abcdefg"; []; #"hi" ] 3)
    as (_ & _ & H & _).
  apply H. lia.
Defined.

Module ToolFacts.
Import general_agent.

Lemma uri_location (bucket key : str) :
  ("/"%char : char) ∉ bucket →
  s3_location (#"s3://" ++ bucket ++ #"/" ++ key) = Some (bucket, key).
Proof.
  intros Hslash. unfold s3_location.
  change (Py.split "/"%char _)
    with (Py.split "/"%char
            (#"s3:" ++ ("/"%char : char) :: ([] ++ ("/"%char : char) :: (bucket ++ ("/"%char : char) :: key)))).
  rewrite (DocumentFacts.split_app "/"%char #"s3:")
    by (intros H; repeat (apply elem_of_cons in H as [?|H]; [done|]);
        by apply elem_of_nil in H).
  rewrite (DocumentFacts.split_app "/"%char []) by apply not_elem_of_nil.
  rewrite (DocumentFacts.split_app "/"%char bucket) by done.
  simpl. do 2 f_equal. apply (DocumentFacts.join_split "/"%char).
Qed.

Lemma resolved_uri TEMP_S3_KB s3_file_name default_prefix s3_bucket s3_prefix
    bucket key s3_uri :
  _resolve_s3_source TEMP_S3_KB s3_file_name default_prefix s3_bucket s3_prefix
  = inr (bucket, key, s3_uri) →
  s3_uri = #"s3://" ++ bucket ++ #"/" ++ key.
Proof.
  unfold _resolve_s3_source. case_bool_decide; [done|].
  destruct (match s3_bucket with Some (c :: b) => Some (c :: b) | _ => TEMP_S3_KB end)
    as [[|c b]|]; [done| |done].
  by intros [= <- <- <-].
Qed.

End ToolFacts.

(** X27.  The two document tools agree: on the same file arguments both
    fail with the same error entry or both answer, and then they report
    the same URI, page count and [total_chars].  What they read is the
    object that was resolved: for a bucket name without a slash, the pages
    of the reply are those of the object under the resolved bucket and
    key. *)
Theorem document_tools_agree (TEMP_S3_KB : option str)
    (get_pages : str → str → exn + list str) (s3_file_name : str)
    (offset limit max_chars max_chars' : Z) (s3_bucket s3_prefix : option str) :
  match general_agent.fetch_document_text TEMP_S3_KB get_pages s3_file_name
          max_chars s3_bucket s3_prefix,
        general_agent.fetch_document_sections TEMP_S3_KB get_pages s3_file_name
          offset limit max_chars' s3_bucket s3_prefix with
  | inl e, inl e' => e = e'
  | inr d, inr r =>
      r.(general_agent.sections_s3_uri) = d.(general_agent.document_s3_uri)
      ∧ r.(general_agent.sections_page_count) = d.(general_agent.document_page_count)
      ∧ r.(general_agent.sections_total_chars) = d.(general_agent.document_total_chars)
      ∧ Py.join (general_agent.text <$>
                   general_agent.sections_all d.(general_agent.pages) max_chars')
        = Py.join d.(general_agent.pages)
      ∧ ∃ bucket key,
          general_agent._resolve_s3_source TEMP_S3_KB s3_file_name #"public"
            s3_bucket s3_prefix
          = inr (bucket, key, d.(general_agent.document_s3_uri))
          ∧ (("/"%char : char) ∉ bucket → get_pages bucket key = inr d.(general_agent.pages))
  | _, _ => False
  end.
Proof.
  unfold general_agent.fetch_document_text, general_agent.fetch_document_sections.
  destruct (general_agent._resolve_s3_source _ _ _ _ _)
    as [?|[[bucket key] s3_uri]] eqn:Hres; [done|].
  destruct (general_agent.read_pages _ _) as [?|page_texts] eqn:Hread; [done|].
  simpl. split; [done|]. split; [done|]. split; [done|]. split.
  { apply DocumentFacts.sections_text
      with (chunk_size := general_agent.positive max_chars').
    intros i t. apply DocumentFacts.page_sections_text. }
  exists bucket, key. split; [done|]. intros Hslash.
  apply ToolFacts.resolved_uri in Hres as ->.
  unfold general_agent.read_pages in Hread.
  rewrite ToolFacts.uri_location in Hread by done.
  simpl in Hread. destruct (get_pages bucket key); [done|congruence].
Qed.
